(** * LLMExtractor: the extraction-to-relational pipeline

    A shallow embedding of the parsing / repair code of [extrator2.py] and of
    the parser, repository and script generator of [repoSQL.py], with the
    properties of the specification proved (or refuted) against it.

    Python texts are modelled as lists of characters; a character is a code
    point below 256 (the Latin-1 repertoire, which covers the Portuguese
    texts the program handles), so that [len], slicing, [strip] and the
    regular-expression classes of the source agree with the model
    character by character. *)

From Stdlib Require Import Ascii String DecimalString.
From Stdlib Require Import List Bool Arith Lia.
Import ListNotations.

Set Implicit Arguments.
Set Warnings "-register-all".

(* ================================================================== *)
(** * Python strings *)
(* ================================================================== *)

Module PyStr.

Definition text := list ascii.

(** Source literals are written as Rocq strings, which are UTF-8; [py]
    turns the two-byte sequences of accented letters into the single code
    point they stand for. *)
Fixpoint latin1 (bs : list ascii) : text :=
  match bs with
  | [] => []
  | b1 :: tl =>
      match b1, tl with
      | Ascii false true false false false false true true, b2 :: r =>
          (* lead byte C2: the code point is the second byte *)
          b2 :: latin1 r
      | Ascii true true false false false false true true,
        Ascii a0 a1 a2 a3 a4 a5 _ a7 :: r =>
          (* lead byte C3: the second byte, plus 64 *)
          Ascii a0 a1 a2 a3 a4 a5 true a7 :: latin1 r
      | _, _ => b1 :: latin1 tl
      end
  end.

Definition py (s : string) : text := latin1 (list_ascii_of_string s).

(** The double quote cannot stand in a literal: [q] writes a text with an
    apostrophe wherever the text has a double quote. *)
Definition dquote : ascii := "034"%char.
Definition squote : ascii := "039"%char.
Definition newline : ascii := "010"%char.
Definition creturn : ascii := "013"%char.
Definition backslash : ascii := "092"%char.

Definition q (s : string) : text :=
  map (fun c => if Ascii.eqb c squote then dquote else c) (py s).

Fixpoint text_eqb (a b : text) : bool :=
  match a, b with
  | [], [] => true
  | x :: a', y :: b' => Ascii.eqb x y && text_eqb a' b'
  | _, _ => false
  end.

(** [str.isspace] on one character: the white space of Unicode below 256. *)
Definition isspace (c : ascii) : bool :=
  let n := nat_of_ascii c in
  ((9 <=? n) && (n <=? 13)) || ((28 <=? n) && (n <=? 32))
  || (n =? 133) || (n =? 160).

Fixpoint lstrip (s : text) : text :=
  match s with
  | c :: r => if isspace c then lstrip r else s
  | [] => []
  end.

Definition rstrip (s : text) : text := rev (lstrip (rev s)).

Definition strip (s : text) : text := rstrip (lstrip s).

(** [s.rstrip(",")]: every trailing comma goes. *)
Fixpoint lstrip_char (x : ascii) (s : text) : text :=
  match s with
  | c :: r => if Ascii.eqb c x then lstrip_char x r else s
  | [] => []
  end.

Definition rstrip_char (x : ascii) (s : text) : text :=
  rev (lstrip_char x (rev s)).

Fixpoint startswith (p s : text) : bool :=
  match p, s with
  | [], _ => true
  | x :: p', y :: s' => Ascii.eqb x y && startswith p' s'
  | _ :: _, [] => false
  end.

Definition endswith (p s : text) : bool := startswith (rev p) (rev s).

(** [s.replace(old, new)] for a non-empty [old]: the occurrences are taken
    from the left and do not overlap; [skip] counts the characters of the
    occurrence just replaced that are still to be passed over. *)
Fixpoint replace_from (old new : text) (skip : nat) (s : text) : text :=
  match s with
  | [] => []
  | c :: r =>
      match skip with
      | S k => replace_from old new k r
      | O => if startswith old s
             then new ++ replace_from old new (length old - 1) r
             else c :: replace_from old new 0 r
      end
  end.

Definition replace (old new s : text) : text := replace_from old new 0 s.

(** [s.replace(old, new, 1)]: the first occurrence only. *)
Fixpoint replace_first (old new s : text) : text :=
  match s with
  | [] => []
  | c :: r => if startswith old s then new ++ skipn (length old) s
              else c :: replace_first old new r
  end.

(** [s.rfind(p)]: where the last occurrence of [p] starts. *)
Fixpoint rfind_from (p : text) (i : nat) (s : text) : option nat :=
  match s with
  | [] => None
  | _ :: r =>
      match rfind_from p (S i) r with
      | Some j => Some j
      | None => if startswith p s then Some i else None
      end
  end.

Definition rfind (p s : text) : option nat := rfind_from p 0 s.

(** [s.count(c)] for a one-character [c]. *)
Definition count (c : ascii) (s : text) : nat :=
  length (filter (Ascii.eqb c) s).

(** [sep.join(parts)]. *)
Fixpoint join (sep : text) (parts : list text) : text :=
  match parts with
  | [] => []
  | [p] => p
  | p :: rest => p ++ sep ++ join sep rest
  end.

(** [s.lower()] on the letters A to Z; the other cased letters below 256
    never become a character of [".pdf"], the only use of [lower]. *)
Definition lower_char (c : ascii) : ascii :=
  let n := nat_of_ascii c in
  if (65 <=? n) && (n <=? 90) then ascii_of_nat (n + 32) else c.

Definition lower (s : text) : text := map lower_char s.

(** Truth value of a [str]: non-empty. *)
Definition nonempty (s : text) : bool :=
  match s with [] => false | _ => true end.

(** [str(n)] of a non-negative [int]. *)
Definition str_of_nat (n : nat) : text :=
  list_ascii_of_string (NilZero.string_of_uint (Nat.to_uint n)).

(** [os.path.basename] (POSIX): what follows the last slash. *)
Fixpoint basename_from (acc : text) (p : text) : text :=
  match p with
  | [] => acc
  | c :: r => if Ascii.eqb c "/"%char then basename_from r r
              else basename_from acc r
  end.

Definition basename (p : text) : text := basename_from p p.

End PyStr.

Import PyStr.


(* ================================================================== *)
(** * JSON values and [json.loads] *)
(* ================================================================== *)

Module Json.

(** What [json.loads] builds: [None], [bool], numbers, [str], [list] and
    [dict].  A number keeps its lexeme; a [dict] keeps the insertion order
    of its keys, as Python does. *)
Inductive value :=
| VNone
| VBool (b : bool)
| VNum (lexeme : text)
| VStr (s : text)
| VList (l : list value)
| VDict (d : list (text * value)).

Definition dict := list (text * value).

(** [d.get(k)] *)
Fixpoint dict_get (k : text) (d : dict) : option value :=
  match d with
  | [] => None
  | (k', v) :: r => if text_eqb k k' then Some v else dict_get k r
  end.

(** [d.get(k, default)] *)
Definition dict_get_default (k : text) (default : value) (d : dict) : value :=
  match dict_get k d with Some v => v | None => default end.

(** [d[k] = v]: an existing key keeps its place, a new one goes last. *)
Fixpoint dict_set (k : text) (v : value) (d : dict) : dict :=
  match d with
  | [] => [(k, v)]
  | (k', v') :: r => if text_eqb k k' then (k', v) :: r
                     else (k', v') :: dict_set k v r
  end.

(** ** Tokens *)

Inductive token :=
| T_LBRACE | T_RBRACE | T_LBRACKET | T_RBRACKET | T_COLON | T_COMMA
| T_STR (s : text)
| T_NUM (lexeme : text)
| T_TRUE | T_FALSE | T_NULL.

(** The white space of JSON: space, tab, line feed, carriage return. *)
Definition json_ws (c : ascii) : bool :=
  let n := nat_of_ascii c in
  (n =? 32) || (n =? 9) || (n =? 10) || (n =? 13).

Definition isdigit (c : ascii) : bool :=
  let n := nat_of_ascii c in (48 <=? n) && (n <=? 57).

Definition hexval (c : ascii) : option nat :=
  let n := nat_of_ascii c in
  if (48 <=? n) && (n <=? 57) then Some (n - 48)
  else if (97 <=? n) && (n <=? 102) then Some (n - 87)
  else if (65 <=? n) && (n <=? 70) then Some (n - 55)
  else None.

Definition hex4 (a b c d : ascii) : option nat :=
  match hexval a, hexval b, hexval c, hexval d with
  | Some x, Some y, Some z, Some w => Some (((x * 16 + y) * 16 + z) * 16 + w)
  | _, _, _, _ => None
  end.

(** The one-letter escapes of a JSON string. *)
Definition unescape (e : ascii) : option ascii :=
  if Ascii.eqb e dquote then Some dquote
  else if Ascii.eqb e backslash then Some backslash
  else if Ascii.eqb e "/" then Some "/"%char
  else if Ascii.eqb e "b" then Some "008"%char
  else if Ascii.eqb e "f" then Some "012"%char
  else if Ascii.eqb e "n" then Some "010"%char
  else if Ascii.eqb e "r" then Some "013"%char
  else if Ascii.eqb e "t" then Some "009"%char
  else None.

Definition cons_str (c : ascii) (n : nat) (r : option (text * nat))
  : option (text * nat) :=
  match r with
  | Some (s, m) => Some (c :: s, n + m)
  | None => None
  end.

(** The body of a string, from just after its opening quote: the decoded
    text and how many characters were read, closing quote included.  A
    control character inside a string is refused (strict mode), and so is
    a [\u] escape of a code point the character model does not have. *)
Fixpoint scan_string (r : text) : option (text * nat) :=
  match r with
  | [] => None
  | c :: r1 =>
      if Ascii.eqb c dquote then Some ([], 1)
      else if Ascii.eqb c backslash then
        match r1 with
        | e :: r2 =>
            if Ascii.eqb e "u" then
              match r2 with
              | h1 :: h2 :: h3 :: h4 :: r3 =>
                  match hex4 h1 h2 h3 h4 with
                  | Some n => if n <? 256
                              then cons_str (ascii_of_nat n) 6 (scan_string r3)
                              else None
                  | None => None
                  end
              | _ => None
              end
            else
              match unescape e with
              | Some x => cons_str x 2 (scan_string r2)
              | None => None
              end
        | [] => None
        end
      else if nat_of_ascii c <? 32 then None
      else cons_str c 1 (scan_string r1)
  end.

Fixpoint span_digits (s : text) : nat :=
  match s with
  | c :: r => if isdigit c then S (span_digits r) else 0
  | [] => 0
  end.

(** The integer part: a lone 0, or a digit 1 to 9 and then any digits. *)
Definition scan_int (s : text) : option nat :=
  match s with
  | c :: r => if Ascii.eqb c "0" then Some 1
              else if isdigit c then Some (S (span_digits r))
              else None
  | [] => None
  end.

(** The optional fraction: a dot and at least one digit. *)
Definition scan_frac (s : text) : nat :=
  match s with
  | c :: r => if Ascii.eqb c "."
              then match span_digits r with 0 => 0 | S n => S (S n) end
              else 0
  | [] => 0
  end.

(** The optional exponent: e or E, an optional sign, at least one digit. *)
Definition scan_exp (s : text) : nat :=
  match s with
  | c :: r =>
      if Ascii.eqb c "e" || Ascii.eqb c "E" then
        match r with
        | sg :: r' =>
            if Ascii.eqb sg "+" || Ascii.eqb sg "-"
            then match span_digits r' with 0 => 0 | S n => S (S (S n)) end
            else match span_digits r with 0 => 0 | S n => S (S n) end
        | [] => 0
        end
      else 0
  | [] => 0
  end.

(** The length of the number at the head of [s], if there is one. *)
Definition scan_number (s : text) : option nat :=
  let '(sign, s1) :=
    match s with
    | c :: r => if Ascii.eqb c "-" then (1, r) else (0, s)
    | [] => (0, s)
    end in
  match scan_int s1 with
  | Some n =>
      let s2 := skipn n s1 in
      let f := scan_frac s2 in
      Some (sign + n + f + scan_exp (skipn f s2))
  | None => None
  end.

(** The token that starts at the head of [s] and its length. *)
Definition next_token (s : text) : option (token * nat) :=
  match s with
  | [] => None
  | c :: r =>
      if Ascii.eqb c dquote then
        match scan_string r with
        | Some (str, n) => Some (T_STR str, S n)
        | None => None
        end
      else if Ascii.eqb c "{" then Some (T_LBRACE, 1)
      else if Ascii.eqb c "}" then Some (T_RBRACE, 1)
      else if Ascii.eqb c "[" then Some (T_LBRACKET, 1)
      else if Ascii.eqb c "]" then Some (T_RBRACKET, 1)
      else if Ascii.eqb c ":" then Some (T_COLON, 1)
      else if Ascii.eqb c "," then Some (T_COMMA, 1)
      else if startswith (py "null") s then Some (T_NULL, 4)
      else if startswith (py "true") s then Some (T_TRUE, 4)
      else if startswith (py "false") s then Some (T_FALSE, 5)
      else match scan_number s with
           | Some n => Some (T_NUM (firstn n s), n)
           | None =>
               if startswith (py "NaN") s then Some (T_NUM (py "NaN"), 3)
               else if startswith (py "Infinity") s
               then Some (T_NUM (py "Infinity"), 8)
               else if startswith (py "-Infinity") s
               then Some (T_NUM (py "-Infinity"), 9)
               else None
           end
  end.

(** The tokens of a text; white space between tokens is dropped.  [skip]
    counts the characters of the current token still to be passed over. *)
Fixpoint lex_from (skip : nat) (s : text) : option (list token) :=
  match s with
  | [] => Some []
  | c :: r =>
      match skip with
      | S k => lex_from k r
      | O =>
          if json_ws c then lex_from 0 r
          else match next_token s with
               | Some (t, n) => option_map (cons t) (lex_from (n - 1) r)
               | None => None
               end
      end
  end.

Definition lex (s : text) : option (list token) := lex_from 0 s.

(** ** The grammar, as a pushdown automaton over the tokens *)

(** An enclosing container that waits for the value being read. *)
Inductive frame :=
| F_ARR (acc : list value)
| F_OBJ (acc : dict) (key : text).

Inductive pstate :=
| P_VALUE (stk : list frame)                       (* a value must come *)
| P_ARR_OPEN (stk : list frame)                    (* after [[]: value or []] *)
| P_OBJ_OPEN (stk : list frame)                    (* after [{]: key or [}] *)
| P_KEY (acc : dict) (stk : list frame)            (* after [,] in an object *)
| P_COLON (acc : dict) (key : text) (stk : list frame)
| P_AFTER (v : value) (stk : list frame).          (* a value is complete *)

Definition begin_value (stk : list frame) (t : token) : option pstate :=
  match t with
  | T_STR s => Some (P_AFTER (VStr s) stk)
  | T_NUM l => Some (P_AFTER (VNum l) stk)
  | T_TRUE => Some (P_AFTER (VBool true) stk)
  | T_FALSE => Some (P_AFTER (VBool false) stk)
  | T_NULL => Some (P_AFTER VNone stk)
  | T_LBRACKET => Some (P_ARR_OPEN stk)
  | T_LBRACE => Some (P_OBJ_OPEN stk)
  | _ => None
  end.

Definition step (st : pstate) (t : token) : option pstate :=
  match st with
  | P_VALUE stk => begin_value stk t
  | P_ARR_OPEN stk =>
      match t with
      | T_RBRACKET => Some (P_AFTER (VList []) stk)
      | _ => begin_value (F_ARR [] :: stk) t
      end
  | P_OBJ_OPEN stk =>
      match t with
      | T_RBRACE => Some (P_AFTER (VDict []) stk)
      | T_STR k => Some (P_COLON [] k stk)
      | _ => None
      end
  | P_KEY acc stk =>
      match t with
      | T_STR k => Some (P_COLON acc k stk)
      | _ => None
      end
  | P_COLON acc k stk =>
      match t with
      | T_COLON => Some (P_VALUE (F_OBJ acc k :: stk))
      | _ => None
      end
  | P_AFTER v (F_ARR acc :: stk) =>
      match t with
      | T_COMMA => Some (P_VALUE (F_ARR (acc ++ [v]) :: stk))
      | T_RBRACKET => Some (P_AFTER (VList (acc ++ [v])) stk)
      | _ => None
      end
  | P_AFTER v (F_OBJ acc k :: stk) =>
      match t with
      | T_COMMA => Some (P_KEY (dict_set k v acc) stk)
      | T_RBRACE => Some (P_AFTER (VDict (dict_set k v acc)) stk)
      | _ => None
      end
  | P_AFTER _ [] => None                             (* extra data *)
  end.

Fixpoint run (st : pstate) (ts : list token) : option pstate :=
  match ts with
  | [] => Some st
  | t :: r => match step st t with
              | Some st' => run st' r
              | None => None
              end
  end.

Definition parse_tokens (ts : list token) : option value :=
  match run (P_VALUE []) ts with
  | Some (P_AFTER v []) => Some v
  | _ => None
  end.

(** [json.loads]: [None] stands for [json.JSONDecodeError]. *)
Definition json_loads (s : text) : option value :=
  match lex s with
  | Some ts => parse_tokens ts
  | None => None
  end.

(** Truth value of a Python object.  A number is false when every digit of
    its mantissa is zero. *)
Fixpoint mantissa (l : text) : text :=
  match l with
  | c :: r => if Ascii.eqb c "e" || Ascii.eqb c "E" then [] else c :: mantissa r
  | [] => []
  end.

Definition num_is_zero (l : text) : bool :=
  forallb (fun c => Ascii.eqb c "0" || Ascii.eqb c "-" || Ascii.eqb c ".")
          (mantissa l).

Definition truthy (v : value) : bool :=
  match v with
  | VNone => false
  | VBool b => b
  | VNum l => negb (num_is_zero l)
  | VStr s => nonempty s
  | VList l => match l with [] => false | _ => true end
  | VDict d => match d with [] => false | _ => true end
  end.

End Json.

Import Json.


(* ================================================================== *)
(** * [extrator2.py]: cleaning, parsing and repairing the model's answer *)
(* ================================================================== *)

Module Extrator.

(** ** The three regular expressions of the source, as matchers *)

(** [re.search]: the pattern is tried at every position, left to right. *)
Fixpoint re_search (matches_at : text -> bool) (s : text) : bool :=
  matches_at s ||
  match s with
  | [] => false
  | _ :: r => re_search matches_at r
  end.

(** The suffix that starts at the first [c]. *)
Fixpoint drop_to (c : ascii) (s : text) : option text :=
  match s with
  | [] => None
  | x :: r => if Ascii.eqb x c then Some s else drop_to c r
  end.

(** The prefix that ends with the last [c]. *)
Definition upto_last (c : ascii) (s : text) : option text :=
  option_map (@rev ascii) (drop_to c (rev s)).

(** [re.search(r'(\{.*\})', s, re.DOTALL)]: from the first opening brace to
    the last closing brace after it. *)
Definition search_braces (s : text) : option text :=
  match drop_to "{" s with
  | Some (b :: r) =>
      match upto_last "}" r with
      | Some body => Some (b :: body)
      | None => None
      end
  | _ => None
  end.

Fixpoint drop_nonquote (s : text) : text :=
  match s with
  | c :: r => if Ascii.eqb c dquote then s else drop_nonquote r
  | [] => []
  end.

(** A quoted non-empty key, white space and a colon at the head of [s]:
    what follows the colon. *)
Definition quoted_key_colon (s : text) : option text :=
  match s with
  | c :: k :: r =>
      if Ascii.eqb c dquote && negb (Ascii.eqb k dquote) then
        match drop_nonquote r with
        | _ :: r2 =>
            match lstrip r2 with
            | c2 :: r3 => if Ascii.eqb c2 ":" then Some r3 else None
            | [] => None
            end
        | [] => None
        end
      else None
  | _ => None
  end.

(** [json_start_pattern]: an opening brace, white space, a quoted key, white
    space, a colon. *)
Definition json_start_at (s : text) : bool :=
  match s with
  | c :: r =>
      Ascii.eqb c "{" &&
      match quoted_key_colon (lstrip r) with Some _ => true | None => false end
  | [] => false
  end.

(** [last_property_pattern]: a comma, white space, a quoted key, white
    space, a colon, white space, and the end of the text. *)
Definition last_property_at (s : text) : bool :=
  match s with
  | c :: r =>
      Ascii.eqb c "," &&
      match quoted_key_colon (lstrip r) with
      | Some rest => match lstrip rest with [] => true | _ => false end
      | None => false
      end
  | [] => false
  end.

(** ** Cleaning (the same lines open [analyze_with_gemini] and
    [try_repair_truncated_json]) *)

Definition fence : text := py "```".
Definition fence_json : text := py "```json".

(** [s[:s.rindex(p)]]; under the guard [s.endswith(p)] the last occurrence
    is always found. *)
Definition cut_last (p s : text) : text :=
  match rfind p s with
  | Some i => firstn i s
  | None => s
  end.

Definition clean_response (raw : text) : text :=
  let c0 := strip raw in
  let c1 := if startswith fence_json c0
            then replace_first fence_json [] c0 else c0 in
  let c2 := if endswith fence c1 then cut_last fence c1 else c1 in
  strip (replace fence [] c2).

(** ** The attachment URL *)

Definition k_anexo : text := py "anexo_contrato".

Definition expected_anexo (pdf_filename : text) : text :=
  py "s3://compras-ia-np/Contratos/" ++ pdf_filename.

(** [parsed_json.get("anexo_contrato") != expected_anexo] *)
Definition anexo_differs (expected : text) (d : dict) : bool :=
  match dict_get k_anexo d with
  | Some (VStr s) => negb (text_eqb s expected)
  | _ => true
  end.

Definition fix_anexo (expected : text) (d : dict) : dict :=
  if anexo_differs expected d then dict_set k_anexo (VStr expected) d else d.

(** ** [analyze_with_gemini] *)

(** The loop over the positions of the cleaned text: the suffix at each
    opening brace is parsed; a failure of any kind moves on to the next. *)
Fixpoint scan_suffixes (expected : text) (s : text) : option value :=
  match s with
  | [] => None
  | c :: r =>
      if Ascii.eqb c "{" then
        match json_loads s with
        | Some (VDict d) => Some (VDict (fix_anexo expected d))
        | _ => scan_suffixes expected r
        end
      else scan_suffixes expected r
  end.

(** [cleaned_output[:1000] + ("..." if len(cleaned_output) > 1000 else "")] *)
Definition resposta_modelo (cleaned : text) : text :=
  firstn 1000 cleaned ++ (if 1000 <? length cleaned then py "..." else []).

Definition fallback_json (cleaned pdf_filename : text) : value :=
  VDict [ (py "status_extracao", VStr (py "Falha"));
          (py "mensagem",
           VStr (py "Não foi possível extrair dados estruturados"));
          (py "resposta_modelo", VStr (resposta_modelo cleaned));
          (k_anexo, VStr (expected_anexo pdf_filename)) ].

(** [str.isspace]: non-empty and all white space. *)
Definition all_space (s : text) : bool := nonempty s && forallb isspace s.

(** What [analyze_with_gemini] returns as its first component, from the
    text the model answered ([None] when the call gave no text): the parsed
    object, or [None] for Python's [None].  An exception other than
    [JSONDecodeError] (reading [.get] of a value that is not a [dict])
    reaches the outermost handler, which returns [None]. *)
Definition analyze_with_gemini (raw_output : option text) (pdf_path : text)
  : option value :=
  let pdf_filename := basename pdf_path in
  let expected := expected_anexo pdf_filename in
  match raw_output with
  | None => None
  | Some raw =>
      if negb (nonempty raw) || negb (nonempty (strip raw)) then None else
      let cleaned := clean_response raw in
      if negb (nonempty cleaned) || all_space cleaned then None else
      let third :=
        match scan_suffixes expected cleaned with
        | Some v => Some v
        | None =>
            match json_loads cleaned with
            | Some (VDict d) => Some (VDict (fix_anexo expected d))
            | Some _ => None
            | None => Some (fallback_json cleaned pdf_filename)
            end
        end in
      match search_braces cleaned with
      | Some span =>
          match json_loads (strip span) with
          | Some (VDict d) => Some (VDict (fix_anexo expected d))
          | Some _ => None
          | None => third
          end
      | None => third
      end
  end.

(** ** [try_repair_truncated_json] *)

Definition parcial : text := py " " ++ [dquote] ++ py "Parcial" ++ [dquote].

(** The repair proper: closing braces, the placeholder value, the trailing
    comma, in the order of the source. *)
Definition repair_text (cleaned : text) : text :=
  let open_braces := count "{" cleaned in
  let close_braces := count "}" cleaned in
  let c1 := if close_braces <? open_braces
            then cleaned ++ repeat "}"%char (open_braces - close_braces)
            else cleaned in
  let c2 := if re_search last_property_at c1 then c1 ++ parcial else c1 in
  if endswith (py ",") (rstrip c2)
  then rstrip_char "," (rstrip c2) ++ [newline; "}"%char]
  else c2.

(** Assigning to a key of a value that is not a [dict] raises, and the
    outer handler returns [None]. *)
Definition set_anexo (pdf_filename : text) (v : value) : option value :=
  match v with
  | VDict d => Some (VDict (dict_set k_anexo (VStr (expected_anexo pdf_filename)) d))
  | _ => None
  end.

Definition try_repair_truncated_json (current_pdf_path : option text)
  (raw_response : text) : option value :=
  let pdf_filename :=
    match current_pdf_path with
    | Some p => if nonempty p then basename p else py "documento.pdf"
    | None => py "documento.pdf"
    end in
  let cleaned := clean_response raw_response in
  match json_loads cleaned with
  | Some v => set_anexo pdf_filename v
  | None =>
      if negb (re_search json_start_at cleaned) then None else
      match json_loads (repair_text cleaned) with
      | Some v => set_anexo pdf_filename v
      | None => None
      end
  end.

End Extrator.

Import Extrator.


(* ================================================================== *)
(** * [repoSQL.py]: domain classes and [ContractParser] *)
(* ================================================================== *)

(** The outcome of a call: a value, or a raised exception. *)
Inductive result (E A : Type) :=
| Ok (a : A)
| Raise (e : E).
Arguments Ok {E A} a.
Arguments Raise {E A} e.

(** The domain classes.  Python does not check the annotations of the
    constructors, so a class is parametric in what its attributes hold:
    JSON values as [ContractParser.parse] builds them, a [str] or [None]
    as the repository writes them to text columns. *)
Module OrgaoContratante.
Record t (A : Type) := mk { razao_social : A; sigla : A; cnpj : A }.
End OrgaoContratante.

Module EmpresaContratada.
Record t (A : Type) := mk { razao_social : A; cnpj : A }.
End EmpresaContratada.

Module Item.
Record t (A : Type) := mk {
  descricao : A;
  especificacao : A;
  unidade_medida : A;
  quantidade : A;
  valor_unitario : A;
  valor_total : A;
  catmat_catser : A;
  tipo : A;
  locais_execucao_entrega : A }.
End Item.

Module Contrato.
Record t (A : Type) := mk {
  numero_contrato : A;
  tipo_instrumento : A;
  processo_administrativo : A;
  data_celebracao : A;
  fonte_preco : A;
  referencia_contrato : A;
  url_pdf_s3 : A;
  status_extracao : A;
  orgao_contratante : OrgaoContratante.t A;
  empresa_contratada : EmpresaContratada.t A;
  itens : list (Item.t A) }.

(** [contrato.itens = l] and [contrato.url_pdf_s3 = u] *)
Definition set_itens {A} (l : list (Item.t A)) (c : t A) : t A :=
  mk (numero_contrato c) (tipo_instrumento c) (processo_administrativo c)
     (data_celebracao c) (fonte_preco c) (referencia_contrato c)
     (url_pdf_s3 c) (status_extracao c) (orgao_contratante c)
     (empresa_contratada c) l.

Definition set_url_pdf_s3 {A} (u : A) (c : t A) : t A :=
  mk (numero_contrato c) (tipo_instrumento c) (processo_administrativo c)
     (data_celebracao c) (fonte_preco c) (referencia_contrato c)
     u (status_extracao c) (orgao_contratante c)
     (empresa_contratada c) (itens c).
End Contrato.

Module ContractParser.

Inductive exn := JSONDecodeError | AttributeError | TypeError.

Definition bind {A B} (m : result exn A) (f : A -> result exn B)
  : result exn B :=
  match m with
  | Ok a => f a
  | Raise e => Raise e
  end.

Notation "x <- m ;; k" := (bind m (fun x => k))
  (at level 61, m at next level, right associativity).

(** [v.get(k, default)]: only a [dict] has [get]. *)
Definition get (v : value) (k : string) (default : value) : result exn value :=
  match v with
  | VDict d => Ok (dict_get_default (py k) default d)
  | _ => Raise AttributeError
  end.

(** [a or b] *)
Definition py_or (a b : value) : value := if truthy a then a else b.

(** What a [for] loop over [v] visits: the elements of a list, the keys of
    a [dict], the characters of a [str]; nothing else can be iterated. *)
Definition iterate (v : value) : result exn (list value) :=
  match v with
  | VList l => Ok l
  | VDict d => Ok (map (fun kv => VStr (fst kv)) d)
  | VStr s => Ok (map (fun c => VStr [c]) s)
  | _ => Raise TypeError
  end.

Definition empty_str : value := VStr [].

Definition parse_item (item_data : value) : result exn (Item.t value) :=
  descricao <- get item_data "descricao" empty_str ;;
  especificacao <- get item_data "especificacao" VNone ;;
  unidade_medida <- get item_data "unidade_medida" VNone ;;
  quantidade <- get item_data "quantidade" VNone ;;
  valor_unitario <- get item_data "valor_unitario" VNone ;;
  valor_total <- get item_data "valor_total" VNone ;;
  catmat_catser <- get item_data "catmat_catser" VNone ;;
  tipo <- get item_data "tipo" (VStr (py "Material")) ;;
  locais_execucao_entrega <- get item_data "locais_execucao_entrega" VNone ;;
  Ok (Item.mk descricao especificacao unidade_medida quantidade
        valor_unitario valor_total catmat_catser tipo locais_execucao_entrega).

Fixpoint parse_items (l : list value) : result exn (list (Item.t value)) :=
  match l with
  | [] => Ok []
  | item_data :: rest =>
      item <- parse_item item_data ;;
      itens_list <- parse_items rest ;;
      Ok (item :: itens_list)
  end.

(** [ContractParser.parse], from the object [json.loads] returned. *)
Definition parse_data (data : value) : result exn (Contrato.t value) :=
  oc <- get data "orgao_contratante" VNone ;;
  let oc_data := py_or oc (VDict []) in
  oc_razao_social <- get oc_data "razao_social" empty_str ;;
  oc_sigla <- get oc_data "sigla" VNone ;;
  oc_cnpj <- get oc_data "cnpj" empty_str ;;
  let orgao_contratante :=
    OrgaoContratante.mk oc_razao_social oc_sigla oc_cnpj in
  ec <- get data "empresa_contratada" VNone ;;
  let ec_data := py_or ec (VDict []) in
  ec_razao_social <- get ec_data "razao_social" empty_str ;;
  ec_cnpj <- get ec_data "cnpj" empty_str ;;
  let empresa_contratada := EmpresaContratada.mk ec_razao_social ec_cnpj in
  itens_data <- get data "itens" (VList []) ;;
  item_datas <- iterate itens_data ;;
  itens_list <- parse_items item_datas ;;
  numero_contrato <- get data "numero_contrato" empty_str ;;
  tipo_instrumento <- get data "tipo_instrumento" (VStr (py "Contrato")) ;;
  processo_administrativo <- get data "processo_administrativo" VNone ;;
  data_celebracao <- get data "data_celebracao" VNone ;;
  fonte_preco <- get data "fonte_preco" (VStr (py "Contrato")) ;;
  referencia_contrato <- get data "referencia_contrato" VNone ;;
  url_pdf_s3 <- get data "url_pdf_s3" VNone ;;
  status_extracao <- get data "status_extracao" (VStr (py "Sucesso")) ;;
  Ok (Contrato.mk numero_contrato tipo_instrumento processo_administrativo
        data_celebracao fonte_preco referencia_contrato url_pdf_s3
        status_extracao orgao_contratante empresa_contratada itens_list).


End ContractParser.


(* ================================================================== *)
(** * The database behind a [psycopg2] connection *)
(* ================================================================== *)

(** What the repository passes as a query parameter or stores in a text
    column: a [str], or [None] (SQL [NULL]). *)
Definition attr := option text.

(** [x or ""] *)
Definition or_empty (x : attr) : text :=
  match x with Some s => s | None => [] end.

(** Truth value of a [str] or [None]. *)
Definition attr_truthy (x : attr) : bool :=
  match x with Some s => nonempty s | None => false end.

(** How an f-string prints a [str] or [None]. *)
Definition fmt (x : attr) : text :=
  match x with Some s => s | None => py "None" end.

Module Date.

Record date := mk { day : nat; month : nat; year : nat }.

Definition digit (c : ascii) : nat := nat_of_ascii c - 48.

Definition digits2 (a b : ascii) : option nat :=
  if isdigit a && isdigit b then Some (10 * digit a + digit b) else None.

Definition in_range (lo hi : nat) (n : option nat) : option nat :=
  match n with
  | Some k => if (lo <=? k) && (k <=? hi) then Some k else None
  | None => None
  end.

(** [%d]: 01 to 31, or one digit 1 to 9, alone or after a space. *)
Definition parse_day (s : text) : option nat :=
  match s with
  | [a] => in_range 1 9 (digits2 "0" a)
  | [a; b] => if Ascii.eqb a " " then in_range 1 9 (digits2 "0" b)
              else in_range 1 31 (digits2 a b)
  | _ => None
  end.

(** [%m]: 01 to 12, or one digit 1 to 9. *)
Definition parse_month (s : text) : option nat :=
  match s with
  | [a] => in_range 1 9 (digits2 "0" a)
  | [a; b] => in_range 1 12 (digits2 a b)
  | _ => None
  end.

(** [%Y]: four digits. *)
Definition parse_year (s : text) : option nat :=
  match s with
  | [a; b; c; d] =>
      match digits2 a b, digits2 c d with
      | Some h, Some l => Some (100 * h + l)
      | _, _ => None
      end
  | _ => None
  end.

Definition is_leap (y : nat) : bool :=
  ((y mod 4 =? 0) && negb (y mod 100 =? 0)) || (y mod 400 =? 0).

Definition days_in_month (y m : nat) : nat :=
  match m with
  | 2 => if is_leap y then 29 else 28
  | 4 | 6 | 9 | 11 => 30
  | _ => 31
  end.

(** The text before the first slash, and the text after it. *)
Fixpoint split_slash (s : text) : option (text * text) :=
  match s with
  | [] => None
  | c :: r =>
      if Ascii.eqb c "/" then Some ([], r)
      else match split_slash r with
           | Some (a, b) => Some (c :: a, b)
           | None => None
           end
  end.

(** [datetime.strptime(s, "%d/%m/%Y").date()]; [None] stands for
    [ValueError]. *)
Definition strptime_dmy (s : text) : option date :=
  match split_slash s with
  | Some (d, r) =>
      match split_slash r with
      | Some (m, y) =>
          match parse_day d, parse_month m, parse_year y with
          | Some dd, Some mm, Some yy =>
              if (1 <=? yy) && (dd <=? days_in_month yy mm)
              then Some (mk dd mm yy) else None
          | _, _, _ => None
          end
      | None => None
      end
  | None => None
  end.

End Date.

(** The rows of the tables of schema [precos]. *)
Record OrgaoRow := mkOrgaoRow {
  o_id : nat; o_razao_social : attr; o_sigla : attr; o_cnpj : attr }.

Record EmpresaRow := mkEmpresaRow {
  e_id : nat; e_razao_social : attr; e_cnpj : attr }.

Record ContratoRow := mkContratoRow {
  c_id : nat;
  c_numero_contrato : attr;
  c_tipo_instrumento : attr;
  c_processo_administrativo : attr;
  c_data_celebracao : option Date.date;
  c_fonte_preco : attr;
  c_referencia_contrato : attr;
  c_url_pdf_s3 : attr;
  c_status_extracao : attr;
  c_orgao_contratante_id : nat;
  c_empresa_contratada_id : nat }.

Record ItemRow := mkItemRow {
  i_contrato_id : nat;
  i_descricao : attr;
  i_especificacao : attr;
  i_unidade_medida : attr;
  i_quantidade : attr;
  i_valor_unitario : attr;
  i_valor_total : attr;
  i_catmat_catser : attr;
  i_tipo : attr;
  i_locais_execucao_entrega : attr }.

(** A row of [log_extrator]; [data_registro] is the server's clock and is
    left out. *)
Record LogRow := mkLogRow {
  l_cnpj_orgao : attr;
  l_cnpj_empresa : attr;
  l_numero_contrato : attr;
  l_data_contrato : option Date.date;
  l_quantidade_itens : nat;
  l_status_execucao : text;
  l_mensagem_log : text }.

Record Database := mkDatabase {
  orgao_contratante : list OrgaoRow;
  empresa_contratada : list EmpresaRow;
  contratos : list ContratoRow;
  itens : list ItemRow;
  catmat : list text;                 (* column codigo_item *)
  catser : list text;                 (* column codigo_material_servico *)
  log_extrator : list LogRow }.

(** A connection: the tables as its statements see them, the tables as
    last committed, the autocommit switch, the sequences that number new
    rows (a sequence is not rolled back), and what the server will answer
    to the coming statements: [Some msg] refuses the statement with the
    error [msg], [None] (or an exhausted list) accepts it. *)
Record Conn := mkConn {
  visible : Database;
  committed : Database;
  autocommit : bool;
  seq_orgao : nat;
  seq_empresa : nat;
  seq_contrato : nat;
  faults : list (option text) }.

(** [col = %s] in a [WHERE] clause: never true on [NULL]. *)
Definition sql_eq (col param : attr) : bool :=
  match col, param with
  | Some a, Some b => text_eqb a b
  | _, _ => false
  end.

(** Computations on a connection that may raise; the connection survives
    the exception.  The error carries [str(e)]. *)
Module DB.

Definition M (A : Type) := Conn -> result text A * Conn.

Definition ret {A} (a : A) : M A := fun c => (Ok a, c).

Definition bind {A B} (m : M A) (f : A -> M B) : M B :=
  fun c => match m c with
           | (Ok a, c') => f a c'
           | (Raise e, c') => (Raise e, c')
           end.

(** [try: m  except Exception as e: handler(e)] *)
Definition try_except {A} (m : M A) (handler : text -> M A) : M A :=
  fun c => match m c with
           | (Ok a, c') => (Ok a, c')
           | (Raise e, c') => handler e c'
           end.

Definition with_visible (f : Database -> Database) (c : Conn) : Conn :=
  mkConn (f (visible c)) (if autocommit c then f (visible c) else committed c)
         (autocommit c) (seq_orgao c) (seq_empresa c) (seq_contrato c)
         (faults c).

(** [cur.execute]: the server answers the statement. *)
Definition execute : M unit :=
  fun c => match faults c with
           | [] => (Ok tt, c)
           | answer :: rest =>
               let c' := mkConn (visible c) (committed c) (autocommit c)
                           (seq_orgao c) (seq_empresa c) (seq_contrato c) rest in
               match answer with
               | Some msg => (Raise msg, c')
               | None => (Ok tt, c')
               end
           end.

(** A [SELECT]: reads the visible tables. *)
Definition select {A} (f : Database -> A) : M A :=
  bind execute (fun _ c => (Ok (f (visible c)), c)).

(** An [INSERT]: changes the visible tables, and the committed ones at once
    under autocommit. *)
Definition insert (f : Database -> Database) : M unit :=
  bind execute (fun _ c => (Ok tt, with_visible f c)).

(** [conn.commit()] *)
Definition commit : M unit :=
  bind execute (fun _ c =>
    (Ok tt, mkConn (visible c) (visible c) (autocommit c)
              (seq_orgao c) (seq_empresa c) (seq_contrato c) (faults c))).

(** [conn.rollback()], taken to succeed; [FailingConnection] below lets it
    raise. *)
Definition rollback : M unit :=
  fun c => (Ok tt, mkConn (committed c) (committed c) (autocommit c)
                     (seq_orgao c) (seq_empresa c) (seq_contrato c) (faults c)).

(** [conn.autocommit = b], taken to succeed as well. *)
Definition set_autocommit (b : bool) : M unit :=
  fun c => (Ok tt, mkConn (visible c) (committed c) b
                     (seq_orgao c) (seq_empresa c) (seq_contrato c) (faults c)).

End DB.

(* ================================================================== *)
(** * [repoSQL.py]: [ContractRepository] *)
(* ================================================================== *)

Module ContractRepository.

Import DB.

Notation "x <- m ;; k" := (bind m (fun x => k))
  (at level 61, m at next level, right associativity).
Notation "m ;;; k" := (bind m (fun _ => k))
  (at level 61, right associativity).

Definition Contrato := Contrato.t attr.
Definition Item := Item.t attr.

Definition with_seq_orgao (n : nat) (c : Conn) : Conn :=
  mkConn (visible c) (committed c) (autocommit c) n (seq_empresa c)
         (seq_contrato c) (faults c).
Definition with_seq_empresa (n : nat) (c : Conn) : Conn :=
  mkConn (visible c) (committed c) (autocommit c) (seq_orgao c) n
         (seq_contrato c) (faults c).
Definition with_seq_contrato (n : nat) (c : Conn) : Conn :=
  mkConn (visible c) (committed c) (autocommit c) (seq_orgao c)
         (seq_empresa c) n (faults c).

(** The default of an [id] column: the next value of its sequence. *)
Definition nextval_orgao : M nat :=
  fun c => (Ok (seq_orgao c), with_seq_orgao (S (seq_orgao c)) c).
Definition nextval_empresa : M nat :=
  fun c => (Ok (seq_empresa c), with_seq_empresa (S (seq_empresa c)) c).
Definition nextval_contrato : M nat :=
  fun c => (Ok (seq_contrato c), with_seq_contrato (S (seq_contrato c)) c).

Definition add_orgao (r : OrgaoRow) (d : Database) : Database :=
  mkDatabase (orgao_contratante d ++ [r]) (empresa_contratada d) (contratos d)
             (itens d) (catmat d) (catser d) (log_extrator d).
Definition add_empresa (r : EmpresaRow) (d : Database) : Database :=
  mkDatabase (orgao_contratante d) (empresa_contratada d ++ [r]) (contratos d)
             (itens d) (catmat d) (catser d) (log_extrator d).
Definition add_contrato (r : ContratoRow) (d : Database) : Database :=
  mkDatabase (orgao_contratante d) (empresa_contratada d) (contratos d ++ [r])
             (itens d) (catmat d) (catser d) (log_extrator d).
Definition add_item (r : ItemRow) (d : Database) : Database :=
  mkDatabase (orgao_contratante d) (empresa_contratada d) (contratos d)
             (itens d ++ [r]) (catmat d) (catser d) (log_extrator d).
Definition add_log (r : LogRow) (d : Database) : Database :=
  mkDatabase (orgao_contratante d) (empresa_contratada d) (contratos d)
             (itens d) (catmat d) (catser d) (log_extrator d ++ [r]).

(** [SELECT id ... WHERE cnpj = %s LIMIT 1] then [row[0] if row else None] *)
Definition get_orgao_contratante_by_cnpj (cnpj : attr) : M (option nat) :=
  select (fun d => option_map o_id
            (find (fun r => sql_eq (o_cnpj r) cnpj) (orgao_contratante d))).

Definition get_empresa_contratada_by_cnpj (cnpj : attr) : M (option nat) :=
  select (fun d => option_map e_id
            (find (fun r => sql_eq (e_cnpj r) cnpj) (empresa_contratada d))).

Definition insert_orgao_contratante (orgao : OrgaoContratante.t attr) : M nat :=
  existing_id <- get_orgao_contratante_by_cnpj (OrgaoContratante.cnpj orgao) ;;
  match existing_id with
  | Some id => ret id
  | None =>
      execute ;;;
      new_id <- nextval_orgao ;;
      (fun c => (Ok tt, with_visible
         (add_orgao (mkOrgaoRow new_id (OrgaoContratante.razao_social orgao)
                       (OrgaoContratante.sigla orgao)
                       (OrgaoContratante.cnpj orgao))) c)) ;;;
      ret new_id
  end.

Definition insert_empresa_contratada (empresa : EmpresaContratada.t attr)
  : M nat :=
  existing_id <- get_empresa_contratada_by_cnpj (EmpresaContratada.cnpj empresa) ;;
  match existing_id with
  | Some id => ret id
  | None =>
      execute ;;;
      new_id <- nextval_empresa ;;
      (fun c => (Ok tt, with_visible
         (add_empresa (mkEmpresaRow new_id
                         (EmpresaContratada.razao_social empresa)
                         (EmpresaContratada.cnpj empresa))) c)) ;;;
      ret new_id
  end.

(** [WHERE numero_contrato = %s AND url_pdf_s3 = %s LIMIT 1] *)
Definition same_contract (numero_contrato url_pdf_s3 : attr) (r : ContratoRow)
  : bool :=
  sql_eq (c_numero_contrato r) numero_contrato
  && sql_eq (c_url_pdf_s3 r) url_pdf_s3.

Definition get_contrato_by_numero_urlpdf (numero_contrato url_pdf_s3 : attr)
  : M (option nat) :=
  select (fun d => option_map c_id
            (find (same_contract numero_contrato url_pdf_s3) (contratos d))).

(** The date as both [insert_contrato] and [persist_contract] compute it. *)
Definition date_sql (data_celebracao : attr) : option Date.date :=
  match data_celebracao with
  | Some s => if nonempty s then Date.strptime_dmy s else None
  | None => None
  end.

Definition insert_contrato (contrato : Contrato) (orgao_id empresa_id : nat)
  : M nat :=
  existing_id <- get_contrato_by_numero_urlpdf
                   (Contrato.numero_contrato contrato)
                   (Contrato.url_pdf_s3 contrato) ;;
  match existing_id with
  | Some id => ret id
  | None =>
      let data_celebracao_sql := date_sql (Contrato.data_celebracao contrato) in
      execute ;;;
      new_id <- nextval_contrato ;;
      (fun c => (Ok tt, with_visible
         (add_contrato
            (mkContratoRow new_id
               (Contrato.numero_contrato contrato)
               (Contrato.tipo_instrumento contrato)
               (Contrato.processo_administrativo contrato)
               data_celebracao_sql
               (Contrato.fonte_preco contrato)
               (Contrato.referencia_contrato contrato)
               (Contrato.url_pdf_s3 contrato)
               (Contrato.status_extracao contrato)
               orgao_id empresa_id)) c)) ;;;
      ret new_id
  end.

Definition in_table (code : text) (table : list text) : bool :=
  existsb (text_eqb code) table.

Definition is_valid_catmat_catser (code : attr) : M bool :=
  if negb (attr_truthy code) then ret false else
  row <- select (fun d => in_table (or_empty code) (catmat d)) ;;
  if row then ret true else
  row <- select (fun d => in_table (or_empty code) (catser d)) ;;
  if row then ret true else
  ret false.

Definition item_row (item : Item) (contrato_id : nat) : ItemRow :=
  mkItemRow contrato_id (Item.descricao item) (Item.especificacao item)
    (Item.unidade_medida item) (Item.quantidade item)
    (Item.valor_unitario item) (Item.valor_total item)
    (Item.catmat_catser item) (Item.tipo item)
    (Item.locais_execucao_entrega item).

Definition insert_item (item : Item) (contrato_id : nat) : M unit :=
  insert (add_item (item_row item contrato_id)).

Definition insert_log_extrator (cnpj_orgao cnpj_empresa numero_contrato : attr)
  (data_contrato : option Date.date) (quantidade_itens : nat)
  (status_execucao mensagem_log : text) : M unit :=
  insert (add_log (mkLogRow cnpj_orgao cnpj_empresa numero_contrato
                     data_contrato quantidade_itens status_execucao
                     mensagem_log)).

(** The first loop of [persist_contract] and of [generate_sql_script]:
    the items whose code is valid, in order. *)
Fixpoint filter_valid (l : list Item) : M (list Item) :=
  match l with
  | [] => ret []
  | item :: rest =>
      ok <- is_valid_catmat_catser (Item.catmat_catser item) ;;
      valid_items <- filter_valid rest ;;
      ret (if ok then item :: valid_items else valid_items)
  end.

Fixpoint insert_items (l : list Item) (contrato_id : nat) : M unit :=
  match l with
  | [] => ret tt
  | item :: rest => insert_item item contrato_id ;;; insert_items rest contrato_id
  end.

(** The body of the [try] block of [persist_contract]. *)
Definition insert_sequence (contrato : Contrato) : M unit :=
  set_autocommit false ;;;
  orgao_id <- insert_orgao_contratante (Contrato.orgao_contratante contrato) ;;
  empresa_id <- insert_empresa_contratada (Contrato.empresa_contratada contrato) ;;
  contrato_id <- insert_contrato contrato orgao_id empresa_id ;;
  insert_items (Contrato.itens contrato) contrato_id ;;;
  commit.

Definition sucesso : text := py "Sucesso".
Definition falha : text := py "Falha".

(** [persist_contract] up to the point where the log row is written: the
    contract object as the call leaves it, and the row to be logged. *)
Definition persist_until_log (contrato : Contrato) : M (Contrato * LogRow) :=
  let data_contrato_sql := date_sql (Contrato.data_celebracao contrato) in
  valid_items <- filter_valid (Contrato.itens contrato) ;;
  let contrato := Contrato.set_itens valid_items contrato in
  let qtd_itens := length valid_items in
  log <- try_except
           (insert_sequence contrato ;;;
            ret (sucesso, py "Contrato processado com sucesso."))
           (fun e =>
              rollback ;;;
              ret (falha, py "Erro ao processar contrato: " ++ e)) ;;
  set_autocommit true ;;;
  ret (contrato,
       mkLogRow (OrgaoContratante.cnpj (Contrato.orgao_contratante contrato))
                (EmpresaContratada.cnpj (Contrato.empresa_contratada contrato))
                (Contrato.numero_contrato contrato)
                data_contrato_sql qtd_itens (fst log) (snd log)).

(** [persist_contract]: returns the state of the contract object the caller
    passed, which the call changes in place. *)
Definition persist_contract (contrato : Contrato) : M Contrato :=
  r <- persist_until_log contrato ;;
  let '(contrato, row) := r in
  try_except
    (insert_log_extrator (l_cnpj_orgao row) (l_cnpj_empresa row)
       (l_numero_contrato row) (l_data_contrato row)
       (l_quantidade_itens row) (l_status_execucao row)
       (l_mensagem_log row))
    (fun _ => ret tt) ;;;
  ret contrato.

End ContractRepository.

(* ================================================================== *)
(** * [repoSQL.py]: [generate_sql_script] *)
(* ================================================================== *)

Module SqlScript.

Import DB ContractRepository.

Definition Contrato := Contrato.t attr.
Definition Item := Item.t attr.

(** [(x or "").replace("'", "''")] and [(x or "").replace("'", "")] *)
Definition esc (x : attr) : text :=
  replace [squote] [squote; squote] (or_empty x).
Definition unquote (x : attr) : text := replace [squote] [] (or_empty x).

(** [re.match(r'^\d{2}/\d{2}/\d{4}$', s)]; the dollar also matches before a
    final line feed. *)
Definition date_shape (s : text) : bool :=
  match s with
  | d1 :: d2 :: s1 :: m1 :: m2 :: s2 :: y1 :: y2 :: y3 :: y4 :: rest =>
      isdigit d1 && isdigit d2 && Ascii.eqb s1 "/"
      && isdigit m1 && isdigit m2 && Ascii.eqb s2 "/"
      && isdigit y1 && isdigit y2 && isdigit y3 && isdigit y4
      && match rest with
         | [] => true
         | [c] => Ascii.eqb c newline
         | _ => false
         end
  | _ => false
  end.

Definition no_valid_items_comment (filename : text) : text :=
  py "-- Contrato de " ++ filename ++ py " não possui itens válidos. Nenhuma ação realizada.".

Definition already_exists_comment (url_pdf_s3 : text) (existing_id : nat)
  : text :=
  py "-- Contrato com URL do PDF '" ++ url_pdf_s3 ++ py "' já existe no banco de dados (ID=" ++ str_of_nat existing_id ++ py "). Nenhuma ação realizada.".

Definition orgao_block (orgao_razao orgao_sigla orgao_cnpj : text) : text :=
  py "-- Inserindo Orgao Contratante
INSERT INTO precos.orgao_contratante (razao_social, sigla, cnpj)
VALUES ('" ++ orgao_razao ++ py "', '" ++ orgao_sigla ++ py "', '" ++ orgao_cnpj ++ py "')
ON CONFLICT (cnpj) DO NOTHING; 
".

Definition empresa_block (emp_razao emp_cnpj : text) : text :=
  py "-- Inserindo Empresa Contratada
INSERT INTO precos.empresa_contratada (razao_social, cnpj)
VALUES ('" ++ emp_razao ++ py "', '" ++ emp_cnpj ++ py "')
ON CONFLICT (cnpj) DO NOTHING;
".

Definition contrato_block (numero_contrato tipo_instrumento processo_adm
  data_sql fonte_preco ref_contrato url_pdf_s3_value status orgao_cnpj
  emp_cnpj : text) : text :=
  py "-- Inserir contrato (se não existir) e obter ID
WITH contrato_upsert AS (
    INSERT INTO precos.contratos (
        numero_contrato,
        tipo_instrumento,
        processo_administrativo,
        data_celebracao,
        fonte_preco,
        referencia_contrato,
        url_pdf_s3,
        status_extracao,
        orgao_contratante_id,
        empresa_contratada_id
    )
    SELECT 
        '" ++ numero_contrato ++ py "',
        '" ++ tipo_instrumento ++ py "',
        '" ++ processo_adm ++ py "',
        " ++ data_sql ++ py ",
        '" ++ fonte_preco ++ py "',
        '" ++ ref_contrato ++ py "',
        '" ++ url_pdf_s3_value ++ py "',
        '" ++ status ++ py "',
        (SELECT id FROM precos.orgao_contratante WHERE cnpj = '" ++ orgao_cnpj ++ py "' LIMIT 1),
        (SELECT id FROM precos.empresa_contratada WHERE cnpj = '" ++ emp_cnpj ++ py "' LIMIT 1)
    WHERE 
        NOT EXISTS (
            SELECT 1 
            FROM precos.contratos 
            WHERE url_pdf_s3 = '" ++ url_pdf_s3_value ++ py "'
        )
    RETURNING id
)".

Definition contrato_id_block (url_pdf_s3_value : text) : text :=
  py ", contrato_id AS (
    SELECT id FROM contrato_upsert
    UNION ALL
    SELECT id FROM precos.contratos 
    WHERE url_pdf_s3 = '" ++ url_pdf_s3_value ++ py "'
      AND NOT EXISTS (SELECT 1 FROM contrato_upsert)
    LIMIT 1
)".

Definition itens_header : text :=
  py "-- Inserir itens
INSERT INTO precos.itens (
    contrato_id,
    descricao,
    especificacao,
    unidade_medida,
    quantidade,
    valor_unitario,
    valor_total,
    catmat_catser,
    tipo,
    locais_execucao_entrega
)".

Definition item_block (desc espec um qtd val_unit val_total catmat tipo
  locais : text) : text :=
  py "
    id,
    '" ++ desc ++ py "',
    '" ++ espec ++ py "',
    '" ++ um ++ py "',
    '" ++ qtd ++ py "',
    '" ++ val_unit ++ py "',
    '" ++ val_total ++ py "',
    '" ++ catmat ++ py "',
    '" ++ tipo ++ py "',
    '" ++ locais ++ py "'
FROM contrato_id".

(** The lines the loop over the valid items appends. *)
Fixpoint item_lines (first_item : bool) (valid_items : list Item)
  : list text :=
  match valid_items with
  | [] => []
  | item :: rest =>
      let desc := esc (Item.descricao item) in
      let espec := esc (Item.especificacao item) in
      let um := esc (Item.unidade_medida item) in
      let qtd := unquote (Item.quantidade item) in
      let val_unit := unquote (Item.valor_unitario item) in
      let val_total := unquote (Item.valor_total item) in
      let catmat := unquote (Item.catmat_catser item) in
      let tipo := esc (Item.tipo item) in
      let locais := esc (Item.locais_execucao_entrega item) in
      (if first_item then py "SELECT" else py "UNION ALL
SELECT")
      :: item_block desc espec um qtd val_unit val_total catmat tipo locais
      :: item_lines false rest
  end.

(** Step 4 of the source: the script, once the contract carries its URL. *)
Definition build_script (contrato : Contrato) (valid_items : list Item)
  : text :=
  let orgao := Contrato.orgao_contratante contrato in
  let orgao_cnpj := fmt (OrgaoContratante.cnpj orgao) in
  let orgao_razao := esc (OrgaoContratante.razao_social orgao) in
  let orgao_sigla := esc (OrgaoContratante.sigla orgao) in
  let empresa := Contrato.empresa_contratada contrato in
  let emp_cnpj := fmt (EmpresaContratada.cnpj empresa) in
  let emp_razao := esc (EmpresaContratada.razao_social empresa) in
  let data_sql :=
    if attr_truthy (Contrato.data_celebracao contrato)
       && date_shape (or_empty (Contrato.data_celebracao contrato))
    then py "TO_DATE('" ++ or_empty (Contrato.data_celebracao contrato)
         ++ py "', 'DD/MM/YYYY')"
    else py "NULL" in
  let numero_contrato := esc (Contrato.numero_contrato contrato) in
  let tipo_instrumento := esc (Contrato.tipo_instrumento contrato) in
  let processo_adm := esc (Contrato.processo_administrativo contrato) in
  let fonte_preco := esc (Contrato.fonte_preco contrato) in
  let ref_contrato := esc (Contrato.referencia_contrato contrato) in
  let url_pdf_s3_value := esc (Contrato.url_pdf_s3 contrato) in
  let status := esc (Contrato.status_extracao contrato) in
  join [newline]
    ([ orgao_block orgao_razao orgao_sigla orgao_cnpj;
       empresa_block emp_razao emp_cnpj;
       contrato_block numero_contrato tipo_instrumento processo_adm data_sql
         fonte_preco ref_contrato url_pdf_s3_value status orgao_cnpj emp_cnpj;
       contrato_id_block url_pdf_s3_value;
       itens_header ]
     ++ item_lines true valid_items
     ++ [ py ";" ]).

(** The file name the URL is built from: [.pdf] is appended unless the
    name already ends with it, whatever the case of the letters. *)
Definition pdf_filename_of (filename : text) : text :=
  if negb (endswith (py ".pdf") (lower filename))
  then filename ++ py ".pdf" else filename.

Definition url_of (filename : text) : text :=
  py "s3://compras-ia-np/Contratos/" ++ pdf_filename_of filename.

(** The loop of step 3: as [filter_valid], without the log line. *)
Definition valid_items_of (l : list Item) : M (list Item) := filter_valid l.

(** [SELECT id FROM precos.contratos WHERE url_pdf_s3 = %s LIMIT 1] *)
Definition existing_contract_of (url_pdf_s3 : text) : M (option nat) :=
  select (fun d => option_map c_id
            (find (fun r => sql_eq (c_url_pdf_s3 r) (Some url_pdf_s3))
                  (contratos d))).

(** [generate_sql_script], run on the connection it opens for itself (and
    closes before returning): the script, and the state of the contract
    object the caller passed. *)
Definition generate_sql_script (contrato : Contrato) (filename : text)
  : M (text * Contrato) :=
  valid_items <- valid_items_of (Contrato.itens contrato) ;;
  match valid_items with
  | [] => ret (no_valid_items_comment filename, contrato)
  | _ :: _ =>
      let url_pdf_s3 := url_of filename in
      existing_contract <- existing_contract_of url_pdf_s3 ;;
      match existing_contract with
      | Some existing_id =>
          ret (already_exists_comment url_pdf_s3 existing_id, contrato)
      | None =>
          let contrato := Contrato.set_url_pdf_s3 (Some url_pdf_s3) contrato in
          ret (build_script contrato valid_items, contrato)
      end
  end.

End SqlScript.

(* ================================================================== *)
(** * [extrator2.py]: [validate_json_structure] *)
(* ================================================================== *)

Module Validate.

Inductive exn := TypeError | KeyError.

Definition bind {A B} (m : result exn A) (f : A -> result exn B)
  : result exn B :=
  match m with
  | Ok a => f a
  | Raise e => Raise e
  end.

Notation "x <- m ;; k" := (bind m (fun x => k))
  (at level 61, m at next level, right associativity).

(** [k in v] for a [str] [k]: a key of a [dict], an element of a [list], a
    part of a [str]; nothing else is a container. *)
Definition contains (k : text) (v : value) : result exn bool :=
  match v with
  | VDict d => Ok (match dict_get k d with Some _ => true | None => false end)
  | VList l =>
      Ok (existsb (fun e => match e with
                            | VStr s => text_eqb k s
                            | _ => false
                            end) l)
  | VStr s => Ok (re_search (startswith k) s)
  | _ => Raise TypeError
  end.

(** [v[k]] for a [str] [k]: only a [dict] is indexed by a string. *)
Definition subscript (v : value) (k : text) : result exn value :=
  match v with
  | VDict d => match dict_get k d with
               | Some x => Ok x
               | None => Raise KeyError
               end
  | _ => Raise TypeError
  end.

(** [[key for key in keys if key not in v]] *)
Fixpoint missing_in (keys : list text) (v : value) : result exn (list text) :=
  match keys with
  | [] => Ok []
  | key :: rest =>
      present <- contains key v ;;
      missing <- missing_in rest v ;;
      Ok (if present then missing else key :: missing)
  end.

Definition expected_keys : list text :=
  [ py "numero_contrato"; py "tipo_instrumento"; py "processo_administrativo";
    py "data_celebracao"; py "orgao_contratante"; py "empresa_contratada";
    py "itens"; py "fonte_preco"; py "referencia_contrato";
    py "anexo_contrato"; py "status_extracao" ].

Definition orgao_keys : list text := [ py "razao_social"; py "sigla"; py "cnpj" ].

Definition empresa_keys : list text := [ py "razao_social"; py "cnpj" ].

Definition item_keys : list text :=
  [ py "descricao"; py "especificacao"; py "unidade_medida"; py "quantidade";
    py "valor_unitario"; py "valor_total"; py "catmat_catser"; py "tipo";
    py "locais_execucao_entrega" ].

(** The two marks of the messages lie outside the character model; they
    stand as the bytes of their UTF-8 form. *)
Definition ok_message : text := py "✅ JSON retornado está no formato correto!".

(** [if missing: msg_parts.append(f"{label}{', '.join(missing)}")] *)
Definition msg_part (label : text) (missing : list text) : list text :=
  match missing with
  | [] => []
  | _ :: _ => [label ++ join (py ", ") missing]
  end.

Definition warning (missing_keys missing_orgao missing_empresa missing_item
  : list text) : text :=
  py "AVISO: Formato do JSON retornado não está completo:" ++ [newline]
  ++ join [newline]
       (msg_part (py "❌ Campos principais ausentes: ") missing_keys
        ++ msg_part (py "❌ Campos ausentes em 'orgao_contratante': ")
             missing_orgao
        ++ msg_part (py "❌ Campos ausentes em 'empresa_contratada': ")
             missing_empresa
        ++ msg_part (py "❌ Campos ausentes nos itens: ") missing_item).

(** The sub-object under [key], checked for [keys]; all of [keys] are
    missing when [key] itself is. *)
Definition missing_under (key : text) (keys : list text) (json_data : value)
  : result exn (list text) :=
  present <- contains key json_data ;;
  if present then
    sub <- subscript json_data key ;;
    missing_in keys sub
  else Ok keys.

(** Only the first element of a non-empty [itens] list is looked at. *)
Definition missing_in_first_item (json_data : value) : result exn (list text) :=
  present <- contains (py "itens") json_data ;;
  if present then
    itens <- subscript json_data (py "itens") ;;
    match itens with
    | VList (first :: _) => missing_in item_keys first
    | _ => Ok []
    end
  else Ok [].

Definition validate_json_structure (json_data : value) : result exn text :=
  missing_keys <- missing_in expected_keys json_data ;;
  missing_orgao <- missing_under (py "orgao_contratante") orgao_keys json_data ;;
  missing_empresa <-
    missing_under (py "empresa_contratada") empresa_keys json_data ;;
  missing_item <- missing_in_first_item json_data ;;
  match missing_keys, missing_orgao, missing_empresa, missing_item with
  | [], [], [], [] => Ok ok_message
  | _, _, _, _ =>
      Ok (warning missing_keys missing_orgao missing_empresa missing_item)
  end.

End Validate.

(* ================================================================== *)
(** * [extrator2.py]: running a generated script *)
(* ================================================================== *)

(** [execute_sql_script] sends the script and, when the server refuses it
    as a whole, cuts it into commands that are sent one by one.  What a
    statement does to the tables is not interpreted: the answers of the
    server decide, as they do for the repository.  Closing the connection
    is taken to succeed. *)
Module SqlRunner.

Import DB ContractRepository.

(** [re.split(r";(?=(?:[^']*'[^']*')*[^']*$)", sql_script)]: the look-ahead
    holds exactly where an even number of apostrophes follows, so the text
    is cut at every semicolon with an even number of apostrophes after
    it. *)
Fixpoint split_commands (sql_script : text) : list text :=
  match sql_script with
  | [] => [[]]
  | c :: r =>
      if Ascii.eqb c ";" && Nat.even (count squote r)
      then [] :: split_commands r
      else match split_commands r with
           | piece :: pieces => (c :: piece) :: pieces
           | [] => [[c]]
           end
  end.

Definition raise {A} (e : text) : M A := fun c => (Raise e, c).

(** The loop over the pieces: a piece that is not blank is sent on its own;
    a refusal is counted and the loop goes on. *)
Fixpoint run_commands (sql_commands : list text)
  (success_count error_count : nat) : M (nat * nat) :=
  match sql_commands with
  | [] => ret (success_count, error_count)
  | command :: rest =>
      let cmd := strip command in
      if nonempty cmd then
        accepted <- try_except (execute ;;; ret true) (fun _ => ret false) ;;
        if accepted
        then run_commands rest (S success_count) error_count
        else run_commands rest success_count (S error_count)
      else run_commands rest success_count error_count
  end.

Definition all_failed (error_count : nat) : text :=
  py "Todos os " ++ str_of_nat error_count ++ py " comandos falharam".

(** From [cursor.execute(sql_script)] to [connection.commit()]. *)
Definition run_script (sql_script : text) : M unit :=
  try_except execute
    (fun _ =>
       rollback ;;;
       counts <- run_commands (split_commands sql_script) 0 0 ;;
       if fst counts =? 0 then raise (all_failed (snd counts)) else ret tt) ;;;
  commit.

(** [execute_sql_script], once the file is read and the connection made:
    what it returns, and the connection as it leaves it. *)
Definition execute_sql_script (sql_script : text) (connection : Conn)
  : (bool * text) * Conn :=
  match run_script sql_script connection with
  | (Ok _, c) => ((true, py "SQL executado com sucesso"), c)
  | (Raise e, c) => ((false, e), snd (rollback c))
  end.

End SqlRunner.

Import SqlRunner.

(* ================================================================== *)
(** * Sample inputs *)
(* ================================================================== *)

Module Samples.

Import ContractRepository SqlScript.

(** A truncated answer that stops just after a key. *)
Definition dangling_key : text := q "{'a':1,'b':".


(** A well-formed object whose string holds a fence marker. *)
Definition fence_inside : text := q "{'a':'```'}".


Definition no_tables : Database := mkDatabase [] [] [] [] [] [] [].

(** A database whose catalogue of materials knows the code A1. *)
Definition catalogue : Database :=
  mkDatabase [] [] [] [] [py "A1"] [py "S9"] [].

Definition connect (d : Database) (answers : list (option text)) : Conn :=
  mkConn d d true 1 1 1 answers.

Definition item (code : attr) : Item :=
  Item.mk (Some (py "x")) None None (Some (py "2")) None None code
          (Some (py "Material")) None.

Definition contract (url : attr) (items : list Item) : Contrato :=
  Contrato.mk (Some (py "123")) (Some (py "Contrato")) None
    (Some (py "01/02/2024")) (Some (py "Contrato")) None url
    (Some (py "Sucesso"))
    (OrgaoContratante.mk (Some (py "Orgao")) None (Some (py "1")))
    (EmpresaContratada.mk (Some (py "Empresa")) (Some (py "2")))
    items.

(** A contract with a valid and an invalid item, and what is left of it. *)
Definition two_items : Contrato :=
  contract None [item (Some (py "A1")); item (Some (py "ZZ"))].
Definition one_item : Contrato := contract None [item (Some (py "A1"))].




(** A contract that arrives with a URL of the model's own and no item. *)
Definition foreign_url : Contrato :=
  contract (Some (py "s3://elsewhere/said-the-model.pdf")) [].

(** An object with a null organisation, no company and one item. *)
Definition sparse_object : text :=
  q "{'numero_contrato':'123','orgao_contratante':null,'itens':[{'descricao':'x'}]}".

(** A file name with a line break in it. *)
Definition two_line_name : text :=
  py "a" ++ [newline] ++ py "INSERT INTO precos.itens DEFAULT VALUES;.pdf".

End Samples.

(* ================================================================== *)
(** * More sample inputs *)
(* ================================================================== *)

Module Cases.

Import ContractRepository SqlScript.

(** An answer without a fence, with white space around it. *)
Definition padded_object : text := q "  {'a': 1}  ".

(** An object with prose before and after it. *)
Definition prose_before : text := py "Here is the contract: ".
Definition object_body : text := q "'numero_contrato': '12/2024'".
Definition prose_after : text := py " I hope this helps.".

(** An answer cut before the last closing brace. *)
Definition missing_brace : text := q "{'a': {'b': 1}".

(** An object with every key [validate_json_structure] looks for. *)
Definition complete_orgao : dict :=
  [ (py "razao_social", VStr (py "Ministerio"));
    (py "sigla", VStr (py "MX"));
    (py "cnpj", VStr (py "00.000.000/0001-00")) ].

Definition complete_empresa : dict :=
  [ (py "razao_social", VStr (py "Empresa"));
    (py "cnpj", VStr (py "11.111.111/0001-11")) ].

Definition complete_item : dict :=
  [ (py "descricao", VStr (py "Caneta"));
    (py "especificacao", VNone);
    (py "unidade_medida", VStr (py "unidade"));
    (py "quantidade", VStr (py "10"));
    (py "valor_unitario", VStr (py "R$ 1,00"));
    (py "valor_total", VStr (py "R$ 10,00"));
    (py "catmat_catser", VStr (py "A1"));
    (py "tipo", VStr (py "Material"));
    (py "locais_execucao_entrega", VNone) ].

(** The second item has no key at all. *)
Definition complete_itens : list value := [ VDict complete_item; VDict [] ].

Definition complete_object : dict :=
  [ (py "numero_contrato", VStr (py "12/2024"));
    (py "tipo_instrumento", VStr (py "Contrato"));
    (py "processo_administrativo", VNone);
    (py "data_celebracao", VStr (py "01/02/2024"));
    (py "orgao_contratante", VDict complete_orgao);
    (py "empresa_contratada", VDict complete_empresa);
    (py "itens", VList complete_itens);
    (py "fonte_preco", VStr (py "Contrato"));
    (py "referencia_contrato", VNone);
    (py "anexo_contrato", VStr (py "s3://compras-ia-np/Contratos/doc.pdf"));
    (py "status_extracao", VStr (py "Sucesso")) ].

(** An object whose organisation is [null]. *)
Definition null_orgao : dict :=
  [ (py "numero_contrato", VStr (py "12/2024"));
    (py "orgao_contratante", VNone) ].

(** Two organisations and two companies that share a CNPJ. *)
Definition orgao_a : OrgaoContratante.t attr :=
  OrgaoContratante.mk (Some (py "Ministerio A")) None (Some (py "1")).
Definition orgao_b : OrgaoContratante.t attr :=
  OrgaoContratante.mk (Some (py "Ministerio B")) (Some (py "MB"))
    (Some (py "1")).
Definition empresa_a : EmpresaContratada.t attr :=
  EmpresaContratada.mk (Some (py "Empresa A")) (Some (py "2")).
Definition empresa_b : EmpresaContratada.t attr :=
  EmpresaContratada.mk (Some (py "Empresa B")) (Some (py "2")).

(** A contract with a URL, a valid and an invalid item. *)
Definition with_url : Contrato :=
  Samples.contract (Some (py "s3://compras-ia-np/Contratos/doc.pdf"))
    [Samples.item (Some (py "A1")); Samples.item (Some (py "ZZ"))].

(** An item whose description holds an apostrophe and semicolons. *)
Definition awkward_item : Item :=
  Item.mk (Some (py "caneta d'agua; azul; 'fina'")) None None
          (Some (py "2")) None None (Some (py "A1"))
          (Some (py "Material")) None.

(** A server that refuses the first statement it gets. *)
Definition refusing : Conn :=
  Samples.connect Samples.catalogue [Some (py "server closed the connection")].

(** A script with a semicolon inside a literal. *)
Definition two_statements : text :=
  py "INSERT INTO t VALUES ('a;b'); DELETE FROM u;".

(** A contract whose only item has a code that no catalogue knows. *)
Definition only_invalid : Contrato :=
  Samples.contract None [Samples.item (Some (py "ZZ"))].

(** The catalogue, and a contract row (id 7) that carries [url]. *)
Definition stored (url : text) : Database :=
  mkDatabase [] []
    [mkContratoRow 7 (Some (py "99")) (Some (py "Contrato")) None None
       (Some (py "Contrato")) None (Some url) (Some (py "Sucesso")) 1 1]
    [] [py "A1"] [py "S9"] [].

End Cases.

(* ================================================================== *)
(** * The properties, in the vocabulary of the specification *)
(* ================================================================== *)

Import DB ContractRepository SqlScript.

(** An object carries the expected URL. *)
Definition has_anexo (expected : text) (v : value) : Prop :=
  exists d, v = VDict d /\ dict_get k_anexo d = Some (VStr expected).

(** The file name [try_repair_truncated_json] works with. *)
Definition repair_filename (current_pdf_path : option text) : text :=
  match current_pdf_path with
  | Some p => if nonempty p then basename p else py "documento.pdf"
  | None => py "documento.pdf"
  end.





(** [result[k]] of what a function returned, when it returned a [dict]. *)
Definition field (k : string) (r : option value) : option value :=
  match r with
  | Some (VDict d) => dict_get (py k) d
  | _ => None
  end.







(** A code is valid against the tables [d]: not empty, and a key of the
    materials or of the services catalogue. *)
Definition valid_code (d : Database) (code : attr) : bool :=
  attr_truthy code
  && (in_table (or_empty code) (catmat d) || in_table (or_empty code) (catser d)).

Definition valid_item (d : Database) (item : Item) : bool :=
  valid_code d (Item.catmat_catser item).

(** Only the answers still to come differ between two connections. *)
Definition only_answered (c c' : Conn) : Prop :=
  visible c' = visible c /\ committed c' = committed c /\
  autocommit c' = autocommit c /\ seq_orgao c' = seq_orgao c /\
  seq_empresa c' = seq_empresa c /\ seq_contrato c' = seq_contrato c.

(** Inside a transaction a statement leaves untouched what was committed,
    the autocommit switch, and the tables it does not write to. *)
Definition in_txn (c c' : Conn) : Prop :=
  autocommit c' = autocommit c /\ committed c' = committed c /\
  itens (visible c') = itens (visible c) /\
  log_extrator (visible c') = log_extrator (visible c).



Definition line_break (c : ascii) : bool :=
  Ascii.eqb c newline || Ascii.eqb c creturn.

(** A text without a line break. *)
Definition single_line (s : text) : bool :=
  forallb (fun c => negb (line_break c)) s.

Definition sql_blank (c : ascii) : bool :=
  Ascii.eqb c " " || Ascii.eqb c "009" || Ascii.eqb c "012".

(** A script that holds nothing but [--] comments and blanks: outside a
    comment, which runs to the end of its line, the only thing a line may
    start is another comment. *)
Fixpoint comment_only_from (in_comment : bool) (s : text) : bool :=
  match s with
  | [] => true
  | c :: r =>
      if line_break c then comment_only_from false r
      else if in_comment then comment_only_from true r
      else if sql_blank c then comment_only_from false r
      else match r with
           | c2 :: r' =>
               Ascii.eqb c "-" && Ascii.eqb c2 "-" && comment_only_from true r'
           | [] => false
           end
  end.

Definition comment_only (script : text) : bool :=
  comment_only_from false script.

(** A contract with this URL is in the table. *)
Definition url_exists (d : Database) (url : text) : bool :=
  existsb (fun r => sql_eq (c_url_pdf_s3 r) (Some url)) (contratos d).

(** What a white-space character is not. *)
Definition plain_space (w : ascii) : Prop :=
  Ascii.eqb w dquote = false /\ Ascii.eqb w backslash = false /\
  Ascii.eqb w "u" = false /\ unescape w = None /\ hexval w = None /\
  isdigit w = false /\ Ascii.eqb w "0" = false /\ Ascii.eqb w "." = false /\
  Ascii.eqb w "e" = false /\ Ascii.eqb w "E" = false /\
  Ascii.eqb w "-" = false /\ Ascii.eqb w "+" = false /\
  forallb (fun x => negb (Ascii.eqb x w)) (py "nulltruefalseNaN-Infinity")
  = true.

(** The digits, fraction and exponent after the sign. *)
Definition scan_unsigned (s1 : text) : option nat :=
  match scan_int s1 with
  | Some n =>
      let s2 := skipn n s1 in
      let f := scan_frac s2 in
      Some (n + f + scan_exp (skipn f s2))
  | None => None
  end.

(** ** Objects and their keys *)

(** [None], a [bool] or a number: what has no members to look for. *)
Definition scalar (v : value) : bool :=
  match v with
  | VNone | VBool _ | VNum _ => true
  | _ => false
  end.

Definition has_key (d : dict) (k : text) : bool :=
  match dict_get k d with Some _ => true | None => false end.

(** An object that has every key of [keys]. *)
Definition has_keys (keys : list text) (v : value) : bool :=
  match v with
  | VDict d => forallb (has_key d) keys
  | _ => false
  end.

(** ** A server that accepts every statement *)

(** A step inside a transaction on such a server: nothing is committed,
    and the catalogues, the items and the log are as they were. *)
Definition quiet_step (c c' : Conn) : Prop :=
  faults c' = [] /\ autocommit c' = false /\ committed c' = committed c /\
  catmat (visible c') = catmat (visible c) /\
  catser (visible c') = catser (visible c) /\
  itens (visible c') = itens (visible c).

(** ** Scripts and their commands *)

(** The pieces that are sent: those that are not blank. *)
Definition sent (sql_commands : list text) : list text :=
  filter (fun command => nonempty (strip command)) sql_commands.

(** A text without an apostrophe. *)
Definition quote_free (s : text) : bool := count squote s =? 0.

Definition attr_quote_free (x : attr) : bool := quote_free (fmt x).

(** Reading a script from the left: [in_literal] flips at every apostrophe;
    the result counts the semicolons met outside a literal and tells
    whether the text ends inside one. *)
Fixpoint scan (in_literal : bool) (s : text) : nat * bool :=
  match s with
  | [] => (0, in_literal)
  | c :: r =>
      if Ascii.eqb c squote then scan (negb in_literal) r
      else if Ascii.eqb c ";" && negb in_literal
           then (S (fst (scan in_literal r)), snd (scan in_literal r))
           else scan in_literal r
  end.

(** How many of the next [n] answers accept; an exhausted list accepts. *)
Fixpoint accepted (n : nat) (answers : list (option text)) : nat :=
  match n with
  | 0 => 0
  | S n' =>
      match answers with
      | [] => S n'
      | None :: rest => S (accepted n' rest)
      | Some _ :: rest => accepted n' rest
      end
  end.

(* ================================================================== *)
(** * [persist_contract] when the connection object itself fails *)
(* ================================================================== *)

(** The repository above takes [conn.rollback()] and the assignments to
    [conn.autocommit] to succeed.  In [persist_contract] the rollback
    stands in the handler and the last assignment in the [finally] block,
    outside any [try] of their own, so an exception of theirs leaves the
    call.  Here they may raise: a connection comes with the answers to
    the operations on the connection object, [Some msg] making the
    operation raise [msg] and leave the connection as it is, [None] (or
    an exhausted list) letting it through. *)
Module FailingConnection.

Import DB ContractRepository.

Definition Link : Type := Conn * list (option text).

Definition L (A : Type) : Type := Link -> result text A * Link.

Definition ret {A} (a : A) : L A := fun l => (Ok a, l).

Definition raise {A} (e : text) : L A := fun l => (Raise e, l).

Definition bind {A B} (m : L A) (f : A -> L B) : L B :=
  fun l => match m l with
           | (Ok a, l') => f a l'
           | (Raise e, l') => (Raise e, l')
           end.

Notation "x <~ m ;; k" := (bind m (fun x => k))
  (at level 61, m at next level, right associativity).
Notation "m ~;; k" := (bind m (fun _ => k))
  (at level 61, right associativity).

(** A computation of the repository, on the connection of the link. *)
Definition lift {A} (m : M A) : L A :=
  fun l => match m (fst l) with (r, c) => (r, (c, snd l)) end.

(** An operation on the connection object. *)
Definition operate (effect : M unit) : L unit :=
  fun l => match snd l with
           | Some msg :: rest => (Raise msg, (fst l, rest))
           | None :: rest =>
               match effect (fst l) with (r, c) => (r, (c, rest)) end
           | [] => match effect (fst l) with (r, c) => (r, (c, [])) end
           end.

(** [conn.rollback()] and [conn.autocommit = b] *)
Definition rollback : L unit := operate DB.rollback.

Definition set_autocommit (b : bool) : L unit :=
  operate (DB.set_autocommit b).

(** The [try] block after its first line. *)
Definition insert_rows (contrato : Contrato) : M unit :=
  orgao_id <- insert_orgao_contratante (Contrato.orgao_contratante contrato) ;;
  empresa_id <- insert_empresa_contratada (Contrato.empresa_contratada contrato) ;;
  contrato_id <- insert_contrato contrato orgao_id empresa_id ;;
  insert_items (Contrato.itens contrato) contrato_id ;;;
  commit.

(** The [try] block and its handler: the values of [log_status] and
    [log_msg] when the [finally] block is reached, and the exception that
    is raised again after it, if there is one.  When [rollback()] raises,
    the two assignments that follow it in the handler are not reached. *)
Definition try_and_handle (contrato : Contrato)
  : L ((text * text) * option text) :=
  fun l =>
    let log := (sucesso, py "Contrato processado com sucesso.") in
    match (set_autocommit false ~;; lift (insert_rows contrato)) l with
    | (Ok _, l1) => (Ok (log, None), l1)
    | (Raise e, l1) =>
        match rollback l1 with
        | (Ok _, l2) =>
            (Ok ((falha, py "Erro ao processar contrato: " ++ e), None), l2)
        | (Raise e', l2) => (Ok (log, Some e'), l2)
        end
    end.

Definition persist_contract (contrato : Contrato) : L Contrato :=
  let data_contrato_sql := date_sql (Contrato.data_celebracao contrato) in
  valid_items <~ lift (filter_valid (Contrato.itens contrato)) ;;
  let contrato := Contrato.set_itens valid_items contrato in
  let qtd_itens := length valid_items in
  reached <~ try_and_handle contrato ;;
  (* finally *)
  set_autocommit true ~;;
  lift (try_except
          (insert_log_extrator
             (OrgaoContratante.cnpj (Contrato.orgao_contratante contrato))
             (EmpresaContratada.cnpj (Contrato.empresa_contratada contrato))
             (Contrato.numero_contrato contrato)
             data_contrato_sql qtd_itens (fst (fst reached))
             (snd (fst reached)))
          (fun _ => DB.ret tt)) ~;;
  match snd reached with
  | Some e => raise e
  | None => ret contrato
  end.

End FailingConnection.

(** No operation on the connection object is refused. *)
Definition unrefused (ops : list (option text)) : bool :=
  forallb (fun answer => match answer with None => true | Some _ => false end)
          ops.

(* ================================================================== *)
(** * Facts about Python strings *)
(* ================================================================== *)

Lemma text_eqb_refl (a : text) : text_eqb a a = true.
Proof.
  induction a as [|x a IH]; simpl; [reflexivity|].
  now rewrite Ascii.eqb_refl.
Qed.

Lemma text_eqb_eq (a b : text) : text_eqb a b = true <-> a = b.
Proof.
  split.
  - revert b; induction a as [|x a IH]; intros [|y b] H; simpl in H;
      try discriminate; [reflexivity|].
    apply andb_true_iff in H as [Hxy Hab].
    apply Ascii.eqb_eq in Hxy. f_equal; auto.
  - intros ->. apply text_eqb_refl.
Qed.

Lemma startswith_app (p s : text) : startswith p (p ++ s) = true.
Proof.
  induction p as [|x p IH]; simpl; [reflexivity|].
  now rewrite Ascii.eqb_refl.
Qed.

Lemma startswith_prefix (p s : text) :
  startswith p s = true -> exists r, s = p ++ r.
Proof.
  revert s; induction p as [|x p IH]; intros s H.
  - now exists s.
  - destruct s as [|y s]; simpl in H; [discriminate|].
    apply andb_true_iff in H as [Hxy Hp].
    apply Ascii.eqb_eq in Hxy; subst y.
    destruct (IH _ Hp) as [r ->]. now exists r.
Qed.

Lemma startswith_short (p s : text) :
  length s < length p -> startswith p s = false.
Proof.
  revert s; induction p as [|x p IH]; intros s H; simpl in *; [lia|].
  destruct s as [|y s]; [reflexivity|].
  simpl in H. rewrite IH by lia. apply andb_false_r.
Qed.

Lemma endswith_app (p s : text) : endswith p (s ++ p) = true.
Proof.
  unfold endswith. rewrite rev_app_distr. apply startswith_app.
Qed.

Lemma lstrip_nonspace (c : ascii) (s : text) :
  isspace c = false -> lstrip (c :: s) = c :: s.
Proof. intros H; simpl; now rewrite H. Qed.

Lemma rstrip_nonspace (c : ascii) (s : text) :
  isspace c = false -> rstrip (s ++ [c]) = s ++ [c].
Proof.
  intros H. unfold rstrip. rewrite rev_app_distr. simpl.
  rewrite H. simpl. now rewrite rev_involutive.
Qed.

(** A text that is stripped and not empty has a visible first and last
    character. *)
Lemma lstrip_head (s : text) (c : ascii) (r : text) :
  lstrip s = c :: r -> isspace c = false.
Proof.
  induction s as [|x s IH]; simpl; [discriminate|].
  destruct (isspace x) eqn:E; [exact IH|].
  intros [= <- _]. exact E.
Qed.

Lemma all_space_strip (s : text) : all_space (strip s) = false.
Proof.
  unfold all_space, strip, rstrip.
  destruct (lstrip (rev (lstrip s))) as [|c r] eqn:E; [reflexivity|].
  apply lstrip_head in E.
  simpl rev.
  destruct (nonempty (rev r ++ [c])); [|reflexivity]. simpl.
  rewrite forallb_app. simpl. rewrite E.
  now rewrite andb_false_r.
Qed.

(* ================================================================== *)
(** * The attachment URL of parsed and repaired answers *)
(* ================================================================== *)

Lemma dict_get_set (k : text) (v : value) (d : dict) :
  dict_get k (dict_set k v d) = Some v.
Proof.
  induction d as [|[k' v'] d IH]; simpl.
  - now rewrite text_eqb_refl.
  - destruct (text_eqb k k') eqn:E; simpl; rewrite E; auto.
Qed.

Lemma fix_anexo_get (expected : text) (d : dict) :
  dict_get k_anexo (fix_anexo expected d) = Some (VStr expected).
Proof.
  unfold fix_anexo, anexo_differs.
  destruct (dict_get k_anexo d) as [[| | |s| |]|] eqn:E;
    try apply dict_get_set.
  destruct (text_eqb s expected) eqn:Es; simpl.
  - apply text_eqb_eq in Es. now subst.
  - apply dict_get_set.
Qed.

Lemma has_anexo_fix (expected : text) (d : dict) :
  has_anexo expected (VDict (fix_anexo expected d)).
Proof. exists (fix_anexo expected d). split; [reflexivity|apply fix_anexo_get]. Qed.

Lemma scan_suffixes_anexo (expected s : text) (v : value) :
  scan_suffixes expected s = Some v -> has_anexo expected v.
Proof.
  induction s as [|c r IH]; simpl; [discriminate|].
  destruct (Ascii.eqb c "{"); [|exact IH].
  destruct (json_loads (c :: r)) as [[| | | | |d]|]; try exact IH.
  intros [= <-]. apply has_anexo_fix.
Qed.

Lemma fallback_anexo (cleaned pdf_filename : text) :
  has_anexo (expected_anexo pdf_filename) (fallback_json cleaned pdf_filename).
Proof. eexists; split; reflexivity. Qed.

Lemma analyze_with_gemini_anexo (raw_output : option text) (pdf_path : text)
  (v : value) :
  analyze_with_gemini raw_output pdf_path = Some v ->
  has_anexo (expected_anexo (basename pdf_path)) v.
Proof.
  unfold analyze_with_gemini.
  destruct raw_output as [raw|]; [|discriminate].
  destruct (negb (nonempty raw) || negb (nonempty (strip raw)));
    [discriminate|].
  set (cleaned := clean_response raw).
  destruct (negb (nonempty cleaned) || all_space cleaned); [discriminate|].
  set (expected := expected_anexo (basename pdf_path)).
  assert (Hthird :
    match scan_suffixes expected cleaned with
    | Some v0 => Some v0
    | None =>
        match json_loads cleaned with
        | Some (VDict d) => Some (VDict (fix_anexo expected d))
        | Some _ => None
        | None => Some (fallback_json cleaned (basename pdf_path))
        end
    end = Some v -> has_anexo expected v).
  { destruct (scan_suffixes expected cleaned) as [w|] eqn:Es.
    - intros [= <-]. eapply scan_suffixes_anexo; eauto.
    - destruct (json_loads cleaned) as [[| | | | |d]|]; try discriminate.
      + intros [= <-]. apply has_anexo_fix.
      + intros [= <-]. apply fallback_anexo. }
  destruct (search_braces cleaned) as [span|]; [|exact Hthird].
  destruct (json_loads (strip span)) as [[| | | | |d]|];
    try discriminate; [|exact Hthird].
  intros [= <-]. apply has_anexo_fix.
Qed.

Lemma set_anexo_anexo (pdf_filename : text) (v w : value) :
  set_anexo pdf_filename v = Some w ->
  has_anexo (expected_anexo pdf_filename) w.
Proof.
  destruct v; try discriminate. intros [= <-].
  eexists; split; [reflexivity|apply dict_get_set].
Qed.

Lemma try_repair_truncated_json_anexo (current_pdf_path : option text)
  (raw_response : text) (v : value) :
  try_repair_truncated_json current_pdf_path raw_response = Some v ->
  has_anexo (expected_anexo (repair_filename current_pdf_path)) v.
Proof.
  unfold try_repair_truncated_json.
  fold (repair_filename current_pdf_path).
  destruct (json_loads (clean_response raw_response)) as [w|].
  - apply set_anexo_anexo.
  - destruct (negb (re_search json_start_at (clean_response raw_response)));
      [discriminate|].
    destruct (json_loads (repair_text (clean_response raw_response))) as [w|];
      [apply set_anexo_anexo|discriminate].
Qed.

(* ================================================================== *)
(** * The fallback object of [analyze_with_gemini] *)
(* ================================================================== *)


Lemma strip_nil_of_nil : strip [] = [].
Proof. reflexivity. Qed.






(* ================================================================== *)
(** * The placeholder of [try_repair_truncated_json] *)
(* ================================================================== *)

Lemma lstrip_suffix (s : text) : exists ws, s = ws ++ lstrip s.
Proof.
  induction s as [|c r [ws IH]]; [now exists []|].
  simpl. destruct (isspace c).
  - exists (c :: ws). simpl. now f_equal.
  - now exists [].
Qed.

Lemma lstrip_nil_all_space (s : text) :
  lstrip s = [] -> forallb isspace s = true.
Proof.
  induction s as [|c r IH]; simpl; [reflexivity|].
  destruct (isspace c); [exact IH|discriminate].
Qed.

Lemma drop_nonquote_suffix (s : text) : exists pre, s = pre ++ drop_nonquote s.
Proof.
  induction s as [|c r [pre IH]]; [now exists []|].
  simpl. destruct (Ascii.eqb c dquote).
  - now exists [].
  - exists (c :: pre). simpl. now f_equal.
Qed.

Lemma quoted_key_colon_suffix (s rest : text) :
  quoted_key_colon s = Some rest -> exists pre, s = pre ++ ":"%char :: rest.
Proof.
  unfold quoted_key_colon.
  destruct s as [|c [|k r]]; try discriminate.
  destruct (Ascii.eqb c dquote && negb (Ascii.eqb k dquote)); [|discriminate].
  destruct (drop_nonquote_suffix r) as [pre Hpre].
  destruct (drop_nonquote r) as [|x r2]; [discriminate|].
  destruct (lstrip_suffix r2) as [ws Hws].
  destruct (lstrip r2) as [|c2 r3]; [discriminate|].
  destruct (Ascii.eqb c2 ":") eqn:E; [|discriminate].
  apply Ascii.eqb_eq in E. subst c2. intros [= <-].
  exists (c :: k :: pre ++ x :: ws).
  rewrite Hpre, Hws. simpl. rewrite <- app_assoc. reflexivity.
Qed.

Lemma last_app_nonempty (a b : text) (d : ascii) :
  b <> [] -> last (a ++ b) d = last b d.
Proof.
  intros Hb. induction a as [|x a IH]; [reflexivity|].
  simpl app. destruct (a ++ b) eqn:E.
  - destruct a; [simpl in E; congruence|discriminate E].
  - rewrite <- IH. reflexivity.
Qed.

Lemma last_all_space (s : text) (d : ascii) :
  s <> [] -> forallb isspace s = true -> isspace (last s d) = true.
Proof.
  induction s as [|c r IH]; [congruence|].
  intros _ H. simpl in H. apply andb_true_iff in H as [Hc Hr].
  destruct r as [|c' r']; [exact Hc|].
  change (last (c :: c' :: r') d) with (last (c' :: r') d).
  apply IH; [discriminate|exact Hr].
Qed.

(** When the dangling-key pattern matches, the text ends with the colon or
    with white space after it. *)
Lemma last_property_at_last (u : text) :
  last_property_at u = true ->
  last u "}"%char = ":"%char \/ isspace (last u "}"%char) = true.
Proof.
  unfold last_property_at.
  destruct u as [|c r]; [discriminate|].
  intros H. apply andb_true_iff in H as [_ H].
  destruct (quoted_key_colon (lstrip r)) as [rest|] eqn:Eq; [|discriminate].
  destruct (lstrip rest) eqn:El; [|discriminate].
  apply quoted_key_colon_suffix in Eq as [pre Hpre].
  destruct (lstrip_suffix r) as [ws Hws].
  rewrite Hpre in Hws.
  assert (Hu : c :: r = (c :: ws ++ pre) ++ ":"%char :: rest).
  { rewrite Hws. simpl. now rewrite <- app_assoc. }
  rewrite Hu. rewrite last_app_nonempty by discriminate.
  destruct rest as [|x rest'].
  - now left.
  - right. change (last (":"%char :: x :: rest') "}"%char)
      with (last (x :: rest') "}"%char).
    apply last_all_space; [discriminate|].
    now apply lstrip_nil_all_space.
Qed.

Lemma last_property_absent_after_brace (s : text) :
  last s "}"%char = "}"%char -> re_search last_property_at s = false.
Proof.
  induction s as [|c r IH]; intros H; [reflexivity|].
  change (re_search last_property_at (c :: r))
    with (last_property_at (c :: r) || re_search last_property_at r).
  destruct (last_property_at (c :: r)) eqn:E.
  - apply last_property_at_last in E. rewrite H in E.
    destruct E as [E|E]; discriminate E.
  - destruct r as [|c' r']; [reflexivity|].
    apply IH. exact H.
Qed.

(** Once closing braces were appended the placeholder never is: the
    dangling-key pattern is anchored at the end of the text, where the
    braces now stand. *)
Lemma repair_text_after_braces (cleaned : text) :
  count "}" cleaned < count "{" cleaned ->
  repair_text cleaned
  = cleaned ++ repeat "}"%char (count "{" cleaned - count "}" cleaned).
Proof.
  intros H. unfold repair_text.
  apply Nat.ltb_lt in H as Hb. rewrite Hb.
  destruct (count "{" cleaned - count "}" cleaned) as [|k] eqn:Ek.
  { apply Nat.ltb_lt in Hb. lia. }
  assert (Hc : cleaned ++ repeat "}"%char (S k)
               = (cleaned ++ repeat "}"%char k) ++ ["}"%char]).
  { simpl repeat. rewrite repeat_cons. now rewrite app_assoc. }
  rewrite Hc.
  rewrite last_property_absent_after_brace by (now rewrite last_last).
  rewrite rstrip_nonspace by reflexivity.
  unfold endswith. rewrite rev_app_distr. reflexivity.
Qed.

(** C7.  On a truncated answer that stops just after a key, the repair
    appends the missing brace before it looks for the dangling key, so the
    placeholder is not added and nothing is recovered. *)
Theorem try_repair_leaves_dangling_key_unrepaired :
  json_loads Samples.dangling_key = None /\
  re_search json_start_at Samples.dangling_key = true /\
  re_search last_property_at Samples.dangling_key = true /\
  repair_text (clean_response Samples.dangling_key) = q "{'a':1,'b':}" /\
  try_repair_truncated_json (Some (py "/tmp/doc.pdf")) Samples.dangling_key
  = None.
Proof. repeat split; reflexivity. Qed.

(* ================================================================== *)
(** * [ContractParser.parse] *)
(* ================================================================== *)








(* ================================================================== *)
(** * The repository: what a statement changes *)
(* ================================================================== *)

Lemma ok_pair_inv {E A B S : Type} (a a' : A) (b b' : B) (s s' : S) :
  (@Ok E (A * B) (a, b), s) = (Ok (a', b'), s') -> a = a' /\ b = b' /\ s = s'.
Proof. intros H. inversion H. auto. Qed.

Lemma only_answered_refl (c : Conn) : only_answered c c.
Proof. repeat split. Qed.

Lemma only_answered_trans (a b c : Conn) :
  only_answered a b -> only_answered b c -> only_answered a c.
Proof.
  unfold only_answered. intros H1 H2.
  destruct H1 as (?&?&?&?&?&?), H2 as (?&?&?&?&?&?).
  repeat split; congruence.
Qed.

Lemma execute_only_answered (c c' : Conn) (r : result text unit) :
  execute c = (r, c') -> only_answered c c'.
Proof.
  unfold execute. destruct c as [v cm ac so se sc [|[m|] fl]]; simpl;
    intros [= <- <-]; repeat split.
Qed.

Lemma select_spec {A} (f : Database -> A) (c c' : Conn) (r : result text A) :
  select f c = (r, c') ->
  only_answered c c' /\ (forall a, r = Ok a -> a = f (visible c)).
Proof.
  unfold select, bind. destruct (execute c) as [[[]|e] c1] eqn:E;
    intros [= <- <-]; apply execute_only_answered in E as H; split; auto.
  - intros a [= <-]. now destruct H as [-> _].
  - discriminate.
Qed.

Lemma is_valid_catmat_catser_spec (code : attr) (c c' : Conn)
  (r : result text bool) :
  is_valid_catmat_catser code c = (r, c') ->
  only_answered c c' /\ (forall b, r = Ok b -> b = valid_code (visible c) code).
Proof.
  unfold is_valid_catmat_catser, valid_code.
  destruct (attr_truthy code); simpl.
  2:{ intros [= <- <-]. split; [apply only_answered_refl|].
      now intros b [= <-]. }
  unfold bind at 1.
  destruct (select _ c) as [[row|e] c1] eqn:E1.
  2:{ intros [= <- <-]. apply select_spec in E1 as [H _].
      split; [exact H|discriminate]. }
  apply select_spec in E1 as [H1 Hrow]. specialize (Hrow _ eq_refl).
  destruct row.
  { intros [= <- <-]. split; [exact H1|].
    intros b [= <-]. now rewrite <- Hrow. }
  unfold bind.
  destruct (select _ c1) as [[row2|e] c2] eqn:E2.
  2:{ intros [= <- <-]. apply select_spec in E2 as [H _].
      split; [eapply only_answered_trans; eauto|discriminate]. }
  apply select_spec in E2 as [H2 Hrow2]. specialize (Hrow2 _ eq_refl).
  assert (Hv : visible c1 = visible c) by apply H1.
  rewrite Hv in Hrow2. rewrite <- Hrow, <- Hrow2.
  destruct row2; intros [= <- <-];
    (split; [eapply only_answered_trans; eauto|now intros b [= <-]]).
Qed.

Lemma filter_valid_spec (l : list Item) (c c' : Conn)
  (r : result text (list Item)) :
  filter_valid l c = (r, c') ->
  only_answered c c' /\
  (forall vs, r = Ok vs -> vs = filter (valid_item (visible c)) l).
Proof.
  revert c c' r. induction l as [|item rest IH]; intros c c' r; simpl.
  - intros [= <- <-]. split; [apply only_answered_refl|].
    now intros vs [= <-].
  - unfold bind at 1.
    destruct (is_valid_catmat_catser _ c) as [[ok|e] c1] eqn:E1.
    2:{ intros [= <- <-]. apply is_valid_catmat_catser_spec in E1 as [H _].
        split; [exact H|discriminate]. }
    apply is_valid_catmat_catser_spec in E1 as [H1 Hok].
    specialize (Hok _ eq_refl).
    unfold bind.
    destruct (filter_valid rest c1) as [[vs|e] c2] eqn:E2.
    2:{ intros [= <- <-]. apply IH in E2 as [H _].
        split; [eapply only_answered_trans; eauto|discriminate]. }
    apply IH in E2 as [H2 Hvs]. specialize (Hvs _ eq_refl).
    assert (Hv : visible c1 = visible c) by apply H1.
    rewrite Hv in Hvs.
    intros [= <- <-]. split; [eapply only_answered_trans; eauto|].
    intros vs' [= <-]. unfold valid_item at 1. rewrite <- Hok, <- Hvs.
    reflexivity.
Qed.

Lemma in_txn_refl (c : Conn) : in_txn c c.
Proof. repeat split. Qed.


(** Closed goals are settled by evaluation, conjunct by conjunct. *)
Ltac evaluate :=
  intros;
  repeat match goal with |- _ /\ _ => split end;
  vm_compute; reflexivity.











Lemma persist_until_log_returns (contrato : Contrato) (c c0 : Conn)
  (vs : list Item) :
  filter_valid (Contrato.itens contrato) c = (Ok vs, c0) ->
  exists row c1,
    persist_until_log contrato c
    = (Ok (Contrato.set_itens vs contrato, row), c1).
Proof.
  intros E0. unfold persist_until_log. unfold bind at 1. rewrite E0.
  unfold bind at 1, try_except. unfold bind at 1.
  destruct (insert_sequence (Contrato.set_itens vs contrato) c0)
    as [[[]|e] c2]; unfold bind, rollback, ret, set_autocommit;
    cbv beta iota; eauto.
Qed.


Lemma persist_contract_returns (contrato : Contrato) (c c0 : Conn)
  (vs : list Item) :
  filter_valid (Contrato.itens contrato) c = (Ok vs, c0) ->
  exists c', persist_contract contrato c
             = (Ok (Contrato.set_itens vs contrato), c').
Proof.
  intros E0. destruct (persist_until_log_returns _ _ E0) as [row [c1 E1]].
  unfold persist_contract. unfold bind at 1. rewrite E1.
  unfold bind, try_except.
  destruct (insert_log_extrator _ _ _ _ _ _ _ c1) as [[[]|e] c2];
    unfold ret; eauto.
Qed.

(* ================================================================== *)
(** * [persist_contract]: items, log and the caller's contract *)
(* ================================================================== *)

(** C10.  [persist_contract] changes the contract it was given: when the
    call returns, the contract is the one passed with its [itens] replaced
    by the items whose code is valid, in order; the call fails to return
    only when a validation query is refused, and that exception leaves
    the call. *)
Theorem persist_contract_replaces_itens (contrato : Contrato) (c : Conn) :
  match persist_contract contrato c with
  | (Ok contrato', _) =>
      contrato'
      = Contrato.set_itens
          (filter (valid_item (visible c)) (Contrato.itens contrato)) contrato
      /\ Contrato.itens contrato'
         = filter (valid_item (visible c)) (Contrato.itens contrato)
  | (Raise e, _) =>
      exists c0, filter_valid (Contrato.itens contrato) c = (Raise e, c0)
  end.
Proof.
  destruct (filter_valid (Contrato.itens contrato) c) as [[vs|e] c0] eqn:E0.
  - destruct (persist_contract_returns _ _ E0) as [c' E]. rewrite E.
    apply filter_valid_spec in E0 as [_ Hvs]. rewrite (Hvs _ eq_refl).
    split; reflexivity.
  - unfold persist_contract, persist_until_log. unfold bind at 1.
    unfold bind at 1. rewrite E0. now exists c0.
Qed.






(* ================================================================== *)
(** * Duplicate contracts *)
(* ================================================================== *)

(** C2.  Two [persist_contract] calls for the same contract number and a
    [None] URL, with different item lists, on a server that accepts every
    statement: the lookup compares the URL column with [NULL], finds
    nothing, and the second call inserts a second contract row, whose id
    its items carry. *)
Theorem persist_contract_twice_with_null_url :
  let c0 := Samples.connect Samples.catalogue [] in
  let c1 := snd (persist_contract Samples.two_items c0) in
  let c2 := snd (persist_contract Samples.one_item c1) in
  Contrato.numero_contrato Samples.two_items
  = Contrato.numero_contrato Samples.one_item /\
  Contrato.url_pdf_s3 Samples.two_items = Contrato.url_pdf_s3 Samples.one_item /\
  fst (persist_contract Samples.two_items c0) = Ok Samples.one_item /\
  fst (persist_contract Samples.one_item c1) = Ok Samples.one_item /\
  map c_id (contratos (committed c2)) = [1; 2] /\
  map c_numero_contrato (contratos (committed c2))
  = [Some (py "123"); Some (py "123")] /\
  map c_url_pdf_s3 (contratos (committed c2)) = [None; None] /\
  map i_contrato_id (itens (committed c2)) = [1; 2] /\
  map l_status_execucao (log_extrator (committed c2)) = [sucesso; sucesso].
Proof. evaluate. Qed.

Lemma find_app_miss {A} (f : A -> bool) (l : list A) (x : A) :
  find f l = None -> f x = true -> find f (l ++ [x]) = Some x.
Proof.
  induction l as [|y l IH]; simpl; intros Hl Hx.
  - now rewrite Hx.
  - destruct (f y); [discriminate|auto].
Qed.

(** After [insert_contrato] returns an id, the lookup for that number and
    URL, neither of them [None], finds a row with that id. *)
Lemma insert_contrato_then_found (k : Contrato) (n u : text)
  (o e id : nat) (c c1 : Conn) :
  Contrato.numero_contrato k = Some n -> Contrato.url_pdf_s3 k = Some u ->
  insert_contrato k o e c = (Ok id, c1) ->
  exists row,
    find (same_contract (Some n) (Some u)) (contratos (visible c1)) = Some row
    /\ c_id row = id.
Proof.
  intros Hn Hu.
  unfold insert_contrato, get_contrato_by_numero_urlpdf, select.
  rewrite Hn, Hu.
  destruct c as [v cm ac so se sc fl].
  unfold bind, execute, nextval_contrato, ret, with_visible.
  cbn [visible committed autocommit seq_orgao seq_empresa seq_contrato faults].
  destruct (find (same_contract (Some n) (Some u)) (contratos v))
    as [row|] eqn:Ef.
  - destruct fl as [|[m|] fl]; cbn; rewrite ?Ef; cbn; intros H;
      try discriminate H; injection H as <- <-; cbn; eauto.
  - assert (Hnew : forall row,
               c_numero_contrato row = Some n -> c_url_pdf_s3 row = Some u ->
               find (same_contract (Some n) (Some u)) (contratos v ++ [row])
               = Some row).
    { intros row H1 H2. apply find_app_miss; [exact Ef|].
      unfold same_contract, sql_eq. rewrite H1, H2.
      now rewrite !text_eqb_refl. }
    destruct fl as [|[m|] fl]; cbn; rewrite ?Ef; cbn;
      try (intros H; discriminate H);
      try (destruct fl as [|[m|] fl]; cbn; try (intros H; discriminate H));
      intros H; injection H as <- <-; cbn;
      eexists; (split; [apply Hnew; reflexivity|reflexivity]).
Qed.

(** X10.  With a contract number and a URL that are not [None] the lookup
    does find the row: a second [insert_contrato] for the same pair returns
    the id the first returned and writes nothing. *)
Lemma insert_contrato_reuses_id (k1 k2 : Contrato) (n u : text)
  (o1 e1 o2 e2 id : nat) (c c1 c2 : Conn) (r : result text nat) :
  Contrato.numero_contrato k1 = Some n -> Contrato.url_pdf_s3 k1 = Some u ->
  Contrato.numero_contrato k2 = Some n -> Contrato.url_pdf_s3 k2 = Some u ->
  insert_contrato k1 o1 e1 c = (Ok id, c1) ->
  insert_contrato k2 o2 e2 c1 = (r, c2) ->
  visible c2 = visible c1 /\ (r = Ok id \/ exists e, r = Raise e).
Proof.
  intros Hn1 Hu1 Hn2 Hu2 H1.
  destruct (@insert_contrato_then_found k1 n u o1 e1 id c c1 Hn1 Hu1 H1)
    as [row [Hf Hid]].
  unfold insert_contrato, get_contrato_by_numero_urlpdf, select.
  rewrite Hn2, Hu2.
  destruct c1 as [v cm ac so se sc fl].
  unfold bind, execute, ret.
  cbn [visible committed autocommit seq_orgao seq_empresa seq_contrato faults]
    in *.
  destruct fl as [|[m|] fl]; cbn; rewrite ?Hf; cbn; intros H;
    injection H as <- <-; cbn; subst id; eauto.
Qed.

Lemma insert_contrato_reuses_id_witness :
  let c := Samples.connect Samples.no_tables [] in
  let c1 := snd (insert_contrato Cases.with_url 1 1 c) in
  let c2 := snd (insert_contrato Cases.with_url 7 9 c1) in
  insert_contrato Cases.with_url 1 1 c = (Ok 1, c1) /\
  visible c2 = visible c1 /\
  (fst (insert_contrato Cases.with_url 7 9 c1) = Ok 1
   \/ exists e, fst (insert_contrato Cases.with_url 7 9 c1) = Raise e).
Proof.
  intros c c1 c2.
  split; [vm_compute; reflexivity|].
  apply (@insert_contrato_reuses_id Cases.with_url Cases.with_url
           (py "123") (py "s3://compras-ia-np/Contratos/doc.pdf")
           1 1 7 9 1 c c1 c2 (fst (insert_contrato Cases.with_url 7 9 c1)));
    vm_compute; reflexivity.
Defined.

(* ================================================================== *)
(** * [generate_sql_script] *)
(* ================================================================== *)

Lemma single_line_app (a b : text) :
  single_line (a ++ b) = single_line a && single_line b.
Proof. apply forallb_app. Qed.

Lemma comment_runs_to_end (s : text) :
  single_line s = true -> comment_only_from true s = true.
Proof.
  induction s as [|c r IH]; simpl; [reflexivity|].
  intros H. apply andb_true_iff in H as [Hc Hr].
  apply negb_true_iff in Hc. rewrite Hc. auto.
Qed.

Lemma single_line_digits (d : Decimal.uint) :
  single_line (list_ascii_of_string (NilEmpty.string_of_uint d)) = true.
Proof. induction d; simpl; auto. Qed.

Lemma single_line_str_of_nat (n : nat) : single_line (str_of_nat n) = true.
Proof.
  unfold str_of_nat, NilZero.string_of_uint.
  destruct (Nat.to_uint n) eqn:E; try reflexivity;
    rewrite <- E; apply single_line_digits.
Qed.

Lemma single_line_lower_pdf (filename : text) :
  single_line filename = true -> single_line (url_of filename) = true.
Proof.
  intros H. unfold url_of, pdf_filename_of.
  rewrite single_line_app.
  replace (single_line (py "s3://compras-ia-np/Contratos/")) with true
    by (vm_compute; reflexivity).
  destruct (negb _); [rewrite single_line_app, H|exact H].
  vm_compute. reflexivity.
Qed.

Lemma comment_only_dashes (rest : text) :
  comment_only ("-"%char :: "-"%char :: rest) = comment_only_from true rest.
Proof. reflexivity. Qed.

Lemma no_valid_items_comment_only (filename : text) :
  single_line filename = true ->
  comment_only (no_valid_items_comment filename) = true.
Proof.
  intros H. unfold no_valid_items_comment.
  replace (py "-- Contrato de ")
    with ("-"%char :: "-"%char :: py " Contrato de ")
    by (vm_compute; reflexivity).
  rewrite <- !app_comm_cons. rewrite comment_only_dashes.
  apply comment_runs_to_end.
  rewrite !single_line_app, H. vm_compute. reflexivity.
Qed.

Lemma already_exists_comment_only (url : text) (id : nat) :
  single_line url = true ->
  comment_only (already_exists_comment url id) = true.
Proof.
  intros H. unfold already_exists_comment.
  replace (py "-- Contrato com URL do PDF '")
    with ("-"%char :: "-"%char :: py " Contrato com URL do PDF '")
    by (vm_compute; reflexivity).
  rewrite <- !app_comm_cons. rewrite comment_only_dashes.
  apply comment_runs_to_end.
  rewrite !single_line_app, H, single_line_str_of_nat.
  vm_compute. reflexivity.
Qed.

Lemma find_existsb {A} (f : A -> bool) (l : list A) :
  existsb f l = match find f l with Some _ => true | None => false end.
Proof.
  induction l as [|x l IH]; simpl; [reflexivity|].
  destruct (f x); auto.
Qed.

(** What [generate_sql_script] returns, case by case. *)
Lemma generate_sql_script_spec (contrato contrato' : Contrato)
  (filename script : text) (c c' : Conn) :
  generate_sql_script contrato filename c = (Ok (script, contrato'), c') ->
  let valid_items := filter (valid_item (visible c)) (Contrato.itens contrato) in
  only_answered c c' /\
  ((valid_items = [] /\ contrato' = contrato /\
    script = no_valid_items_comment filename)
   \/
   (valid_items <> [] /\ url_exists (visible c) (url_of filename) = true /\
    contrato' = contrato /\
    exists id, script = already_exists_comment (url_of filename) id)
   \/
   (valid_items <> [] /\ url_exists (visible c) (url_of filename) = false /\
    contrato' = Contrato.set_url_pdf_s3 (Some (url_of filename)) contrato /\
    script = build_script contrato' valid_items)).
Proof.
  intros H valid_items.
  unfold generate_sql_script, valid_items_of in H. unfold bind at 1 in H.
  destruct (filter_valid (Contrato.itens contrato) c) as [[vs|e] c0] eqn:E0;
    [|discriminate H].
  apply filter_valid_spec in E0 as [Hans Hvs]. specialize (Hvs _ eq_refl).
  subst valid_items. rewrite <- Hvs. clear Hvs.
  destruct vs as [|item rest].
  - unfold ret in H. apply ok_pair_inv in H as (<- & <- & <-).
    split; [exact Hans|]. left. repeat split.
  - unfold bind, existing_contract_of in H.
    destruct (select _ c0) as [[existing|e] c1] eqn:E1; [|discriminate H].
    apply select_spec in E1 as [Hans1 Hex]. specialize (Hex _ eq_refl).
    assert (Hv : visible c0 = visible c) by apply Hans.
    rewrite Hv in Hex.
    assert (Hu : url_exists (visible c) (url_of filename)
                 = match existing with Some _ => true | None => false end).
    { unfold url_exists. rewrite find_existsb. rewrite Hex.
      now destruct (find _ _). }
    pose proof (only_answered_trans Hans Hans1) as Hans2.
    destruct existing as [id|]; unfold ret in H;
      apply ok_pair_inv in H as (<- & <- & <-);
      (split; [exact Hans2|]); right.
    + left. split; [discriminate|]. split; [exact Hu|].
      split; [reflexivity|]. now exists id.
    + right. split; [discriminate|]. split; [exact Hu|].
      split; reflexivity.
Qed.

(** For a file name without a line break the two early returns do give a
    comment: when no item of the contract has a valid code, or a contract
    row already carries the URL computed from the file name, the script
    is nothing but a [--] comment, and the contract and the tables are
    left as they were. *)
Lemma generate_sql_script_noop_is_comment (contrato contrato' : Contrato)
  (filename script : text) (c c' : Conn) :
  single_line filename = true ->
  generate_sql_script contrato filename c = (Ok (script, contrato'), c') ->
  filter (valid_item (visible c)) (Contrato.itens contrato) = []
  \/ url_exists (visible c) (url_of filename) = true ->
  comment_only script = true /\ contrato' = contrato /\
  visible c' = visible c /\ committed c' = committed c.
Proof.
  intros Hline H Hcase.
  apply generate_sql_script_spec in H as [Hans Hspec].
  destruct Hans as (Hv & Hc & _).
  destruct Hspec as [(_ & -> & ->)|[(_ & _ & -> & id & ->)|(Hne & Hno & _)]].
  - repeat split; auto. now apply no_valid_items_comment_only.
  - repeat split; auto. apply already_exists_comment_only.
    now apply single_line_lower_pdf.
  - destruct Hcase as [He|He]; congruence.
Qed.

(** Both returns, on a contract whose item is filtered out and on a URL
    that is already stored. *)
Lemma generate_sql_script_noop_examples :
  let c := Samples.connect Samples.catalogue [] in
  let d := Samples.connect (Cases.stored (url_of (py "doc 1-a"))) [] in
  (filter (valid_item (visible c)) (Contrato.itens Cases.only_invalid) = [] /\
   generate_sql_script Cases.only_invalid (py "doc 1-a.pdf") c
   = (Ok (py "-- Contrato de doc 1-a.pdf não possui itens válidos. Nenhuma ação realizada.",
          Cases.only_invalid), c) /\
   comment_only (py "-- Contrato de doc 1-a.pdf não possui itens válidos. Nenhuma ação realizada.")
   = true) /\
  (url_exists (visible d) (url_of (py "doc 1-a")) = true /\
   generate_sql_script Samples.one_item (py "doc 1-a") d
   = (Ok (py "-- Contrato com URL do PDF 's3://compras-ia-np/Contratos/doc 1-a.pdf' já existe no banco de dados (ID=7). Nenhuma ação realizada.",
          Samples.one_item), d) /\
   comment_only (py "-- Contrato com URL do PDF 's3://compras-ia-np/Contratos/doc 1-a.pdf' já existe no banco de dados (ID=7). Nenhuma ação realizada.")
   = true).
Proof.
  intros c d. split.
  - split; [vm_compute; reflexivity|]. split; [vm_compute; reflexivity|].
    apply (@generate_sql_script_noop_is_comment
             Cases.only_invalid Cases.only_invalid (py "doc 1-a.pdf")
             (py "-- Contrato de doc 1-a.pdf não possui itens válidos. Nenhuma ação realizada.")
             c c).
    + vm_compute; reflexivity.
    + vm_compute; reflexivity.
    + left. vm_compute; reflexivity.
  - split; [vm_compute; reflexivity|]. split; [vm_compute; reflexivity|].
    apply (@generate_sql_script_noop_is_comment
             Samples.one_item Samples.one_item (py "doc 1-a")
             (py "-- Contrato com URL do PDF 's3://compras-ia-np/Contratos/doc 1-a.pdf' já existe no banco de dados (ID=7). Nenhuma ação realizada.")
             d d).
    + vm_compute; reflexivity.
    + vm_compute; reflexivity.
    + right. vm_compute; reflexivity.
Defined.

(** C6.  On a file name with a line break neither return gives a comment:
    the file name is pasted into the comment as it comes, the comment ends
    at the line break, and the INSERT that follows in the name is a
    statement of the script, against the remark of the source on that very
    return.  Cut into commands as [execute_sql_script] does after a
    refusal, the first script has the INSERT as its first command. *)
Theorem generate_sql_script_comment_broken_by_file_name :
  let filename := Samples.two_line_name in
  let c := Samples.connect Samples.catalogue [] in
  let d := Samples.connect (Cases.stored (url_of filename)) [] in
  let first_script :=
    py "-- Contrato de a" ++ [newline]
    ++ py "INSERT INTO precos.itens DEFAULT VALUES;.pdf não possui itens válidos. Nenhuma ação realizada." in
  let second_script :=
    py "-- Contrato com URL do PDF 's3://compras-ia-np/Contratos/a" ++ [newline]
    ++ py "INSERT INTO precos.itens DEFAULT VALUES;.pdf' já existe no banco de dados (ID=7). Nenhuma ação realizada." in
  filter (valid_item (visible c)) (Contrato.itens Cases.only_invalid) = [] /\
  generate_sql_script Cases.only_invalid filename c
  = (Ok (first_script, Cases.only_invalid), c) /\
  comment_only first_script = false /\
  split_commands first_script
  = [ py "-- Contrato de a" ++ [newline]
      ++ py "INSERT INTO precos.itens DEFAULT VALUES";
      py ".pdf não possui itens válidos. Nenhuma ação realizada." ] /\
  url_exists (visible d) (url_of filename) = true /\
  generate_sql_script Samples.one_item filename d
  = (Ok (second_script, Samples.one_item), d) /\
  comment_only second_script = false.
Proof. evaluate. Qed.

(* ================================================================== *)
(** * The attachment URL, in all three functions *)
(* ================================================================== *)

Lemma has_anexo_field (expected : text) (v : value) :
  has_anexo expected v -> field "anexo_contrato" (Some v) = Some (VStr expected).
Proof. intros [d [-> H]]. exact H. Qed.

(** C1 (amended).  Every object [analyze_with_gemini] or
    [try_repair_truncated_json] returns has its [anexo_contrato] equal to
    the URL computed from the file name (the base name of the PDF path;
    documento.pdf when the repair has no path), whatever the model wrote.
    [generate_sql_script] sets [url_pdf_s3] to the URL computed from its
    file name, with [.pdf] appended when the name does not end with it,
    only when it returns the insert script; when it returns one of its
    two comments the contract keeps the URL it came with. *)
Theorem attachment_url_is_recomputed :
  (forall raw_output pdf_path,
      analyze_with_gemini raw_output pdf_path <> None ->
      field "anexo_contrato" (analyze_with_gemini raw_output pdf_path)
      = Some (VStr (py "s3://compras-ia-np/Contratos/" ++ basename pdf_path)))
  /\
  (forall current_pdf_path raw_response,
      try_repair_truncated_json current_pdf_path raw_response <> None ->
      field "anexo_contrato"
        (try_repair_truncated_json current_pdf_path raw_response)
      = Some (VStr (py "s3://compras-ia-np/Contratos/"
                    ++ repair_filename current_pdf_path)))
  /\
  (forall contrato filename c script contrato' c',
      generate_sql_script contrato filename c = (Ok (script, contrato'), c') ->
      (filter (valid_item (visible c)) (Contrato.itens contrato) = []
       \/ url_exists (visible c) (url_of filename) = true ->
       contrato' = contrato)
      /\
      (filter (valid_item (visible c)) (Contrato.itens contrato) <> [] ->
       url_exists (visible c) (url_of filename) = false ->
       contrato'
       = Contrato.set_url_pdf_s3
           (Some (py "s3://compras-ia-np/Contratos/" ++ pdf_filename_of filename))
           contrato
       /\ Contrato.url_pdf_s3 contrato'
          = Some (py "s3://compras-ia-np/Contratos/"
                  ++ pdf_filename_of filename))).
Proof.
  split; [|split].
  - intros raw_output pdf_path Hne.
    destruct (analyze_with_gemini raw_output pdf_path) as [v|] eqn:E;
      [|congruence].
    change (py "s3://compras-ia-np/Contratos/" ++ basename pdf_path)
      with (expected_anexo (basename pdf_path)).
    apply has_anexo_field. exact (analyze_with_gemini_anexo _ _ E).
  - intros current_pdf_path raw_response Hne.
    destruct (try_repair_truncated_json current_pdf_path raw_response)
      as [v|] eqn:E; [|congruence].
    change (py "s3://compras-ia-np/Contratos/"
            ++ repair_filename current_pdf_path)
      with (expected_anexo (repair_filename current_pdf_path)).
    apply has_anexo_field.
    exact (try_repair_truncated_json_anexo _ _ E).
  - intros contrato filename c script contrato' c' H.
    apply generate_sql_script_spec in H as [_ Hspec].
    destruct Hspec
      as [(He & -> & _)|[(Hne & Hex & -> & _)|(Hne & Hno & -> & _)]].
    + split; [reflexivity|congruence].
    + split; [reflexivity|congruence].
    + split; [intros [He|He]; congruence|].
      intros _ _. split; reflexivity.
Qed.

Lemma attachment_url_witness :
  analyze_with_gemini (Some Samples.sparse_object) (py "/in/doc 1-a.pdf")
  <> None /\
  field "anexo_contrato"
    (analyze_with_gemini (Some Samples.sparse_object) (py "/in/doc 1-a.pdf"))
  = Some (VStr (py "s3://compras-ia-np/Contratos/doc 1-a.pdf")).
Proof.
  split; [vm_compute; discriminate|].
  apply (proj1 attachment_url_is_recomputed
           (Some Samples.sparse_object) (py "/in/doc 1-a.pdf")).
  vm_compute; discriminate.
Defined.

(** C1 as stated fails for [generate_sql_script]: a contract without a
    valid item comes back with the URL it arrived with, not the computed
    one. *)
Lemma url_kept_counterexample :
  let c := Samples.connect Samples.catalogue [] in
  generate_sql_script Samples.foreign_url (py "doc.pdf") c
  = (Ok (no_valid_items_comment (py "doc.pdf"), Samples.foreign_url), c) /\
  Contrato.url_pdf_s3 Samples.foreign_url
  = Some (py "s3://elsewhere/said-the-model.pdf") /\
  Contrato.url_pdf_s3 Samples.foreign_url
  <> Some (py "s3://compras-ia-np/Contratos/doc.pdf").
Proof.
  intros c.
  split; [vm_compute; reflexivity|]. split; [vm_compute; reflexivity|].
  intros H. apply (f_equal (fun o => match o with
                                     | Some s => text_eqb s (py "s3://compras-ia-np/Contratos/doc.pdf")
                                     | None => false
                                     end)) in H.
  vm_compute in H. discriminate H.
Qed.

(* ================================================================== *)
(** * White space around a JSON text *)
(* ================================================================== *)

Lemma space_is_plain (w : ascii) : isspace w = true -> plain_space w.
Proof.
  destruct w as [[] [] [] [] [] [] [] []]; intros H;
    try discriminate H; repeat split.
Qed.

Lemma space_starts_no_token (w : ascii) (r : text) :
  isspace w = true -> json_ws w = false -> next_token (w :: r) = None.
Proof.
  destruct w as [[] [] [] [] [] [] [] []]; intros H1 H2;
    try discriminate H1; try discriminate H2; reflexivity.
Qed.

Lemma startswith_snoc (p s : text) (w : ascii) :
  forallb (fun x => negb (Ascii.eqb x w)) p = true ->
  startswith p (s ++ [w]) = startswith p s.
Proof.
  revert s. induction p as [|x p IH]; intros s H; [reflexivity|].
  simpl in H. apply andb_true_iff in H as [Hx Hp].
  apply negb_true_iff in Hx.
  destruct s as [|y s]; simpl.
  - now rewrite Hx.
  - now rewrite IH.
Qed.

Lemma forallb_sub (w : ascii) (a b c : text) :
  forallb (fun x => negb (Ascii.eqb x w)) (a ++ b ++ c) = true ->
  forallb (fun x => negb (Ascii.eqb x w)) b = true.
Proof.
  rewrite !forallb_app. intros H.
  apply andb_true_iff in H as [_ H]. now apply andb_true_iff in H as [H _].
Qed.

Lemma span_digits_snoc (s : text) (w : ascii) :
  isdigit w = false -> span_digits (s ++ [w]) = span_digits s.
Proof.
  intros Hw. induction s as [|c r IH]; simpl.
  - now rewrite Hw.
  - destruct (isdigit c); auto.
Qed.

Lemma span_digits_le (s : text) : span_digits s <= length s.
Proof.
  induction s as [|c r IH]; simpl; [lia|].
  destruct (isdigit c); lia.
Qed.

Lemma scan_int_snoc (s : text) (w : ascii) :
  plain_space w -> scan_int (s ++ [w]) = scan_int s.
Proof.
  intros (_&_&_&_&_& Hd & H0 &_).
  destruct s as [|c r]; simpl.
  - now rewrite H0, Hd.
  - now rewrite span_digits_snoc.
Qed.

Lemma scan_int_le (s : text) (n : nat) : scan_int s = Some n -> n <= length s.
Proof.
  destruct s as [|c r]; simpl; [discriminate|].
  pose proof (span_digits_le r).
  destruct (Ascii.eqb c "0"); [intros [= <-]; lia|].
  destruct (isdigit c); [intros [= <-]; lia|discriminate].
Qed.

Lemma scan_frac_snoc (s : text) (w : ascii) :
  plain_space w -> scan_frac (s ++ [w]) = scan_frac s.
Proof.
  intros (_&_&_&_&_& Hd & _ & Hdot &_).
  destruct s as [|c r]; simpl.
  - now rewrite Hdot.
  - now rewrite span_digits_snoc.
Qed.

Lemma scan_frac_le (s : text) : scan_frac s <= length s.
Proof.
  destruct s as [|c r]; simpl; [lia|].
  pose proof (span_digits_le r).
  destruct (Ascii.eqb c "."); [|lia].
  destruct (span_digits r); lia.
Qed.

Lemma scan_exp_snoc (s : text) (w : ascii) :
  plain_space w -> scan_exp (s ++ [w]) = scan_exp s.
Proof.
  intros (_&_&_&_&_& Hd & _ & _ & He & HE & Hm & Hp & _).
  destruct s as [|c [|sg r]]; simpl.
  - now rewrite He, HE.
  - rewrite Hp, Hm, Hd. simpl.
    now destruct (Ascii.eqb c "e" || Ascii.eqb c "E").
  - rewrite !span_digits_snoc by assumption.
    change (isdigit sg) with (isdigit sg).
    destruct (Ascii.eqb c "e" || Ascii.eqb c "E"); [|reflexivity].
    destruct (Ascii.eqb sg "+" || Ascii.eqb sg "-"); [reflexivity|].
    destruct (isdigit sg); [|reflexivity].
    reflexivity.
Qed.

Lemma scan_exp_le (s : text) : scan_exp s <= length s.
Proof.
  destruct s as [|c [|sg r]]; simpl; try lia.
  - destruct (Ascii.eqb c "e" || Ascii.eqb c "E"); lia.
  - pose proof (span_digits_le r).
    destruct (Ascii.eqb c "e" || Ascii.eqb c "E"); [|lia].
    destruct (Ascii.eqb sg "+" || Ascii.eqb sg "-").
    + destruct (span_digits r); lia.
    + destruct (isdigit sg); lia.
Qed.

Lemma skipn_snoc (n : nat) (s : text) (w : ascii) :
  n <= length s -> skipn n (s ++ [w]) = skipn n s ++ [w].
Proof.
  intros H. rewrite skipn_app.
  replace (n - length s) with 0 by lia. reflexivity.
Qed.

Lemma firstn_snoc (n : nat) (s : text) (w : ascii) :
  n <= length s -> firstn n (s ++ [w]) = firstn n s.
Proof.
  intros H. rewrite firstn_app.
  replace (n - length s) with 0 by lia. simpl. apply app_nil_r.
Qed.

Lemma scan_unsigned_snoc (s : text) (w : ascii) :
  plain_space w -> scan_unsigned (s ++ [w]) = scan_unsigned s.
Proof.
  intros Hw. unfold scan_unsigned. rewrite scan_int_snoc by assumption.
  destruct (scan_int s) as [n|] eqn:En; [|reflexivity].
  apply scan_int_le in En.
  rewrite skipn_snoc by assumption.
  rewrite scan_frac_snoc by assumption.
  pose proof (scan_frac_le (skipn n s)).
  rewrite skipn_snoc by assumption.
  now rewrite scan_exp_snoc.
Qed.

Lemma scan_unsigned_le (s : text) (n : nat) :
  scan_unsigned s = Some n -> n <= length s.
Proof.
  unfold scan_unsigned.
  destruct (scan_int s) as [k|] eqn:Ek; [|discriminate].
  apply scan_int_le in Ek.
  pose proof (scan_frac_le (skipn k s)) as Hf.
  pose proof (scan_exp_le (skipn (scan_frac (skipn k s)) (skipn k s))) as He.
  rewrite !length_skipn in *.
  intros [= <-]. lia.
Qed.

Lemma scan_number_unsigned (s : text) :
  scan_number s
  = match s with
    | c :: r =>
        if Ascii.eqb c "-"
        then option_map S (scan_unsigned r) else scan_unsigned s
    | [] => scan_unsigned s
    end.
Proof.
  unfold scan_number, scan_unsigned.
  destruct s as [|c r]; [reflexivity|].
  destruct (Ascii.eqb c "-").
  - destruct (scan_int r); reflexivity.
  - destruct (scan_int (c :: r)); reflexivity.
Qed.

Lemma scan_number_snoc (s : text) (w : ascii) :
  plain_space w -> scan_number (s ++ [w]) = scan_number s.
Proof.
  intros Hw. rewrite !scan_number_unsigned.
  destruct s as [|c r].
  - simpl app. pose proof Hw as (_&_&_&_&_&_&_&_&_&_& Hm & _).
    rewrite Hm. exact (scan_unsigned_snoc [] Hw).
  - simpl app. cbv beta iota. destruct (Ascii.eqb c "-").
    + rewrite (scan_unsigned_snoc r Hw). reflexivity.
    + exact (scan_unsigned_snoc (c :: r) Hw).
Qed.

Lemma scan_number_le (s : text) (n : nat) :
  scan_number s = Some n -> n <= length s.
Proof.
  rewrite scan_number_unsigned.
  destruct s as [|c r].
  - apply scan_unsigned_le.
  - destruct (Ascii.eqb c "-").
    + destruct (scan_unsigned r) as [k|] eqn:E; [|discriminate].
      apply scan_unsigned_le in E. intros [= <-]. simpl. lia.
    + apply scan_unsigned_le.
Qed.

Lemma hex4_space (a b c w : ascii) : hexval w = None -> hex4 a b c w = None.
Proof.
  intros H. unfold hex4. rewrite H.
  destruct (hexval a), (hexval b), (hexval c); reflexivity.
Qed.

Lemma scan_string_unfold (r : text) :
  scan_string r
  = match r with
    | [] => None
    | c :: r1 =>
        if Ascii.eqb c dquote then Some ([], 1)
        else if Ascii.eqb c backslash then
          match r1 with
          | e :: r2 =>
              if Ascii.eqb e "u" then
                match r2 with
                | h1 :: h2 :: h3 :: h4 :: r3 =>
                    match hex4 h1 h2 h3 h4 with
                    | Some n => if n <? 256
                                then cons_str (ascii_of_nat n) 6 (scan_string r3)
                                else None
                    | None => None
                    end
                | _ => None
                end
              else
                match unescape e with
                | Some x => cons_str x 2 (scan_string r2)
                | None => None
                end
          | [] => None
          end
        else if nat_of_ascii c <? 32 then None
        else cons_str c 1 (scan_string r1)
    end.
Proof. destruct r; reflexivity. Qed.

Lemma scan_string_snoc (w : ascii) :
  plain_space w ->
  forall n r, length r <= n -> scan_string (r ++ [w]) = scan_string r.
Proof.
  intros (Hq & Hb & Hu & Hun & Hhex & _).
  assert (Hbase : scan_string [w] = None).
  { rewrite scan_string_unfold. rewrite Hq, Hb.
    now destruct (nat_of_ascii w <? 32). }
  induction n as [|n IH]; intros r Hn.
  - destruct r; [exact Hbase|simpl in Hn; lia].
  - destruct r as [|c r1]; [exact Hbase|].
    simpl in Hn.
    rewrite (scan_string_unfold ((c :: r1) ++ [w])).
    rewrite (scan_string_unfold (c :: r1)).
    simpl app. cbv beta iota.
    destruct (Ascii.eqb c dquote); [reflexivity|].
    destruct (Ascii.eqb c backslash).
    + destruct r1 as [|e r2]; simpl app; cbv beta iota.
      { now rewrite Hu, Hun. }
      simpl in Hn.
      destruct (Ascii.eqb e "u").
      * destruct r2 as [|h1 [|h2 [|h3 [|h4 r3]]]]; simpl app; cbv beta iota;
          try reflexivity.
        { now rewrite hex4_space. }
        simpl in Hn. rewrite (IH r3) by lia. reflexivity.
      * rewrite (IH r2) by lia. reflexivity.
    + rewrite (IH r1) by lia. reflexivity.
Qed.

Lemma next_token_snoc (c w : ascii) (r : text) :
  isspace w = true -> next_token (c :: r ++ [w]) = next_token (c :: r).
Proof.
  intros Hs. pose proof (space_is_plain _ Hs) as Hw.
  assert (Hlit : forall a b k,
             py "nulltruefalseNaN-Infinity" = a ++ k ++ b ->
             startswith k (c :: r ++ [w]) = startswith k (c :: r)).
  { intros a b k Hk. apply (startswith_snoc k (c :: r)).
    destruct Hw as (_&_&_&_&_&_&_&_&_&_&_&_& Hall).
    rewrite Hk in Hall. exact (forallb_sub _ _ _ _ Hall). }
  unfold next_token.
  rewrite (scan_string_snoc Hw (n := length r)) by lia.
  rewrite (Hlit [] (py "truefalseNaN-Infinity") (py "null")) by reflexivity.
  rewrite (Hlit (py "null") (py "falseNaN-Infinity") (py "true")) by reflexivity.
  rewrite (Hlit (py "nulltrue") (py "NaN-Infinity") (py "false")) by reflexivity.
  rewrite (Hlit (py "nulltruefalse") (py "-Infinity") (py "NaN")) by reflexivity.
  rewrite (Hlit (py "nulltruefalseNaN-") [] (py "Infinity")) by reflexivity.
  rewrite (Hlit (py "nulltruefalseNaN") [] (py "-Infinity")) by reflexivity.
  change (c :: r ++ [w]) with ((c :: r) ++ [w]).
  rewrite scan_number_snoc by assumption.
  destruct (scan_number (c :: r)) as [n|] eqn:En; [|reflexivity].
  apply scan_number_le in En.
  now rewrite firstn_snoc.
Qed.

Lemma lex_from_cons (k : nat) (c : ascii) (r : text) :
  lex_from k (c :: r)
  = match k with
    | S k' => lex_from k' r
    | O => if json_ws c then lex_from 0 r
           else match next_token (c :: r) with
                | Some (t, n) => option_map (cons t) (lex_from (n - 1) r)
                | None => None
                end
    end.
Proof. reflexivity. Qed.

(** White space at the end of a text does not change its tokens. *)
Lemma lex_from_snoc (w : ascii) (s : text) :
  isspace w = true ->
  forall k ts, lex_from k (s ++ [w]) = Some ts -> lex_from k s = Some ts.
Proof.
  intros Hw. induction s as [|c r IH]; intros k ts.
  - simpl app. rewrite lex_from_cons. destruct k; [|auto].
    destruct (json_ws w) eqn:Ej; [auto|].
    rewrite space_starts_no_token by assumption. discriminate.
  - simpl app. rewrite !lex_from_cons. destruct k as [|k]; [|apply IH].
    destruct (json_ws c); [apply IH|].
    rewrite next_token_snoc by assumption.
    destruct (next_token (c :: r)) as [[t n]|]; [|discriminate].
    destruct (lex_from (n - 1) (r ++ [w])) as [l|] eqn:El; [|discriminate].
    rewrite (IH _ _ El). auto.
Qed.

Lemma lex_lstrip (s : text) (ts : list token) :
  lex s = Some ts -> lex (lstrip s) = Some ts.
Proof.
  unfold lex. induction s as [|c r IH]; [auto|].
  simpl lstrip. destruct (isspace c) eqn:Es; [|auto].
  rewrite lex_from_cons. destruct (json_ws c) eqn:Ej; [exact IH|].
  rewrite space_starts_no_token by assumption. discriminate.
Qed.

Lemma lex_rstrip (s : text) (ts : list token) :
  lex s = Some ts -> lex (rstrip s) = Some ts.
Proof.
  unfold rstrip. rewrite <- (rev_involutive s) at 1.
  generalize (rev s) as l. clear s.
  induction l as [|w l IH]; [auto|].
  simpl rev at 1. simpl lstrip.
  destruct (isspace w) eqn:Es; [|auto].
  intros H. apply IH. unfold lex in *. eapply lex_from_snoc; eauto.
Qed.

(** [json.loads] accepts a stripped text as it accepts the text. *)
Lemma json_loads_strip (s : text) (v : value) :
  json_loads s = Some v -> json_loads (strip s) = Some v.
Proof.
  unfold json_loads, strip.
  destruct (lex s) as [ts|] eqn:E; [|discriminate].
  apply lex_lstrip in E. apply lex_rstrip in E. now rewrite E.
Qed.

(* ================================================================== *)
(** * Cleaning a fenced answer *)
(* ================================================================== *)

Lemma strip_fenced (x : text) : strip (fence ++ x ++ fence) = fence ++ x ++ fence.
Proof.
  unfold strip.
  change (fence ++ x ++ fence) with ("`"%char :: (py "``" ++ x ++ fence)).
  rewrite lstrip_nonspace by reflexivity.
  change ("`"%char :: (py "``" ++ x ++ fence)) with (fence ++ x ++ fence).
  replace (fence ++ x ++ fence) with ((fence ++ x ++ py "``") ++ ["`"%char]).
  - now rewrite rstrip_nonspace.
  - rewrite <- !app_assoc. reflexivity.
Qed.

Lemma replace_first_prefix (p new y : text) :
  p <> [] -> replace_first p new (p ++ y) = new ++ y.
Proof.
  destruct p as [|c p]; [congruence|]. intros _.
  change (replace_first (c :: p) new ((c :: p) ++ y))
    with (if startswith (c :: p) ((c :: p) ++ y)
          then new ++ skipn (length (c :: p)) ((c :: p) ++ y)
          else c :: replace_first (c :: p) new (p ++ y)).
  rewrite startswith_app. f_equal.
  rewrite skipn_app, skipn_all, Nat.sub_diag. reflexivity.
Qed.

Lemma rfind_from_short (p s : text) (i : nat) :
  length s < length p -> rfind_from p i s = None.
Proof.
  revert i. induction s as [|c r IH]; intros i H; [reflexivity|].
  cbn [rfind_from]. simpl in H. rewrite IH by lia.
  now rewrite startswith_short.
Qed.

Lemma rfind_from_suffix (p x : text) (i : nat) :
  p <> [] -> rfind_from p i (x ++ p) = Some (i + length x).
Proof.
  intros Hp. revert i. induction x as [|c x IH]; intros i.
  - simpl app. destruct p as [|c p]; [congruence|].
    cbn [rfind_from]. rewrite rfind_from_short by (simpl; lia).
    replace (c :: p) with ((c :: p) ++ []) at 2 by apply app_nil_r.
    rewrite startswith_app. simpl. f_equal. lia.
  - simpl app. cbn [rfind_from]. rewrite IH. simpl. f_equal. lia.
Qed.

Lemma cut_last_suffix (p x : text) : p <> [] -> cut_last p (x ++ p) = x.
Proof.
  intros Hp. unfold cut_last, rfind. rewrite rfind_from_suffix by assumption.
  simpl. rewrite firstn_app, firstn_all, Nat.sub_diag. simpl.
  apply app_nil_r.
Qed.

Lemma replace_absent (p new s : text) :
  re_search (startswith p) s = false -> replace p new s = s.
Proof.
  unfold replace. induction s as [|c r IH]; [reflexivity|].
  change (re_search (startswith p) (c :: r))
    with (startswith p (c :: r) || re_search (startswith p) r).
  intros H. apply orb_false_iff in H as [H1 H2].
  cbn [replace_from]. rewrite H1. now rewrite IH.
Qed.

Lemma replace_fence_prefix (t : text) :
  replace fence [] (fence ++ t) = replace fence [] t.
Proof. reflexivity. Qed.

Lemma json_text_not_tagged (t : text) (v : value) :
  json_loads t = Some v -> startswith (py "json") (t ++ fence) = false.
Proof.
  destruct t as [|c r]; [reflexivity|].
  intros H. simpl app.
  change (startswith (py "json") (c :: r ++ fence))
    with (Ascii.eqb "j" c && startswith (py "son") (r ++ fence)).
  destruct (Ascii.eqb "j" c) eqn:E; [|reflexivity].
  apply Ascii.eqb_eq in E. subst c. discriminate H.
Qed.

Lemma clean_response_tagged (t : text) :
  re_search (startswith fence) t = false ->
  clean_response (fence_json ++ t ++ fence) = strip t.
Proof.
  intros Hno. unfold clean_response. cbv zeta.
  assert (E : fence_json ++ t ++ fence = fence ++ (py "json" ++ t) ++ fence)
    by reflexivity.
  rewrite E, strip_fenced, <- E.
  rewrite startswith_app.
  rewrite replace_first_prefix by discriminate. simpl app.
  rewrite endswith_app.
  rewrite cut_last_suffix by discriminate.
  now rewrite replace_absent.
Qed.

Lemma clean_response_untagged (t : text) (v : value) :
  json_loads t = Some v ->
  re_search (startswith fence) t = false ->
  clean_response (fence ++ t ++ fence) = strip t.
Proof.
  intros Hj Hno. unfold clean_response. cbv zeta.
  rewrite strip_fenced.
  assert (Htag : startswith fence_json (fence ++ t ++ fence) = false).
  { change (startswith fence_json (fence ++ t ++ fence))
      with (startswith (py "json") (t ++ fence)).
    eapply json_text_not_tagged; eauto. }
  rewrite Htag.
  rewrite app_assoc. rewrite endswith_app.
  rewrite cut_last_suffix by discriminate.
  rewrite replace_fence_prefix.
  now rewrite replace_absent.
Qed.

(** C8 (amended).  For every well-formed JSON text that holds no fence
    marker, wrapped between a leading fence marker, tagged json or not,
    and a trailing fence marker, cleaning the wrapped text and parsing the
    result gives exactly the object that parsing the text gives. *)
Theorem fenced_json_parses_as_unwrapped (t : text) (v : value) :
  json_loads t = Some v ->
  re_search (startswith fence) t = false ->
  json_loads (clean_response (py "```json" ++ t ++ py "```")) = Some v /\
  json_loads (clean_response (py "```" ++ t ++ py "```")) = Some v.
Proof.
  intros Hj Hno. split.
  - change (py "```json") with fence_json. change (py "```") with fence.
    rewrite clean_response_tagged by assumption.
    now apply json_loads_strip.
  - change (py "```") with fence.
    rewrite (clean_response_untagged _ Hj Hno).
    now apply json_loads_strip.
Qed.

Lemma fenced_json_witness :
  json_loads (py "
[1, 2]
") = Some (VList [VNum (py "1"); VNum (py "2")]) /\
  re_search (startswith fence) (py "
[1, 2]
") = false /\
  json_loads (clean_response (py "```json" ++ py "
[1, 2]
" ++ py "```")) = Some (VList [VNum (py "1"); VNum (py "2")]).
Proof.
  assert (Hj : json_loads (py "
[1, 2]
") = Some (VList [VNum (py "1"); VNum (py "2")]))
    by (vm_compute; reflexivity).
  assert (Hno : re_search (startswith fence) (py "
[1, 2]
") = false) by (vm_compute; reflexivity).
  split; [exact Hj|]. split; [exact Hno|].
  exact (proj1 (@fenced_json_parses_as_unwrapped _ _ Hj Hno)).
Defined.

(** C8 as stated fails on a well-formed object whose string holds a fence
    marker: cleaning removes the marker from inside the string. *)
Lemma fence_inside_counterexample :
  json_loads Samples.fence_inside
  = Some (VDict [(py "a", VStr (py "```"))]) /\
  json_loads (clean_response (py "```json" ++ Samples.fence_inside ++ py "```"))
  = Some (VDict [(py "a", VStr [])]) /\
  json_loads (clean_response (py "```json" ++ Samples.fence_inside ++ py "```"))
  <> json_loads Samples.fence_inside.
Proof.
  split; [vm_compute; reflexivity|]. split; [vm_compute; reflexivity|].
  vm_compute. discriminate.
Qed.

(* ================================================================== *)
(** * [validate_json_structure] *)
(* ================================================================== *)

Lemma dict_get_set_other (k k' : text) (v : value) (d : dict) :
  text_eqb k k' = false -> dict_get k (dict_set k' v d) = dict_get k d.
Proof.
  intros Hk. induction d as [|[k0 v0] d IH]; simpl.
  - now rewrite Hk.
  - destruct (text_eqb k' k0) eqn:E; simpl.
    + apply text_eqb_eq in E. subst k0. now rewrite Hk.
    + destruct (text_eqb k k0); auto.
Qed.

Lemma text_eqb_sym (a b : text) : text_eqb a b = text_eqb b a.
Proof.
  revert b. induction a as [|x a IH]; intros [|y b]; simpl; try reflexivity.
  now rewrite IH, Ascii.eqb_sym.
Qed.

(** Which keys an object has does not depend on the value stored under a
    key. *)
Lemma contains_dict_set (k k' : text) (v v' : value) (d : dict) :
  Validate.contains k (VDict (dict_set k' v d))
  = Validate.contains k (VDict (dict_set k' v' d)).
Proof.
  simpl. destruct (text_eqb k k') eqn:E.
  - apply text_eqb_eq in E. subst k'. now rewrite !dict_get_set.
  - now rewrite !dict_get_set_other by exact E.
Qed.

Lemma missing_in_ext (keys : list text) (v v' : value) :
  (forall k, Validate.contains k v = Validate.contains k v') ->
  Validate.missing_in keys v = Validate.missing_in keys v'.
Proof.
  intros H. induction keys as [|k keys IH]; simpl; [reflexivity|].
  now rewrite H, IH.
Qed.

Lemma missing_under_other (key k' : text) (keys : list text) (v v' : value)
  (d : dict) :
  text_eqb key k' = false ->
  Validate.missing_under key keys (VDict (dict_set k' v d))
  = Validate.missing_under key keys (VDict (dict_set k' v' d)).
Proof.
  intros Hk. unfold Validate.missing_under.
  rewrite (contains_dict_set key k' v v' d).
  unfold Validate.subscript.
  now rewrite !dict_get_set_other by exact Hk.
Qed.

(** X5.  [validate_json_structure] looks at the first item only: the
    items after it do not change what it returns. *)
Theorem validate_checks_first_item_only (d : dict) (first : value)
  (rest : list value) :
  Validate.validate_json_structure
    (VDict (dict_set (py "itens") (VList (first :: rest)) d))
  = Validate.validate_json_structure
      (VDict (dict_set (py "itens") (VList [first]) d)).
Proof.
  unfold Validate.validate_json_structure.
  rewrite (missing_in_ext Validate.expected_keys
             (VDict (dict_set (py "itens") (VList (first :: rest)) d))
             (VDict (dict_set (py "itens") (VList [first]) d)))
    by (intros k; apply contains_dict_set).
  rewrite (@missing_under_other (py "orgao_contratante") (py "itens")
             Validate.orgao_keys (VList (first :: rest)) (VList [first]) d)
    by (vm_compute; reflexivity).
  rewrite (@missing_under_other (py "empresa_contratada") (py "itens")
             Validate.empresa_keys (VList (first :: rest)) (VList [first]) d)
    by (vm_compute; reflexivity).
  assert (Hi : Validate.missing_in_first_item
                 (VDict (dict_set (py "itens") (VList (first :: rest)) d))
               = Validate.missing_in_first_item
                   (VDict (dict_set (py "itens") (VList [first]) d))).
  { unfold Validate.missing_in_first_item, Validate.contains,
      Validate.subscript.
    now rewrite !dict_get_set. }
  now rewrite Hi.
Qed.

Lemma missing_in_dict (keys : list text) (d : dict) :
  Validate.missing_in keys (VDict d)
  = Ok (filter (fun k => negb (has_key d k)) keys).
Proof.
  induction keys as [|k keys IH]; [reflexivity|].
  simpl Validate.missing_in. rewrite IH. simpl. unfold has_key.
  now destruct (dict_get k d).
Qed.

Lemma missing_in_scalar (keys : list text) (v : value) :
  scalar v = true -> keys <> [] ->
  Validate.missing_in keys v = Raise Validate.TypeError.
Proof.
  intros Hv Hk. destruct keys as [|k keys]; [congruence|].
  destruct v; try discriminate Hv; reflexivity.
Qed.

Lemma missing_in_raises (keys : list text) (v : value) (e : Validate.exn) :
  Validate.missing_in keys v = Raise e -> e = Validate.TypeError.
Proof.
  induction keys as [|k keys IH]; simpl; [discriminate|].
  destruct (Validate.contains k v) as [b|e'] eqn:E; simpl.
  - destruct (Validate.missing_in keys v) as [l|e'']; simpl;
      [discriminate|]. intros [= <-]. now apply IH.
  - intros [= <-]. destruct v; simpl in E; congruence.
Qed.

Lemma missing_under_raises (key : text) (keys : list text) (d : dict)
  (e : Validate.exn) :
  Validate.missing_under key keys (VDict d) = Raise e ->
  e = Validate.TypeError.
Proof.
  unfold Validate.missing_under. simpl.
  destruct (dict_get key d) as [v|]; simpl; [|discriminate].
  apply missing_in_raises.
Qed.

Lemma missing_under_scalar (key : text) (keys : list text) (d : dict)
  (v : value) :
  scalar v = true -> keys <> [] -> dict_get key d = Some v ->
  Validate.missing_under key keys (VDict d) = Raise Validate.TypeError.
Proof.
  intros Hv Hk Hd. unfold Validate.missing_under. simpl. rewrite Hd. simpl.
  now apply missing_in_scalar.
Qed.

(** X6.  When [orgao_contratante], [empresa_contratada] or the first item
    is [null], a boolean or a number, the validation raises TypeError
    instead of returning a message. *)
Theorem validate_raises_on_scalar_object (d : dict) (v : value) :
  scalar v = true ->
  dict_get (py "orgao_contratante") d = Some v
  \/ dict_get (py "empresa_contratada") d = Some v
  \/ (exists rest, dict_get (py "itens") d = Some (VList (v :: rest))) ->
  Validate.validate_json_structure (VDict d) = Raise Validate.TypeError.
Proof.
  intros Hv H. unfold Validate.validate_json_structure.
  rewrite missing_in_dict. cbn [Validate.bind].
  destruct (Validate.missing_under (py "orgao_contratante")
              Validate.orgao_keys (VDict d)) as [mo|e] eqn:Eo.
  2:{ apply missing_under_raises in Eo. now subst. }
  destruct H as [H|H].
  { rewrite (@missing_under_scalar (py "orgao_contratante")
               Validate.orgao_keys d v Hv) in Eo;
      [discriminate Eo|discriminate|exact H]. }
  cbn [Validate.bind].
  destruct (Validate.missing_under (py "empresa_contratada")
              Validate.empresa_keys (VDict d)) as [me|e] eqn:Ee.
  2:{ apply missing_under_raises in Ee. now subst. }
  destruct H as [H|[rest H]].
  { rewrite (@missing_under_scalar (py "empresa_contratada")
               Validate.empresa_keys d v Hv) in Ee;
      [discriminate Ee|discriminate|exact H]. }
  cbn [Validate.bind].
  unfold Validate.missing_in_first_item. simpl Validate.contains.
  rewrite H. cbn [Validate.bind Validate.subscript]. rewrite H.
  cbn [Validate.bind].
  rewrite missing_in_scalar; [reflexivity|exact Hv|discriminate].
Qed.

Lemma validate_raises_on_scalar_object_witness :
  Validate.validate_json_structure
    (VDict Cases.null_orgao)
  = Raise Validate.TypeError.
Proof.
  apply (@validate_raises_on_scalar_object
           Cases.null_orgao VNone).
  - reflexivity.
  - left. vm_compute. reflexivity.
Defined.

Lemma filter_nil_forallb {A} (f : A -> bool) (l : list A) :
  filter (fun x => negb (f x)) l = [] <-> forallb f l = true.
Proof.
  induction l as [|x l IH]; simpl; [tauto|].
  destruct (f x); simpl; [exact IH|]. split; discriminate.
Qed.

Lemma warning_not_ok (a b c d : list text) :
  @Ok Validate.exn text (Validate.warning a b c d) <> Ok Validate.ok_message.
Proof.
  intros H.
  apply (f_equal (fun r => match r with
                           | Ok m => hd " "%char m
                           | Raise _ => " "%char
                           end)) in H.
  vm_compute in H. discriminate H.
Qed.

(** X7.  For an object whose organisation and company are objects and
    whose item list is empty or starts with an object, the validation
    returns the success message exactly when every expected key is there:
    the eleven top-level keys, the three of the organisation, the two of
    the company and the nine of the first item. *)
Theorem validate_ok_iff_complete (d od ed : dict) (itens : list value) :
  dict_get (py "orgao_contratante") d = Some (VDict od) ->
  dict_get (py "empresa_contratada") d = Some (VDict ed) ->
  dict_get (py "itens") d = Some (VList itens) ->
  match itens with
  | [] | VDict _ :: _ => True
  | _ => False
  end ->
  Validate.validate_json_structure (VDict d) = Ok Validate.ok_message
  <->
  has_keys Validate.expected_keys (VDict d)
  && has_keys Validate.orgao_keys (VDict od)
  && has_keys Validate.empresa_keys (VDict ed)
  && match itens with
     | first :: _ => has_keys Validate.item_keys first
     | [] => true
     end = true.
Proof.
  intros Ho He Hi Hshape.
  unfold Validate.validate_json_structure, Validate.missing_under,
    Validate.missing_in_first_item.
  rewrite missing_in_dict. simpl Validate.contains.
  rewrite Ho, He, Hi. cbn [Validate.bind Validate.subscript].
  rewrite Ho, He, Hi. cbn [Validate.bind]. rewrite !missing_in_dict.
  cbn [Validate.bind].
  assert (Hitem :
    match itens with
    | first :: _ => Validate.missing_in Validate.item_keys first
    | [] => Ok []
    end
    = Ok (match itens with
          | VDict fd :: _ =>
              filter (fun k => negb (has_key fd k)) Validate.item_keys
          | _ => []
          end)).
  { destruct itens as [|[| | | | |fd] rest]; try contradiction;
      [reflexivity|apply missing_in_dict]. }
  rewrite Hitem. cbn [Validate.bind].
  set (mk := filter (fun k => negb (has_key d k)) Validate.expected_keys).
  set (mo := filter (fun k => negb (has_key od k)) Validate.orgao_keys).
  set (me := filter (fun k => negb (has_key ed k)) Validate.empresa_keys).
  set (mi := match itens with
             | VDict fd :: _ =>
                 filter (fun k => negb (has_key fd k)) Validate.item_keys
             | _ => []
             end).
  assert (Hk : mk = [] <-> has_keys Validate.expected_keys (VDict d) = true)
    by apply filter_nil_forallb.
  assert (Hmo : mo = [] <-> has_keys Validate.orgao_keys (VDict od) = true)
    by apply filter_nil_forallb.
  assert (Hme : me = [] <-> has_keys Validate.empresa_keys (VDict ed) = true)
    by apply filter_nil_forallb.
  assert (Hmi : mi = [] <-> match itens with
                            | first :: _ => has_keys Validate.item_keys first
                            | [] => true
                            end = true).
  { subst mi. destruct itens as [|[| | | | |fd] rest]; try contradiction;
      [tauto|apply filter_nil_forallb]. }
  clearbody mk mo me mi.
  rewrite !andb_true_iff, <- Hk, <- Hmo, <- Hme, <- Hmi.
  split.
  - intros H.
    destruct mk; [|now apply warning_not_ok in H].
    destruct mo; [|now apply warning_not_ok in H].
    destruct me; [|now apply warning_not_ok in H].
    destruct mi; [|now apply warning_not_ok in H].
    tauto.
  - intros [[[-> ->] ->] ->]. reflexivity.
Qed.

Lemma validate_ok_iff_complete_witness :
  Validate.validate_json_structure (VDict Cases.complete_object)
  = Ok Validate.ok_message.
Proof.
  apply (proj2 (@validate_ok_iff_complete Cases.complete_object
                  Cases.complete_orgao Cases.complete_empresa
                  Cases.complete_itens eq_refl eq_refl eq_refl I)).
  vm_compute; reflexivity.
Defined.

(* ================================================================== *)
(** * The parser does not read the attachment URL *)
(* ================================================================== *)

Lemma get_set_other (k : string) (k' : text) (v default : value) (d : dict) :
  text_eqb (py k) k' = false ->
  ContractParser.get (VDict (dict_set k' v d)) k default
  = ContractParser.get (VDict d) k default.
Proof.
  intros H. unfold ContractParser.get, dict_get_default.
  now rewrite dict_get_set_other.
Qed.

(** X1.  [ContractParser.parse] never reads [anexo_contrato]: whatever is
    stored under that key, and so whether or not [analyze_with_gemini]
    corrected it, the contract parsed from the object is the same (its
    URL comes from the key [url_pdf_s3]). *)
Theorem parse_ignores_anexo_contrato (d : dict) :
  (forall v,
      ContractParser.parse_data (VDict (dict_set k_anexo v d))
      = ContractParser.parse_data (VDict d)) /\
  (forall expected,
      ContractParser.parse_data (VDict (fix_anexo expected d))
      = ContractParser.parse_data (VDict d)).
Proof.
  assert (H : forall v,
             ContractParser.parse_data (VDict (dict_set k_anexo v d))
             = ContractParser.parse_data (VDict d)).
  { intros v. unfold ContractParser.parse_data.
    rewrite !get_set_other by (vm_compute; reflexivity).
    reflexivity. }
  split; [exact H|].
  intros expected. unfold fix_anexo.
  destruct (anexo_differs expected d); [apply H|reflexivity].
Qed.

(* ================================================================== *)
(** * Answers without a fence, and objects inside prose *)
(* ================================================================== *)

Lemma re_search_cons (P : text -> bool) (c : ascii) (r : text) :
  re_search P (c :: r) = P (c :: r) || re_search P r.
Proof. reflexivity. Qed.

Lemma re_search_suffix (P : text -> bool) (a b : text) :
  re_search P (a ++ b) = false -> re_search P b = false.
Proof.
  induction a as [|c a IH]; [auto|].
  simpl app. rewrite re_search_cons. intros H.
  apply orb_false_iff in H as [_ H]. auto.
Qed.

Lemma startswith_app_l (p a b : text) :
  startswith p a = true -> startswith p (a ++ b) = true.
Proof.
  intros H. apply startswith_prefix in H as [r ->].
  rewrite <- app_assoc. apply startswith_app.
Qed.

Lemma re_search_startswith_prefix (p a b : text) :
  re_search (startswith p) (a ++ b) = false ->
  re_search (startswith p) a = false.
Proof.
  induction a as [|c a IH].
  - simpl app. intros H. destruct p as [|x p]; [|reflexivity].
    destruct b; discriminate H.
  - simpl app. rewrite !re_search_cons. intros H.
    apply orb_false_iff in H as [H1 H2].
    rewrite (IH H2), orb_false_r.
    destruct (startswith p (c :: a)) eqn:E; [|reflexivity].
    apply (startswith_app_l _ _ b) in E. simpl app in E. congruence.
Qed.

Lemma rstrip_prefix (s : text) : exists ws, s = rstrip s ++ ws.
Proof.
  unfold rstrip. destruct (lstrip_suffix (rev s)) as [ws H].
  exists (rev ws).
  rewrite <- rev_app_distr, <- H. now rewrite rev_involutive.
Qed.

Lemma re_search_strip (p s : text) :
  re_search (startswith p) s = false ->
  re_search (startswith p) (strip s) = false.
Proof.
  intros H. unfold strip.
  destruct (lstrip_suffix s) as [ws Hws]. rewrite Hws in H.
  apply re_search_suffix in H.
  destruct (rstrip_prefix (lstrip s)) as [ws' Hws']. rewrite Hws' in H.
  now apply re_search_startswith_prefix in H.
Qed.

Lemma lstrip_idem (s : text) : lstrip (lstrip s) = lstrip s.
Proof.
  induction s as [|c r IH]; [reflexivity|].
  simpl. destruct (isspace c) eqn:E; [exact IH|].
  simpl. now rewrite E.
Qed.

Lemma rstrip_idem (s : text) : rstrip (rstrip s) = rstrip s.
Proof. unfold rstrip. now rewrite rev_involutive, lstrip_idem. Qed.

Lemma lstrip_app_nonspace (a : text) (c : ascii) (r : text) :
  isspace c = false -> lstrip (a ++ c :: r) = lstrip a ++ c :: r.
Proof.
  intros Hc. induction a as [|x a IH]; simpl.
  - now rewrite Hc.
  - destruct (isspace x); [exact IH|reflexivity].
Qed.

Lemma rstrip_app_nonspace (a : text) (c : ascii) (r : text) :
  isspace c = false -> rstrip (a ++ c :: r) = a ++ c :: rstrip r.
Proof.
  intros Hc. unfold rstrip. rewrite rev_app_distr. simpl rev.
  rewrite <- app_assoc. simpl app.
  rewrite lstrip_app_nonspace by exact Hc.
  rewrite rev_app_distr. simpl rev. rewrite rev_involutive.
  now rewrite <- app_assoc.
Qed.

(** A left-stripped text is empty or starts with a visible character, and
    the right strip leaves that character in place. *)
Lemma lstrip_rstrip_lstrip (s : text) :
  lstrip (rstrip (lstrip s)) = rstrip (lstrip s).
Proof.
  destruct (lstrip s) as [|c r] eqn:E; [reflexivity|].
  apply lstrip_head in E.
  change (c :: r) with ([] ++ c :: r).
  rewrite rstrip_app_nonspace by exact E. simpl. now rewrite E.
Qed.

Lemma strip_idem (s : text) : strip (strip s) = strip s.
Proof.
  unfold strip. now rewrite lstrip_rstrip_lstrip, rstrip_idem.
Qed.

Lemma endswith_suffix (p s : text) :
  endswith p s = true -> exists a, s = a ++ p.
Proof.
  unfold endswith. intros H. apply startswith_prefix in H as [r H].
  exists (rev r). apply (f_equal (@rev ascii)) in H.
  now rewrite rev_involutive, rev_app_distr, rev_involutive in H.
Qed.

Lemma re_search_found (p a b : text) :
  re_search (startswith p) (a ++ p ++ b) = true.
Proof.
  induction a as [|c a IH].
  - simpl app. destruct (p ++ b) eqn:E.
    + destruct p; [reflexivity|discriminate E].
    + rewrite re_search_cons, <- E, startswith_app. reflexivity.
  - simpl app. rewrite re_search_cons, IH. apply orb_true_r.
Qed.

Lemma clean_response_unfenced (raw : text) :
  re_search (startswith fence) raw = false ->
  clean_response raw = strip raw.
Proof.
  intros H. apply re_search_strip in H.
  unfold clean_response. cbv zeta.
  assert (Hj : startswith fence_json (strip raw) = false).
  { destruct (startswith fence_json (strip raw)) eqn:E; [|reflexivity].
    apply startswith_prefix in E as [r E].
    rewrite E in H.
    change (fence_json ++ r) with ([] ++ fence ++ (py "json" ++ r)) in H.
    now rewrite re_search_found in H. }
  rewrite Hj.
  assert (He : endswith fence (strip raw) = false).
  { destruct (endswith fence (strip raw)) eqn:E; [|reflexivity].
    apply endswith_suffix in E as [a E].
    rewrite E in H.
    replace (a ++ fence) with (a ++ fence ++ []) in H
      by (now rewrite app_nil_r).
    now rewrite re_search_found in H. }
  rewrite He.
  rewrite replace_absent by exact H.
  apply strip_idem.
Qed.

(** X2.  An answer that holds no fence marker is only stripped of the
    white space around it, and cleaning it a second time changes nothing
    more. *)
Theorem clean_response_without_fence (raw : text) :
  re_search (startswith fence) raw = false ->
  clean_response raw = strip raw /\
  clean_response (clean_response raw) = clean_response raw.
Proof.
  intros H. rewrite (clean_response_unfenced _ H). split; [reflexivity|].
  rewrite clean_response_unfenced by (now apply re_search_strip).
  apply strip_idem.
Qed.

Lemma clean_response_without_fence_witness :
  re_search (startswith fence) Cases.padded_object = false /\
  clean_response Cases.padded_object = q "{'a': 1}".
Proof.
  split; [vm_compute; reflexivity|].
  rewrite (proj1 (@clean_response_without_fence Cases.padded_object
                    ltac:(vm_compute; reflexivity))).
  vm_compute; reflexivity.
Defined.

Lemma count_app (c : ascii) (a b : text) :
  count c (a ++ b) = count c a + count c b.
Proof. unfold count. now rewrite filter_app, length_app. Qed.

Lemma count_rev (c : ascii) (a : text) : count c (rev a) = count c a.
Proof.
  induction a as [|x a IH]; [reflexivity|].
  simpl rev. rewrite count_app, IH. unfold count. simpl.
  destruct (Ascii.eqb c x); simpl; lia.
Qed.

Lemma drop_to_absent (c : ascii) (a r : text) :
  count c a = 0 -> drop_to c (a ++ c :: r) = Some (c :: r).
Proof.
  induction a as [|x a IH]; simpl.
  - now rewrite Ascii.eqb_refl.
  - unfold count. simpl. rewrite (Ascii.eqb_sym x c).
    destruct (Ascii.eqb c x); simpl; [discriminate|]. exact IH.
Qed.

Lemma upto_last_absent (c : ascii) (a r : text) :
  count c r = 0 -> upto_last c (a ++ c :: r) = Some (a ++ [c]).
Proof.
  intros H. unfold upto_last. rewrite rev_app_distr. simpl rev.
  rewrite <- app_assoc. simpl app.
  rewrite drop_to_absent by (now rewrite count_rev).
  simpl. f_equal. now rewrite rev_involutive.
Qed.

Lemma count_lstrip (c : ascii) (s : text) :
  count c s = 0 -> count c (lstrip s) = 0.
Proof.
  destruct (lstrip_suffix s) as [ws H]. rewrite H at 1.
  rewrite count_app. lia.
Qed.

Lemma count_rstrip (c : ascii) (s : text) :
  count c s = 0 -> count c (rstrip s) = 0.
Proof.
  destruct (rstrip_prefix s) as [ws H]. rewrite H at 1.
  rewrite count_app. lia.
Qed.

(** X3.  An object surrounded by prose is found: when the answer holds no
    fence marker, the text before the object no opening brace and the
    text after it no closing brace, [analyze_with_gemini] returns the
    object, with its attachment URL set. *)
Theorem analyze_finds_object_in_prose (pre body post pdf_path : text)
  (d : dict) :
  json_loads ("{"%char :: body ++ ["}"%char]) = Some (VDict d) ->
  count "{" pre = 0 -> count "}" post = 0 ->
  re_search (startswith fence) (pre ++ "{"%char :: body ++ "}"%char :: post)
  = false ->
  analyze_with_gemini (Some (pre ++ "{"%char :: body ++ "}"%char :: post))
    pdf_path
  = Some (VDict (fix_anexo (expected_anexo (basename pdf_path)) d)).
Proof.
  intros Hj Hpre Hpost Hf.
  set (raw := pre ++ "{"%char :: body ++ "}"%char :: post) in *.
  assert (Hs : strip raw
               = lstrip pre ++ "{"%char :: body ++ "}"%char :: rstrip post).
  { unfold strip, raw.
    rewrite lstrip_app_nonspace by reflexivity.
    replace (lstrip pre ++ "{"%char :: body ++ "}"%char :: post)
      with ((lstrip pre ++ "{"%char :: body) ++ "}"%char :: post)
      by (now rewrite <- app_assoc).
    rewrite rstrip_app_nonspace by reflexivity.
    now rewrite <- app_assoc. }
  assert (Hc : clean_response raw = strip raw)
    by (apply clean_response_unfenced; exact Hf).
  unfold analyze_with_gemini.
  assert (Hraw : nonempty raw = true).
  { unfold raw. destruct pre; reflexivity. }
  assert (Hne : nonempty (strip raw) = true).
  { rewrite Hs. destruct (lstrip pre); reflexivity. }
  rewrite Hraw, Hne. cbn [negb orb].
  rewrite Hc, Hne, all_space_strip. cbn [negb orb].
  assert (Hb : search_braces (strip raw) = Some ("{"%char :: body ++ ["}"%char])).
  { rewrite Hs. unfold search_braces.
    rewrite drop_to_absent by (now apply count_lstrip).
    rewrite upto_last_absent by (now apply count_rstrip).
    reflexivity. }
  rewrite Hb.
  rewrite (json_loads_strip _ Hj). reflexivity.
Qed.

Lemma analyze_finds_object_in_prose_witness :
  analyze_with_gemini
    (Some (Cases.prose_before
           ++ "{"%char :: Cases.object_body ++ "}"%char :: Cases.prose_after))
    (py "/in/doc.pdf")
  = Some (VDict (fix_anexo (expected_anexo (basename (py "/in/doc.pdf")))
                   [(py "numero_contrato", VStr (py "12/2024"))])).
Proof.
  apply (@analyze_finds_object_in_prose Cases.prose_before Cases.object_body
           Cases.prose_after (py "/in/doc.pdf")
           [(py "numero_contrato", VStr (py "12/2024"))]);
    vm_compute; reflexivity.
Defined.

(** X4.  When the cleaned answer does not parse, starts like an object
    and lacks closing braces, the repair appends the missing braces and
    does nothing else: neither the placeholder value is added nor a
    trailing comma removed. *)
Theorem try_repair_only_closes_braces (current_pdf_path : option text)
  (raw_response : text) :
  let cleaned := clean_response raw_response in
  json_loads cleaned = None ->
  re_search json_start_at cleaned = true ->
  count "}" cleaned < count "{" cleaned ->
  try_repair_truncated_json current_pdf_path raw_response
  = match json_loads
            (cleaned
             ++ repeat "}"%char (count "{" cleaned - count "}" cleaned)) with
    | Some v => set_anexo (repair_filename current_pdf_path) v
    | None => None
    end.
Proof.
  intros cleaned Hj Hs Hb. unfold try_repair_truncated_json.
  fold (repair_filename current_pdf_path). fold cleaned.
  rewrite Hj, Hs. cbn [negb].
  now rewrite (@repair_text_after_braces cleaned Hb).
Qed.

Lemma try_repair_only_closes_braces_witness :
  json_loads (clean_response Cases.missing_brace) = None /\
  try_repair_truncated_json (Some (py "/in/doc.pdf")) Cases.missing_brace
  = match json_loads (q "{'a': {'b': 1}}") with
    | Some v => set_anexo (py "doc.pdf") v
    | None => None
    end.
Proof.
  split; [vm_compute; reflexivity|].
  rewrite (@try_repair_only_closes_braces (Some (py "/in/doc.pdf"))
             Cases.missing_brace).
  - vm_compute; reflexivity.
  - vm_compute; reflexivity.
  - vm_compute; reflexivity.
  - apply Nat.ltb_lt. vm_compute; reflexivity.
Defined.

(* ================================================================== *)
(** * Organisations and companies are looked up by CNPJ *)
(* ================================================================== *)

Lemma insert_orgao_contratante_then_found (o : OrgaoContratante.t attr)
  (n : text) (id : nat) (c c1 : Conn) :
  OrgaoContratante.cnpj o = Some n ->
  insert_orgao_contratante o c = (Ok id, c1) ->
  exists row,
    find (fun r => sql_eq (o_cnpj r) (Some n)) (orgao_contratante (visible c1))
    = Some row /\ o_id row = id.
Proof.
  intros Hn.
  unfold insert_orgao_contratante, get_orgao_contratante_by_cnpj, select.
  rewrite Hn.
  destruct c as [v cm ac so se sc fl].
  unfold bind, execute, nextval_orgao, ret, with_visible.
  cbn [visible committed autocommit seq_orgao seq_empresa seq_contrato faults].
  destruct (find (fun r => sql_eq (o_cnpj r) (Some n)) (orgao_contratante v))
    as [row|] eqn:Ef.
  - destruct fl as [|[m|] fl]; cbn; rewrite ?Ef; cbn; intros H;
      try discriminate H; injection H as <- <-; cbn; eauto.
  - assert (Hnew : forall row,
               o_cnpj row = Some n ->
               find (fun r => sql_eq (o_cnpj r) (Some n))
                    (orgao_contratante v ++ [row]) = Some row).
    { intros row H1. apply find_app_miss; [exact Ef|].
      unfold sql_eq. rewrite H1. apply text_eqb_refl. }
    destruct fl as [|[m|] fl]; cbn; rewrite ?Ef; cbn;
      try (intros H; discriminate H);
      try (destruct fl as [|[m|] fl]; cbn; try (intros H; discriminate H));
      intros H; injection H as <- <-; cbn;
      eexists; (split; [apply Hnew; reflexivity|reflexivity]).
Qed.

(** X8.  Organisations are identified by CNPJ: once
    [insert_orgao_contratante] has returned an id for a CNPJ that is not
    [None], a second call for the same CNPJ, whatever the name and the
    sigla, writes nothing and returns that id (or raises, when the server
    refuses the lookup). *)
Theorem insert_orgao_contratante_reuses_id (o1 o2 : OrgaoContratante.t attr)
  (n : text) (id : nat) (c c1 c2 : Conn) (r : result text nat) :
  OrgaoContratante.cnpj o1 = Some n -> OrgaoContratante.cnpj o2 = Some n ->
  insert_orgao_contratante o1 c = (Ok id, c1) ->
  insert_orgao_contratante o2 c1 = (r, c2) ->
  visible c2 = visible c1 /\ (r = Ok id \/ exists e, r = Raise e).
Proof.
  intros Hn1 Hn2 H1.
  destruct (@insert_orgao_contratante_then_found o1 n id c c1 Hn1 H1)
    as [row [Hf Hid]].
  unfold insert_orgao_contratante, get_orgao_contratante_by_cnpj, select.
  rewrite Hn2.
  destruct c1 as [v cm ac so se sc fl].
  unfold bind, execute, ret.
  cbn [visible committed autocommit seq_orgao seq_empresa seq_contrato faults]
    in *.
  destruct fl as [|[m|] fl]; cbn; rewrite ?Hf; cbn; intros H;
    injection H as <- <-; cbn; subst id; eauto.
Qed.

Lemma insert_orgao_contratante_reuses_id_witness :
  let c := Samples.connect Samples.no_tables [] in
  let c1 := snd (insert_orgao_contratante Cases.orgao_a c) in
  let c2 := snd (insert_orgao_contratante Cases.orgao_b c1) in
  insert_orgao_contratante Cases.orgao_a c = (Ok 1, c1) /\
  visible c2 = visible c1 /\
  (fst (insert_orgao_contratante Cases.orgao_b c1) = Ok 1
   \/ exists e, fst (insert_orgao_contratante Cases.orgao_b c1) = Raise e).
Proof.
  intros c c1 c2.
  split; [vm_compute; reflexivity|].
  apply (@insert_orgao_contratante_reuses_id Cases.orgao_a Cases.orgao_b
           (py "1") 1 c c1 c2
           (fst (insert_orgao_contratante Cases.orgao_b c1)));
    vm_compute; reflexivity.
Defined.

Lemma insert_empresa_contratada_then_found (e : EmpresaContratada.t attr)
  (n : text) (id : nat) (c c1 : Conn) :
  EmpresaContratada.cnpj e = Some n ->
  insert_empresa_contratada e c = (Ok id, c1) ->
  exists row,
    find (fun r => sql_eq (e_cnpj r) (Some n)) (empresa_contratada (visible c1))
    = Some row /\ e_id row = id.
Proof.
  intros Hn.
  unfold insert_empresa_contratada, get_empresa_contratada_by_cnpj, select.
  rewrite Hn.
  destruct c as [v cm ac so se sc fl].
  unfold bind, execute, nextval_empresa, ret, with_visible.
  cbn [visible committed autocommit seq_orgao seq_empresa seq_contrato faults].
  destruct (find (fun r => sql_eq (e_cnpj r) (Some n)) (empresa_contratada v))
    as [row|] eqn:Ef.
  - destruct fl as [|[m|] fl]; cbn; rewrite ?Ef; cbn; intros H;
      try discriminate H; injection H as <- <-; cbn; eauto.
  - assert (Hnew : forall row,
               e_cnpj row = Some n ->
               find (fun r => sql_eq (e_cnpj r) (Some n))
                    (empresa_contratada v ++ [row]) = Some row).
    { intros row H1. apply find_app_miss; [exact Ef|].
      unfold sql_eq. rewrite H1. apply text_eqb_refl. }
    destruct fl as [|[m|] fl]; cbn; rewrite ?Ef; cbn;
      try (intros H; discriminate H);
      try (destruct fl as [|[m|] fl]; cbn; try (intros H; discriminate H));
      intros H; injection H as <- <-; cbn;
      eexists; (split; [apply Hnew; reflexivity|reflexivity]).
Qed.

(** X9.  Companies are identified by CNPJ in the same way: a second
    [insert_empresa_contratada] for a CNPJ that is not [None] writes
    nothing and returns the id of the first. *)
Theorem insert_empresa_contratada_reuses_id
  (e1 e2 : EmpresaContratada.t attr) (n : text) (id : nat) (c c1 c2 : Conn)
  (r : result text nat) :
  EmpresaContratada.cnpj e1 = Some n -> EmpresaContratada.cnpj e2 = Some n ->
  insert_empresa_contratada e1 c = (Ok id, c1) ->
  insert_empresa_contratada e2 c1 = (r, c2) ->
  visible c2 = visible c1 /\ (r = Ok id \/ exists e, r = Raise e).
Proof.
  intros Hn1 Hn2 H1.
  destruct (@insert_empresa_contratada_then_found e1 n id c c1 Hn1 H1)
    as [row [Hf Hid]].
  unfold insert_empresa_contratada, get_empresa_contratada_by_cnpj, select.
  rewrite Hn2.
  destruct c1 as [v cm ac so se sc fl].
  unfold bind, execute, ret.
  cbn [visible committed autocommit seq_orgao seq_empresa seq_contrato faults]
    in *.
  destruct fl as [|[m|] fl]; cbn; rewrite ?Hf; cbn; intros H;
    injection H as <- <-; cbn; subst id; eauto.
Qed.

Lemma insert_empresa_contratada_reuses_id_witness :
  let c := Samples.connect Samples.no_tables [] in
  let c1 := snd (insert_empresa_contratada Cases.empresa_a c) in
  let c2 := snd (insert_empresa_contratada Cases.empresa_b c1) in
  insert_empresa_contratada Cases.empresa_a c = (Ok 1, c1) /\
  visible c2 = visible c1 /\
  (fst (insert_empresa_contratada Cases.empresa_b c1) = Ok 1
   \/ exists e, fst (insert_empresa_contratada Cases.empresa_b c1) = Raise e).
Proof.
  intros c c1 c2.
  split; [vm_compute; reflexivity|].
  apply (@insert_empresa_contratada_reuses_id Cases.empresa_a Cases.empresa_b
           (py "2") 1 c c1 c2
           (fst (insert_empresa_contratada Cases.empresa_b c1)));
    vm_compute; reflexivity.
Defined.

(* ================================================================== *)
(** * Persisting the same contract twice *)
(* ================================================================== *)

(** What a server that accepts every statement leaves behind. *)





Lemma quiet_step_trans (a b c : Conn) :
  quiet_step a b -> quiet_step b c -> quiet_step a c.
Proof.
  unfold quiet_step. intros (?&?&?&?&?&?) (?&?&?&?&?&?).
  repeat split; congruence.
Qed.










(* ================================================================== *)
(** * The file name and the escaping of [generate_sql_script] *)
(* ================================================================== *)

Lemma lower_app (a b : text) : lower (a ++ b) = lower a ++ lower b.
Proof. apply map_app. Qed.

(** X14.  The file name the URL is built from ends with .pdf in some
    letter case, and computing it again from the result changes nothing,
    so a name and its completed form give the same URL. *)
Theorem pdf_filename_of_is_stable (filename : text) :
  endswith (py ".pdf") (lower (pdf_filename_of filename)) = true /\
  pdf_filename_of (pdf_filename_of filename) = pdf_filename_of filename /\
  url_of (pdf_filename_of filename) = url_of filename.
Proof.
  assert (H : endswith (py ".pdf") (lower (pdf_filename_of filename)) = true).
  { unfold pdf_filename_of.
    destruct (endswith (py ".pdf") (lower filename)) eqn:E; cbn [negb].
    - exact E.
    - rewrite lower_app.
      change (lower (py ".pdf")) with (py ".pdf"). apply endswith_app. }
  assert (H2 : pdf_filename_of (pdf_filename_of filename)
               = pdf_filename_of filename).
  { unfold pdf_filename_of at 1. now rewrite H. }
  split; [exact H|]. split; [exact H2|].
  unfold url_of. now rewrite H2.
Qed.

Lemma esc_cons (c : ascii) (r : text) :
  esc (Some (c :: r))
  = if Ascii.eqb squote c then squote :: squote :: esc (Some r)
    else c :: esc (Some r).
Proof.
  unfold esc, replace. cbn [or_empty replace_from startswith length Nat.sub].
  rewrite andb_true_r. destruct (Ascii.eqb squote c); reflexivity.
Qed.

Lemma unquote_cons (c : ascii) (r : text) :
  unquote (Some (c :: r))
  = if Ascii.eqb squote c then unquote (Some r) else c :: unquote (Some r).
Proof.
  unfold unquote, replace. cbn [or_empty replace_from startswith length Nat.sub].
  rewrite andb_true_r. destruct (Ascii.eqb squote c); reflexivity.
Qed.

Lemma count_cons (x c : ascii) (r : text) :
  count x (c :: r) = (if Ascii.eqb x c then 1 else 0) + count x r.
Proof. unfold count. simpl. now destruct (Ascii.eqb x c). Qed.

Lemma esc_facts (x : attr) :
  count squote (esc x) = 2 * count squote (or_empty x) /\
  replace [squote; squote] [squote] (esc x) = or_empty x /\
  count squote (unquote x) = 0.
Proof.
  destruct x as [s|]; [|repeat split; reflexivity].
  cbn [or_empty]. induction s as [|c r (IH1 & IH2 & IH3)].
  - repeat split; reflexivity.
  - rewrite esc_cons, unquote_cons, (count_cons squote c r).
    destruct (Ascii.eqb squote c) eqn:E.
    + apply Ascii.eqb_eq in E. subst c.
      split; [|split].
      * rewrite !count_cons, Ascii.eqb_refl, IH1. lia.
      * unfold replace in *. cbn [replace_from startswith length Nat.sub].
        rewrite !Ascii.eqb_refl. cbn [andb app]. now rewrite IH2.
      * exact IH3.
    + split; [|split].
      * rewrite count_cons, E, IH1. lia.
      * unfold replace in *. cbn [replace_from startswith].
        rewrite E. cbn [andb]. now rewrite IH2.
      * rewrite count_cons, E. exact IH3.
Qed.

(** X15.  Escaping doubles every apostrophe and changes nothing else: the
    escaped text has twice the apostrophes of the value, undoing the
    doubling gives the value back, and the numeric fields, from which
    apostrophes are removed, have none. *)
Theorem esc_doubles_apostrophes (x : attr) :
  count squote (esc x) = 2 * count squote (or_empty x) /\
  replace [squote; squote] [squote] (esc x) = or_empty x /\
  count squote (unquote x) = 0.
Proof. exact (esc_facts x). Qed.

(* ================================================================== *)
(** * Cutting a script into commands *)
(* ================================================================== *)

Lemma split_commands_cons (c : ascii) (r : text) :
  split_commands (c :: r)
  = if Ascii.eqb c ";" && Nat.even (count squote r)
    then [] :: split_commands r
    else match split_commands r with
         | piece :: pieces => (c :: piece) :: pieces
         | [] => [[c]]
         end.
Proof. reflexivity. Qed.

Lemma split_commands_nonempty (s : text) : split_commands s <> [].
Proof.
  destruct s as [|c r]; [discriminate|].
  rewrite split_commands_cons.
  destruct (Ascii.eqb c ";" && Nat.even (count squote r)); [discriminate|].
  destruct (split_commands r); discriminate.
Qed.

Lemma join_cons_cons (sep p p' : text) (rest : list text) :
  join sep (p :: p' :: rest) = p ++ sep ++ join sep (p' :: rest).
Proof. reflexivity. Qed.

Lemma join_head_cons (sep : text) (c : ascii) (p : text) (rest : list text) :
  join sep ((c :: p) :: rest) = c :: join sep (p :: rest).
Proof. destruct rest; reflexivity. Qed.

Lemma even_count_cons (c : ascii) (r : text) :
  Nat.even (count squote (c :: r))
  = if Ascii.eqb squote c then negb (Nat.even (count squote r))
    else Nat.even (count squote r).
Proof.
  rewrite count_cons. destruct (Ascii.eqb squote c); [|reflexivity].
  change (1 + count squote r) with (S (count squote r)).
  now rewrite Nat.even_succ, <- Nat.negb_even.
Qed.

(** X16.  Cutting a script and joining the pieces with semicolons gives
    the script back; and in a script with an even number of apostrophes
    every piece has an even number of them, so no cut falls inside a
    literal. *)
Theorem split_commands_keeps_the_script (sql_script : text) :
  join (py ";") (split_commands sql_script) = sql_script /\
  (Nat.even (count squote sql_script) = true ->
   Forall (fun piece => Nat.even (count squote piece) = true)
          (split_commands sql_script)).
Proof.
  split.
  - induction sql_script as [|c r IH]; [reflexivity|].
    rewrite split_commands_cons.
    destruct (Ascii.eqb c ";" && Nat.even (count squote r)) eqn:E.
    + apply andb_true_iff in E as [E _]. apply Ascii.eqb_eq in E. subst c.
      pose proof (split_commands_nonempty r) as Hne.
      destruct (split_commands r) as [|p ps]; [congruence|].
      rewrite join_cons_cons, IH. reflexivity.
    + pose proof (split_commands_nonempty r) as Hne.
      destruct (split_commands r) as [|p ps]; [congruence|].
      now rewrite join_head_cons, IH.
  - assert (H : forall s,
               match split_commands s with
               | p :: ps =>
                   Nat.even (count squote p) = Nat.even (count squote s) /\
                   Forall (fun piece => Nat.even (count squote piece) = true) ps
               | [] => False
               end).
    { induction s as [|c r IH]; [split; [reflexivity|constructor]|].
      rewrite split_commands_cons.
      destruct (split_commands r) as [|p ps]; [contradiction|].
      destruct IH as [Hp Hps].
      destruct (Ascii.eqb c ";" && Nat.even (count squote r)) eqn:E.
      - apply andb_true_iff in E as [E Hr]. apply Ascii.eqb_eq in E. subst c.
        split.
        + rewrite even_count_cons. cbn. now rewrite Hr.
        + constructor; [congruence|exact Hps].
      - split; [|exact Hps].
        rewrite !even_count_cons, Hp. reflexivity. }
    intros He. specialize (H sql_script).
    destruct (split_commands sql_script) as [|p ps]; [contradiction|].
    destruct H as [Hp Hps]. constructor; [congruence|exact Hps].
Qed.

Lemma split_commands_witness :
  split_commands Cases.two_statements
  = [py "INSERT INTO t VALUES ('a;b')"; py " DELETE FROM u"; []] /\
  Forall (fun piece => Nat.even (count squote piece) = true)
         (split_commands Cases.two_statements).
Proof.
  split; [vm_compute; reflexivity|].
  apply (proj2 (split_commands_keeps_the_script Cases.two_statements)).
  vm_compute; reflexivity.
Defined.

Lemma scan_state (s : text) (q : bool) :
  snd (scan q s) = xorb q (Nat.odd (count squote s)).
Proof.
  revert q. induction s as [|c r IH]; intros q.
  - simpl. now rewrite xorb_false_r.
  - cbn [scan]. rewrite count_cons, (Ascii.eqb_sym c squote).
    destruct (Ascii.eqb squote c).
    + rewrite IH. change (1 + count squote r) with (S (count squote r)).
      rewrite Nat.odd_succ, <- Nat.negb_odd.
      destruct q, (Nat.odd (count squote r)); reflexivity.
    + destruct (Ascii.eqb c ";" && negb q); cbn [snd]; apply IH.
Qed.

Lemma scan_app (a b : text) (q : bool) :
  scan q (a ++ b)
  = (fst (scan q a) + fst (scan (snd (scan q a)) b),
     snd (scan (snd (scan q a)) b)).
Proof.
  revert q. induction a as [|c r IH]; intros q.
  - simpl. now destruct (scan q b).
  - simpl app. cbn [scan].
    destruct (Ascii.eqb c squote); [apply IH|].
    destruct (Ascii.eqb c ";" && negb q); [|apply IH].
    rewrite IH. reflexivity.
Qed.

(** The cuts of [split_commands] are the semicolons met outside a literal,
    when the text does not end inside one. *)
Lemma split_commands_length (s : text) (q : bool) :
  snd (scan q s) = false ->
  length (split_commands s) = S (fst (scan q s)).
Proof.
  revert q. induction s as [|c r IH]; intros q H; [reflexivity|].
  rewrite split_commands_cons. cbn [scan] in *.
  pose proof (split_commands_nonempty r) as Hne.
  destruct (Ascii.eqb c squote) eqn:Eq.
  - apply Ascii.eqb_eq in Eq. subst c. cbn [andb].
    destruct (split_commands r) as [|p ps] eqn:Es; [congruence|].
    rewrite <- (IH _ H). reflexivity.
  - assert (Hr : snd (scan q r) = false).
    { destruct (Ascii.eqb c ";" && negb q); exact H. }
    assert (He : Nat.even (count squote r) = negb q).
    { rewrite scan_state in Hr. rewrite <- Nat.negb_odd.
      destruct q, (Nat.odd (count squote r)); try reflexivity;
        discriminate Hr. }
    rewrite He.
    destruct (Ascii.eqb c ";" && negb q).
    + cbn [length fst]. now rewrite (IH _ Hr).
    + destruct (split_commands r) as [|p ps] eqn:Es; [congruence|].
      rewrite <- (IH _ Hr). reflexivity.
Qed.

(** A semicolon with a balanced text after it is a cut. *)
Lemma split_commands_at_cut (a b : text) :
  Nat.even (count squote b) = true ->
  split_commands (a ++ ";"%char :: b)
  = removelast (split_commands a)
    ++ match split_commands b with
       | p :: ps => last (split_commands a) [] :: p :: ps
       | [] => []
       end.
Proof.
  intros Hb.
  pose proof (split_commands_nonempty b) as Hnb.
  destruct (split_commands b) as [|p ps] eqn:Eb; [congruence|].
  induction a as [|c r IH].
  - simpl app. rewrite split_commands_cons, Hb, Eb. reflexivity.
  - simpl app. rewrite !split_commands_cons.
    assert (Hc : Nat.even (count squote (r ++ ";"%char :: b))
                 = Nat.even (count squote r)).
    { rewrite count_app, count_cons.
      change (Ascii.eqb squote ";") with false. cbn [Nat.add].
      rewrite Nat.even_add, Hb. now destruct (Nat.even (count squote r)). }
    rewrite Hc, IH.
    pose proof (split_commands_nonempty r) as Hnr.
    destruct (split_commands r) as [|x xs]; [congruence|].
    destruct (Ascii.eqb c ";" && Nat.even (count squote r)).
    + reflexivity.
    + destruct xs as [|y ys]; reflexivity.
Qed.

(* ================================================================== *)
(** * The generated script, cut into commands *)
(* ================================================================== *)

Lemma scan_quote_free (s : text) :
  quote_free s = true -> scan true s = (0, true).
Proof.
  unfold quote_free. intros H. apply Nat.eqb_eq in H.
  induction s as [|c r IH]; [reflexivity|].
  rewrite count_cons in H. cbn [scan].
  rewrite (Ascii.eqb_sym c squote).
  destruct (Ascii.eqb squote c); [discriminate H|].
  rewrite andb_false_r. apply IH. exact H.
Qed.

Lemma scan_esc (x : attr) : scan true (esc x) = (0, true).
Proof.
  destruct x as [s|]; [|reflexivity].
  induction s as [|c r IH]; [reflexivity|].
  rewrite esc_cons. destruct (Ascii.eqb squote c) eqn:E.
  - cbn [scan]. rewrite Ascii.eqb_refl. cbn [negb]. exact IH.
  - cbn [scan]. rewrite (Ascii.eqb_sym c squote), E, andb_false_r. exact IH.
Qed.

Lemma scan_unquote (x : attr) : scan true (unquote x) = (0, true).
Proof.
  apply scan_quote_free. unfold quote_free.
  now rewrite (proj2 (proj2 (esc_facts x))).
Qed.

Lemma isdigit_not_quote (c : ascii) :
  isdigit c = true -> Ascii.eqb squote c = false.
Proof.
  destruct c as [[] [] [] [] [] [] [] []]; vm_compute; congruence.
Qed.

Lemma date_shape_scan (s : text) :
  date_shape s = true -> scan true s = (0, true).
Proof.
  intros H. apply scan_quote_free. unfold quote_free. apply Nat.eqb_eq.
  unfold date_shape in H.
  destruct s as [|d1 [|d2 [|s1 [|m1 [|m2 [|s2 [|y1 [|y2 [|y3 [|y4 rest]]]]]]]]]];
    try discriminate H.
  apply andb_prop in H as [H Hrest]. apply andb_prop in H as [H Hy4].
  apply andb_prop in H as [H Hy3]. apply andb_prop in H as [H Hy2].
  apply andb_prop in H as [H Hy1]. apply andb_prop in H as [H Hs2].
  apply andb_prop in H as [H Hm2]. apply andb_prop in H as [H Hm1].
  apply andb_prop in H as [H Hs1]. apply andb_prop in H as [Hd1 Hd2].
  apply isdigit_not_quote in Hd1, Hd2, Hm1, Hm2, Hy1, Hy2, Hy3, Hy4.
  apply Ascii.eqb_eq in Hs1, Hs2. subst s1 s2.
  rewrite !count_cons, Hd1, Hd2, Hm1, Hm2, Hy1, Hy2, Hy3, Hy4.
  change (Ascii.eqb squote "/") with false. cbn [Nat.add].
  destruct rest as [|c [|c' rest']]; try discriminate Hrest; [reflexivity|].
  apply Ascii.eqb_eq in Hrest. subst c. reflexivity.
Qed.

Lemma scan_app_eq (a b : text) (q q1 q2 : bool) (n m : nat) :
  scan q a = (n, q1) -> scan q1 b = (m, q2) ->
  scan q (a ++ b) = (n + m, q2).
Proof. intros Ha Hb. rewrite scan_app, Ha. cbn [fst snd]. now rewrite Hb. Qed.

(** A template is read piece by piece: a literal by evaluation, a value by
    the lemma for the way it was escaped. *)
Ltac scan_leaf :=
  first [ apply scan_esc
        | apply scan_unquote
        | apply scan_quote_free; assumption
        | apply date_shape_scan; assumption
        | eassumption
        | cbv; reflexivity ].

Ltac scan_chain :=
  lazymatch goal with
  | |- scan _ (_ ++ _) = _ => eapply scan_app_eq; [scan_leaf|scan_chain]
  | |- _ => scan_leaf
  end.

Ltac scan_template := etransitivity; [scan_chain|reflexivity].

Lemma scan_orgao_block (razao sigla : attr) (cnpj : text) :
  quote_free cnpj = true ->
  scan false (orgao_block (esc razao) (esc sigla) cnpj) = (1, false).
Proof. intros H. unfold orgao_block. scan_template. Qed.

Lemma scan_empresa_block (razao : attr) (cnpj : text) :
  quote_free cnpj = true ->
  scan false (empresa_block (esc razao) cnpj) = (1, false).
Proof. intros H. unfold empresa_block. scan_template. Qed.

Lemma scan_data_sql (data_celebracao : attr) :
  scan false
    (if attr_truthy data_celebracao && date_shape (or_empty data_celebracao)
     then py "TO_DATE('" ++ or_empty data_celebracao ++ py "', 'DD/MM/YYYY')"
     else py "NULL")
  = (0, false).
Proof.
  destruct (attr_truthy data_celebracao); cbn [andb]; [|reflexivity].
  destruct (date_shape (or_empty data_celebracao)) eqn:E; [|reflexivity].
  scan_template.
Qed.

Lemma scan_contrato_block (numero tipo processo fonte referencia url status
  : attr) (data_sql orgao_cnpj emp_cnpj : text) :
  scan false data_sql = (0, false) ->
  quote_free orgao_cnpj = true -> quote_free emp_cnpj = true ->
  scan false
    (contrato_block (esc numero) (esc tipo) (esc processo) data_sql (esc fonte)
       (esc referencia) (esc url) (esc status) orgao_cnpj emp_cnpj)
  = (0, false).
Proof. intros Hd Ho He. unfold contrato_block. scan_template. Qed.

Lemma scan_contrato_id_block (url : attr) :
  scan false (contrato_id_block (esc url)) = (0, false).
Proof. unfold contrato_id_block. scan_template. Qed.

Lemma scan_item_block (item : Item) :
  scan false
    (item_block (esc (Item.descricao item)) (esc (Item.especificacao item))
       (esc (Item.unidade_medida item)) (unquote (Item.quantidade item))
       (unquote (Item.valor_unitario item)) (unquote (Item.valor_total item))
       (unquote (Item.catmat_catser item)) (esc (Item.tipo item))
       (esc (Item.locais_execucao_entrega item)))
  = (0, false).
Proof. unfold item_block. scan_template. Qed.

(** Lines that each end outside a literal, joined by line feeds. *)
Lemma scan_join_lines (lines : list text) :
  Forall (fun l => snd (scan false l) = false) lines ->
  scan false (join [newline] lines)
  = (list_sum (map (fun l => fst (scan false l)) lines), false).
Proof.
  induction 1 as [|l rest Hl _ IH]; [reflexivity|].
  destruct rest as [|l' rest'].
  - cbn [join map list_sum fold_right]. rewrite Nat.add_0_r.
    destruct (scan false l) as [n q]. cbn [fst snd] in *. now subst q.
  - rewrite join_cons_cons, scan_app, Hl.
    change ([newline] ++ join [newline] (l' :: rest'))
      with (newline :: join [newline] (l' :: rest')).
    cbn [scan]. change (Ascii.eqb newline squote) with false.
    change (Ascii.eqb newline ";") with false. cbn [andb].
    rewrite IH. reflexivity.
Qed.

Lemma scan_item_lines (first_item : bool) (valid_items : list Item) :
  Forall (fun l => scan false l = (0, false))
         (item_lines first_item valid_items).
Proof.
  revert first_item. induction valid_items as [|item rest IH];
    intros first_item; [constructor|].
  cbn [item_lines]. constructor; [now destruct first_item|].
  constructor; [apply scan_item_block|apply IH].
Qed.

Lemma list_sum_zero (lines : list text) :
  Forall (fun l => scan false l = (0, false)) lines ->
  list_sum (map (fun l => fst (scan false l)) lines) = 0 /\
  Forall (fun l => snd (scan false l) = false) lines.
Proof.
  induction 1 as [|l rest Hl _ [IH1 IH2]]; [split; [reflexivity|constructor]|].
  split.
  - simpl. now rewrite Hl, IH1.
  - constructor; [now rewrite Hl|exact IH2].
Qed.

Lemma join_snoc (sep : text) (lines : list text) (l : text) :
  lines <> [] -> join sep (lines ++ [l]) = join sep lines ++ sep ++ l.
Proof.
  induction lines as [|x rest IH]; [congruence|]. intros _.
  destruct rest as [|y rest'].
  - reflexivity.
  - change ((x :: y :: rest') ++ [l]) with (x :: (y :: rest') ++ [l]).
    change ((y :: rest') ++ [l]) with (y :: rest' ++ [l]).
    rewrite join_cons_cons.
    change (y :: rest' ++ [l]) with ((y :: rest') ++ [l]).
    rewrite IH by discriminate.
    rewrite join_cons_cons. now rewrite <- !app_assoc.
Qed.

(** The script up to its closing semicolon. *)
Lemma scan_script_body (contrato : Contrato) (valid_items : list Item) :
  attr_quote_free
    (OrgaoContratante.cnpj (Contrato.orgao_contratante contrato)) = true ->
  attr_quote_free
    (EmpresaContratada.cnpj (Contrato.empresa_contratada contrato)) = true ->
  exists body,
    build_script contrato valid_items = body ++ [";"%char] /\
    scan false body = (2, false).
Proof.
  intros Ho He. unfold attr_quote_free in *.
  unfold build_script. cbv zeta.
  match goal with
  | |- exists body, join _ (?blocks ++ ?lines ++ [py ";"]) = _ /\ _ =>
      set (B := blocks); set (L := lines)
  end.
  exists (join [newline] (B ++ L) ++ [newline]).
  split.
  - rewrite app_assoc, join_snoc by (subst B; discriminate).
    rewrite <- app_assoc. reflexivity.
  - assert (HL : Forall (fun l => scan false l = (0, false)) L)
      by apply scan_item_lines.
    assert (HB : Forall (fun l => snd (scan false l) = false) (B ++ L)
                 /\ list_sum (map (fun l => fst (scan false l)) (B ++ L)) = 2).
    { destruct (list_sum_zero HL) as [HL1 HL2].
      split.
      - apply Forall_app. split; [|exact HL2].
        subst B. repeat constructor.
        + now rewrite scan_orgao_block.
        + now rewrite scan_empresa_block.
        + rewrite scan_contrato_block; auto using scan_data_sql.
        + now rewrite scan_contrato_id_block.
      - rewrite map_app, list_sum_app, HL1. subst B.
        cbn [map list_sum].
        rewrite scan_orgao_block, scan_empresa_block, scan_contrato_id_block
          by assumption.
        rewrite scan_contrato_block; auto using scan_data_sql. }
    destruct HB as [HB1 HB2].
    rewrite scan_app, (scan_join_lines HB1), HB2. reflexivity.
Qed.

(** X17.  The script [generate_sql_script] builds is cut into exactly
    four pieces (the organisation insert, the company insert, the
    statement that inserts the contract and its items, and an empty
    tail), whatever semicolons and apostrophes the values hold, as long as
    the two CNPJ, which are pasted unescaped, hold no apostrophe. *)
Theorem generated_script_is_cut_at_its_statements (contrato : Contrato)
  (valid_items : list Item) :
  attr_quote_free
    (OrgaoContratante.cnpj (Contrato.orgao_contratante contrato)) = true ->
  attr_quote_free
    (EmpresaContratada.cnpj (Contrato.empresa_contratada contrato)) = true ->
  exists orgao empresa rest,
    split_commands (build_script contrato valid_items)
    = [orgao; empresa; rest; []].
Proof.
  intros Ho He.
  destruct (scan_script_body contrato valid_items Ho He) as [body [-> Hs]].
  rewrite (@split_commands_at_cut body []) by reflexivity.
  assert (Hl : length (split_commands body) = 3).
  { rewrite (@split_commands_length body false) by (now rewrite Hs).
    now rewrite Hs. }
  destruct (split_commands body) as [|a [|b [|m [|x xs]]]];
    try discriminate Hl.
  exists a, b, m. reflexivity.
Qed.

Lemma generated_script_witness :
  attr_quote_free
    (OrgaoContratante.cnpj (Contrato.orgao_contratante Cases.with_url)) = true /\
  exists orgao empresa rest,
    split_commands (build_script Cases.with_url [Cases.awkward_item])
    = [orgao; empresa; rest; []].
Proof.
  split; [vm_compute; reflexivity|].
  apply (@generated_script_is_cut_at_its_statements Cases.with_url
           [Cases.awkward_item]);
    vm_compute; reflexivity.
Defined.

(* ================================================================== *)
(** * Running a script command by command *)
(* ================================================================== *)

Lemma accepted_nil (n : nat) : accepted n [] = n.
Proof. destruct n; reflexivity. Qed.

Lemma accepted_le (n : nat) (answers : list (option text)) :
  accepted n answers <= n.
Proof.
  revert answers. induction n as [|n IH]; intros answers; [reflexivity|].
  destruct answers as [|[m|] rest]; simpl; [|specialize (IH rest)..]; lia.
Qed.

Lemma sent_cons (command : text) (rest : list text) :
  sent (command :: rest)
  = if nonempty (strip command) then command :: sent rest else sent rest.
Proof. reflexivity. Qed.

Lemma ok_counts_eq (a b a' b' : nat) (c : Conn) :
  a = a' -> b = b' -> (@Ok text (nat * nat) (a, b), c) = (Ok (a', b'), c).
Proof. now intros -> ->. Qed.

Lemma run_commands_run (sql_commands : list text) (s e : nat) (c : Conn) :
  let n := length (sent sql_commands) in
  exists c',
    run_commands sql_commands s e c
    = (Ok (s + accepted n (faults c), e + (n - accepted n (faults c))), c') /\
    faults c' = skipn n (faults c) /\
    visible c' = visible c /\ committed c' = committed c /\
    autocommit c' = autocommit c.
Proof.
  revert s e c. induction sql_commands as [|command rest IH]; intros s e c.
  - exists c. simpl. rewrite !Nat.add_0_r. repeat split.
  - cbn [run_commands]. rewrite sent_cons.
    destruct (nonempty (strip command)) eqn:En.
    2:{ apply IH. }
    cbn [length].
    set (n := length (sent rest)).
    unfold bind at 1, try_except, bind at 1, execute.
    destruct c as [v cm ac so se sc fl].
    cbn [visible committed autocommit seq_orgao seq_empresa seq_contrato
         faults].
    destruct fl as [|[m|] fl].
    + unfold ret.
      destruct (IH (S s) e (mkConn v cm ac so se sc [])) as (c' & E & H).
      exists c'. rewrite E. fold n. fold n in H.
      cbn [faults visible committed autocommit] in *.
      rewrite !accepted_nil. split; [|rewrite skipn_nil in *; exact H].
      apply ok_counts_eq; lia.
    + unfold ret.
      destruct (IH s (S e) (mkConn v cm ac so se sc fl)) as (c' & E & H).
      exists c'. rewrite E. fold n. fold n in H.
      cbn [faults visible committed autocommit accepted skipn] in *.
      split; [|exact H].
      pose proof (accepted_le n fl). apply ok_counts_eq; lia.
    + unfold ret.
      destruct (IH (S s) e (mkConn v cm ac so se sc fl)) as (c' & E & H).
      exists c'. rewrite E. fold n. fold n in H.
      cbn [faults visible committed autocommit accepted skipn] in *.
      split; [|exact H].
      pose proof (accepted_le n fl). apply ok_counts_eq; lia.
Qed.

(** X18.  The loop over the pieces never raises: every piece that is not
    blank is sent exactly once and counted as a success or as an error,
    and the loop goes on after a refusal. *)
Theorem run_commands_counts_every_piece (sql_commands : list text)
  (c : Conn) :
  exists success_count error_count c',
    run_commands sql_commands 0 0 c = (Ok (success_count, error_count), c') /\
    success_count + error_count = length (sent sql_commands) /\
    success_count = accepted (length (sent sql_commands)) (faults c) /\
    faults c' = skipn (length (sent sql_commands)) (faults c).
Proof.
  destruct (run_commands_run sql_commands 0 0 c) as (c' & E & Hf & _).
  do 2 eexists. exists c'. split; [exact E|].
  pose proof (accepted_le (length (sent sql_commands)) (faults c)).
  repeat split; [lia|exact Hf].
Qed.

(** X19.  What [execute_sql_script] returns: success when the whole
    script and the commit are accepted; when the whole script is refused,
    success as soon as one piece and the commit are accepted, however many
    other pieces were refused; failure with the number of pieces when none
    was accepted, and with the server's message when the commit is
    refused. *)
Theorem execute_sql_script_outcome (sql_script : text) (c : Conn) :
  let n := length (sent (split_commands sql_script)) in
  let done := (true, py "SQL executado com sucesso") in
  let committing (answers : list (option text)) :=
    match answers with
    | Some e :: _ => (false, e)
    | _ => done
    end in
  fst (execute_sql_script sql_script c)
  = match faults c with
    | Some _ :: answers =>
        if accepted n answers =? 0 then (false, all_failed n)
        else committing (skipn n answers)
    | None :: answers => committing answers
    | [] => done
    end.
Proof.
  intros n done committing.
  unfold execute_sql_script, run_script.
  unfold bind at 1, try_except, execute at 1.
  destruct c as [v cm ac so se sc fl].
  cbn [visible committed autocommit seq_orgao seq_empresa seq_contrato faults].
  destruct fl as [|[m|] answers].
  - reflexivity.
  - unfold bind at 1, rollback at 1.
    cbn [visible committed autocommit seq_orgao seq_empresa seq_contrato
         faults].
    unfold bind at 1.
    destruct (run_commands_run (split_commands sql_script) 0 0
                (mkConn cm cm ac so se sc answers))
      as (c' & E & Hf & _).
    rewrite E. fold n. fold n in Hf. cbn [faults] in *.
    cbn [fst snd Nat.add].
    destruct (accepted n answers =? 0) eqn:Ea.
    + apply Nat.eqb_eq in Ea. rewrite Ea, Nat.sub_0_r. reflexivity.
    + unfold ret, commit, bind, execute. rewrite Hf.
      destruct (skipn n answers) as [|[e|] rest]; reflexivity.
  - unfold commit, bind, execute.
    cbn [visible committed autocommit seq_orgao seq_empresa seq_contrato
         faults].
    destruct answers as [|[e|] rest]; reflexivity.
Qed.

(* ================================================================== *)
(** * What is never written *)
(* ================================================================== *)

Lemma generate_sql_script_answered (contrato : Contrato) (filename : text)
  (c : Conn) :
  only_answered c (snd (generate_sql_script contrato filename c)).
Proof.
  unfold generate_sql_script, valid_items_of. unfold bind at 1.
  destruct (filter_valid (Contrato.itens contrato) c) as [[vs|e] c0] eqn:E0;
    apply filter_valid_spec in E0 as [H0 _]; [|exact H0].
  destruct vs as [|item rest]; [exact H0|].
  unfold bind, existing_contract_of.
  destruct (select _ c0) as [[existing|e] c1] eqn:E1;
    apply select_spec in E1 as [H1 _];
    [destruct existing|]; apply (only_answered_trans H0 H1).
Qed.

(** X13.  [generate_sql_script] only reads: whatever it returns or
    raises, the tables, the sequences and the autocommit switch are as
    before. *)
Theorem generate_sql_script_never_writes (contrato : Contrato)
  (filename : text) (c : Conn) :
  only_answered c (snd (generate_sql_script contrato filename c)).
Proof. apply generate_sql_script_answered. Qed.

(* ================================================================== *)
(** * Exceptions that leave [persist_contract] *)
(* ================================================================== *)






(** A refused validation query, on a connection whose operations would be
    refused too: they are not reached. *)
Lemma persist_contract_refused_validation_example :
  FailingConnection.persist_contract Samples.two_items
    (Cases.refusing, [Some (py "connection already closed")])
  = (Raise (py "server closed the connection"),
     (Samples.connect Samples.catalogue [],
      [Some (py "connection already closed")])).
Proof. vm_compute; reflexivity. Qed.

Lemma operate_unrefused (effect : M unit) (c : Conn)
  (ops : list (option text)) :
  unrefused ops = true ->
  FailingConnection.operate effect (c, ops)
  = (fst (effect c), (snd (effect c), tl ops))
  /\ unrefused (tl ops) = true.
Proof.
  unfold FailingConnection.operate. cbn [fst snd].
  destruct ops as [|[a|] rest]; cbn; intros H; try discriminate H;
    destruct (effect c); auto.
Qed.

Lemma insert_sequence_rows (contrato : Contrato) :
  insert_sequence contrato
  = bind (set_autocommit false)
         (fun _ => FailingConnection.insert_rows contrato).
Proof. reflexivity. Qed.

Ltac run_both :=
  cbv beta iota zeta delta
      [FailingConnection.bind FailingConnection.lift FailingConnection.ret
       FailingConnection.raise FailingConnection.try_and_handle
       FailingConnection.set_autocommit FailingConnection.rollback
       FailingConnection.operate
       bind try_except ret rollback set_autocommit insert_sequence
       fst snd
       l_cnpj_orgao l_cnpj_empresa l_numero_contrato l_data_contrato
       l_quantidade_itens l_status_execucao l_mensagem_log
       visible committed autocommit seq_orgao seq_empresa seq_contrato faults].

(** When no operation on the connection object is refused, the call is
    the one of the repository above. *)
Lemma persist_contract_unrefused (contrato : Contrato) (c : Conn)
  (ops : list (option text)) :
  unrefused ops = true ->
  exists ops',
    FailingConnection.persist_contract contrato (c, ops)
    = (fst (persist_contract contrato c),
       (snd (persist_contract contrato c), ops')).
Proof.
  intros Hq.
  destruct (persist_contract contrato c) as [r c'] eqn:E.
  cbn [fst snd]. revert E.
  unfold FailingConnection.persist_contract, persist_contract,
    persist_until_log.
  unfold FailingConnection.bind at 1, FailingConnection.lift at 1.
  unfold bind at 1. unfold bind at 1.
  cbn [fst snd].
  destruct (filter_valid (Contrato.itens contrato) c) as [[vs|e0] c0].
  2:{ intros [= <- <-]. eexists; reflexivity. }
  change (insert_sequence (Contrato.set_itens vs contrato))
    with (bind (set_autocommit false)
            (fun _ => FailingConnection.insert_rows
                        (Contrato.set_itens vs contrato))).
  destruct c0 as [v cm ac so se sc fl].
  destruct ops as [|[a|] [|[b|] [|[d|] ops3]]]; try discriminate Hq;
    run_both;
    match goal with
    | |- context [FailingConnection.insert_rows ?k ?x] =>
        destruct (FailingConnection.insert_rows k x) as [[[]|e1] c1]
    end;
    run_both;
    match goal with
    | |- context [insert_log_extrator ?a1 ?a2 ?a3 ?a4 ?a5 ?a6 ?a7 ?k] =>
        destruct (insert_log_extrator a1 a2 a3 a4 a5 a6 a7 k) as [[[]|e2] c2]
    end;
    intros [= <- <-]; eexists; reflexivity.
Qed.
